(** * extract_features.py: table features and the [is_table] rule

    A shallow embedding of [src/extract_features.py].  The script reads
    table fragments (CSV grids of strings), computes an ordered record of
    features for each one and labels it with a fixed threshold rule.

    Conventions of the embedding
    - a Python [str] is a [string]; a character is the code point of the
      same number, so the embedding covers the strings whose code points
      are below 256 (ASCII and Latin-1).  Among these the decimal digits
      of [\d] are [0] to [9]; beyond them [\d] matches the digits of
      other scripts, which the test [in '0123456789'] of [total_digits]
      does not count, so no statement below sets the digit counts
      against [total_digits];
    - a Python [int] (and a numpy [int64], which does not overflow on any
      grid that fits in memory) is a [Z]; a [float] (and a numpy
      [float64]) is a binary64 value of [SpecFloat] with [prec = 53] and
      [emax = 1024];
    - an [OrderedDict] is the list of its items in insertion order; the
      keyword arguments of its constructor keep their order (Python 3.6
      and later);
    - a call that can raise returns an [outcome]. *)

From Stdlib Require Import ZArith List Bool Ascii String Lia Permutation.
From Stdlib Require Import Relations.
From Stdlib Require Import QArith.
From Stdlib Require Import Floats.SpecFloat.
From Stdlib Require Import DecimalString.
From Stdlib Require Import DecimalNat.
Import ListNotations.

Local Open Scope string_scope.
Local Open Scope list_scope.
Local Open Scope Z_scope.

(** ** Results of calls that may raise *)

Inductive exn : Type :=
| ZeroDivisionError
| OverflowError
| KeyError (key : string)
| ReError
| OtherError (what : string).

(** [Unmodelled] is not a Python result: it marks an input that lies
    outside the fragment of the [re] syntax that the embedding covers. *)
Inductive outcome (A : Type) : Type :=
| Ok (a : A)
| Raise (e : exn)
| Unmodelled.

Arguments Ok {A} a.
Arguments Raise {A} e.
Arguments Unmodelled {A}.

Definition bind {A B : Type} (m : outcome A) (k : A -> outcome B) : outcome B :=
  match m with
  | Ok a => k a
  | Raise e => Raise e
  | Unmodelled => Unmodelled
  end.

Notation "x <- m ;; k" := (bind m (fun x => k))
  (at level 61, m at next level, right associativity).

(** ** Python built-ins on characters and strings *)

Module Py.

Definition ord (c : ascii) : N := N_of_ascii c.

Definition chars (s : string) : list ascii := list_ascii_of_string s.

Definition in_range (lo hi : N) (c : ascii) : bool :=
  ((lo <=? ord c) && (ord c <=? hi))%N.

(** [str.isspace] on one character (the whitespace of [str.split],
    [str.strip] and of the class [\s]). *)
Definition isspace (c : ascii) : bool :=
  in_range 9 13 c || in_range 28 32 c
  || (ord c =? 133)%N || (ord c =? 160)%N.

(** [str.isdecimal] on one character (the class [\d]). *)
Definition isdecimal (c : ascii) : bool := in_range 48 57 c.

Definition isupper (c : ascii) : bool :=
  in_range 65 90 c
  || (in_range 192 222 c && negb (ord c =? 215)%N).

Definition isalpha (c : ascii) : bool :=
  in_range 65 90 c || in_range 97 122 c
  || (ord c =? 170)%N || (ord c =? 181)%N || (ord c =? 186)%N
  || in_range 192 214 c || in_range 216 246 c || in_range 248 255 c.

(** Digits and numerics that are not decimals: superscripts 1 to 3 and
    the vulgar fractions. *)
Definition isnumeric_other (c : ascii) : bool :=
  (ord c =? 178)%N || (ord c =? 179)%N || (ord c =? 185)%N
  || in_range 188 190 c.

(** The class [\w]: alphanumeric or underscore. *)
Definition isword (c : ascii) : bool :=
  isalpha c || isdecimal c || isnumeric_other c || (ord c =? 95)%N.

Definition lower_char (c : ascii) : ascii :=
  if isupper c then ascii_of_N (ord c + 32) else c.

(** [str.lower] *)
Definition lower (s : string) : string :=
  string_of_list_ascii (map lower_char (chars s)).

(** [c in s] for a character [c] *)
Definition char_in (c : ascii) (s : string) : bool :=
  existsb (Ascii.eqb c) (chars s).

(** [str.split()] with no argument: the maximal runs of characters that
    are not whitespace.  [cur] is the run being read, reversed. *)
Fixpoint split_from (cur : list ascii) (s : list ascii) : list string :=
  match s with
  | [] =>
      match cur with
      | [] => []
      | _ => [string_of_list_ascii (rev cur)]
      end
  | c :: s' =>
      if isspace c then
        match cur with
        | [] => split_from [] s'
        | _ => string_of_list_ascii (rev cur) :: split_from [] s'
        end
      else split_from (c :: cur) s'
  end.

Definition split (s : string) : list string := split_from [] (chars s).

Fixpoint lstrip_chars (s : list ascii) : list ascii :=
  match s with
  | c :: s' => if isspace c then lstrip_chars s' else s
  | [] => []
  end.

(** [str.strip()] with no argument *)
Definition strip (s : string) : string :=
  string_of_list_ascii
    (rev (lstrip_chars (rev (lstrip_chars (chars s))))).

(** [len] of a string or of a list, and [sum(1 for ...)] *)
Definition len {A : Type} (l : list A) : Z := Z.of_nat (List.length l).

Definition sum_ones {A : Type} (l : list A) : Z :=
  fold_left (fun acc _ => acc + 1) l 0.

(** ['{}'.format(n)] for a non-negative integer *)
Definition str_of_nat (n : nat) : string :=
  NilEmpty.string_of_uint (Nat.to_uint n).

Fixpoint repeat_char (c : ascii) (n : nat) : string :=
  match n with
  | O => EmptyString
  | S n' => String c (repeat_char c n')
  end.

(** ['{:0wd}'.format(n)] for a non-negative integer: zero padding on the
    left up to width [w]. *)
Definition str_of_nat_pad (w : nat) (n : nat) : string :=
  let s := str_of_nat n in
  (repeat_char "0" (w - String.length s) ++ s)%string.

End Py.

(** ** Binary64 floating point *)

Module F64.

Definition float : Type := spec_float.

Definition prec : Z := 53.
Definition emax : Z := 1024.

Definition nan : float := S754_nan.

Definition ltb (x y : float) : bool := SFltb x y.
Definition leb (x y : float) : bool := SFleb x y.
Definition div (x y : float) : float := SFdiv prec emax x y.

(** The exact value of an integer, as an operand of a correctly rounded
    operation.  The mantissa is not normalised. *)
Definition exact (z : Z) : float :=
  match z with
  | Z0 => S754_zero false
  | Zpos p => S754_finite false p 0
  | Zneg p => S754_finite true p 0
  end.

(** [float(z)]: the integer [z] rounded to nearest even. *)
Definition of_int (z : Z) : float := binary_normalize prec emax z 0 false.

(** The literals of the source. *)
Definition lit_0_1 : float := S754_finite false 7205759403792794 (-56).
Definition lit_5 : float := of_int 5.

(** [a / b] on Python integers: the exact quotient, rounded once. *)
Definition int_truediv (a b : Z) : outcome float :=
  if b =? 0 then Raise ZeroDivisionError
  else
    match div (exact a) (exact b) with
    | S754_infinity _ => Raise OverflowError
    | f => Ok f
    end.

(** The value of a float as a rational; [None] for infinities and NaN. *)
Definition to_Q (x : float) : option Q :=
  match x with
  | S754_zero _ => Some (0 # 1)%Q
  | S754_finite s m e =>
      let n := if s then Zneg m else Zpos m in
      Some (match e with
            | Zneg p => Qmake n (2 ^ p)%positive
            | _ => inject_Z (n * 2 ^ e)
            end)
  | _ => None
  end.

(** Exact comparison of an integer with a float ([None] on NaN). *)
Definition compare_int (z : Z) (x : float) : option comparison :=
  match x with
  | S754_nan => None
  | S754_infinity s => Some (if s then Gt else Lt)
  | S754_zero _ => Some (z ?= 0)
  | S754_finite s m e =>
      let n := if s then Zneg m else Zpos m in
      Some (match e with
            | Zneg p => (z * 2 ^ Zpos p ?= n)
            | _ => (z ?= n * 2 ^ e)
            end)
  end.

End F64.

(** ** The [re] module, for the patterns the script builds

    [compile] follows the parser of [re] on a fragment of its syntax:
    literals, [.], [^], [$], the escapes [\b \B \d \D \s \S \w \W \A \Z],
    the control escapes, escaped punctuation, plain groups, [|] and the
    repetitions [*], [+] and [?] (greedy or lazy).  Character sets,
    counted repetitions, [(?...)] extensions, numeric and named escapes
    are outside the fragment. *)

Module Re.

Inductive category : Type := Digit | Space | Word.

Inductive at_code : Type :=
| AtBoundary | AtNonBoundary
| AtBeginning | AtEnd
| AtBeginningString | AtEndString.

Inductive rep_kind : Type := Opt | Star | Plus.

Inductive re : Type :=
| Empty
| Literal (c : ascii)
| AnyChar
| Category (negated : bool) (k : category)
| At (a : at_code)
| Seq (r1 r2 : re)
| Alt (r1 r2 : re)
| Group (r : re)
| Repeat (k : rep_kind) (r : re).

(** A compiled pattern: the expression and the [IGNORECASE] flag. *)
Record pattern : Type := { expr : re; ignorecase : bool }.

(** *** Parsing *)

(** An open (sub)pattern: the alternatives already closed by [|] and the
    items of the current one, both most recent first. *)
Record frame : Type := { branches : list re; items : list re }.

Definition empty_frame : frame := {| branches := []; items := [] |}.

Definition seq_of (its : list re) : re :=
  fold_left (fun acc it => match acc with Empty => it | _ => Seq it acc end)
            its Empty.

Definition alt_of (f : frame) : re :=
  fold_left (fun acc b => Alt b acc) (branches f) (seq_of (items f)).

Definition push (it : re) (f : frame) : frame :=
  {| branches := branches f; items := it :: items f |}.

Definition next_branch (f : frame) : frame :=
  {| branches := seq_of (items f) :: branches f; items := [] |}.

Definition is_ascii_letter (c : ascii) : bool :=
  Py.in_range 65 90 c || Py.in_range 97 122 c.

(** The item denoted by a backslash followed by [c]. *)
Definition escape (c : ascii) : outcome re :=
  match c with
  | "b"%char => Ok (At AtBoundary)
  | "B"%char => Ok (At AtNonBoundary)
  | "A"%char => Ok (At AtBeginningString)
  | "Z"%char => Ok (At AtEndString)
  | "d"%char => Ok (Category false Digit)
  | "D"%char => Ok (Category true Digit)
  | "s"%char => Ok (Category false Space)
  | "S"%char => Ok (Category true Space)
  | "w"%char => Ok (Category false Word)
  | "W"%char => Ok (Category true Word)
  | "a"%char => Ok (Literal (ascii_of_N 7))
  | "f"%char => Ok (Literal (ascii_of_N 12))
  | "n"%char => Ok (Literal (ascii_of_N 10))
  | "r"%char => Ok (Literal (ascii_of_N 13))
  | "t"%char => Ok (Literal (ascii_of_N 9))
  | "v"%char => Ok (Literal (ascii_of_N 11))
  | _ =>
      if is_ascii_letter c || Py.isdecimal c then Unmodelled
      else Ok (Literal c)
  end.

Definition rep_of (c : ascii) : option rep_kind :=
  match c with
  | "?"%char => Some Opt
  | "*"%char => Some Star
  | "+"%char => Some Plus
  | _ => None
  end.

(** The item a repetition applies to: the last of the current sequence.
    Nothing or a position test: "nothing to repeat"; a repetition:
    "multiple repeat". *)
Definition repeat_last (k : rep_kind) (f : frame) : outcome frame :=
  match items f with
  | [] => Raise ReError
  | At _ :: _ => Raise ReError
  | Repeat _ _ :: _ => Raise ReError
  | it :: its => Ok {| branches := branches f; items := Repeat k it :: its |}
  end.

Fixpoint parse (src : list ascii) (cur : frame) (stack : list frame)
  : outcome re :=
  match src with
  | [] =>
      match stack with
      | [] => Ok (alt_of cur)
      | _ :: _ => Raise ReError
      end
  | "\"%char :: rest =>
      match rest with
      | [] => Raise ReError
      | c :: rest' =>
          match escape c with
          | Ok it => parse rest' (push it cur) stack
          | Raise e => Raise e
          | Unmodelled => Unmodelled
          end
      end
  | "|"%char :: rest => parse rest (next_branch cur) stack
  | ")"%char :: rest =>
      match stack with
      | [] => Raise ReError
      | outer :: stack' => parse rest (push (Group (alt_of cur)) outer) stack'
      end
  | "("%char :: rest =>
      match rest with
      | "?"%char :: _ => Unmodelled
      | _ => parse rest empty_frame (cur :: stack)
      end
  | "."%char :: rest => parse rest (push AnyChar cur) stack
  | "^"%char :: rest => parse rest (push (At AtBeginning) cur) stack
  | "$"%char :: rest => parse rest (push (At AtEnd) cur) stack
  | "["%char :: _ => Unmodelled
  | "{"%char :: _ => Unmodelled
  | c :: rest =>
      match rep_of c with
      | Some k =>
          match repeat_last k cur with
          | Ok cur' =>
              match rest with
              | "?"%char :: rest' => parse rest' cur' stack
              | "+"%char :: _ => Unmodelled
              | _ => parse rest cur' stack
              end
          | Raise e => Raise e
          | Unmodelled => Unmodelled
          end
      | None => parse rest (push (Literal c) cur) stack
      end
  end.

(** [re.compile(p, flags)], with [flags] either [0] or [re.IGNORECASE] *)
Definition compile (p : string) (ic : bool) : outcome pattern :=
  r <- parse (Py.chars p) empty_frame [] ;;
  Ok {| expr := r; ignorecase := ic |}.

(** *** Matching *)

Section Matching.
Variable ic : bool.
Variable s : list ascii.

Definition char_eq (c t : ascii) : bool :=
  if ic then Ascii.eqb (Py.lower_char c) (Py.lower_char t)
  else Ascii.eqb c t.

Definition in_category (k : category) (t : ascii) : bool :=
  match k with
  | Digit => Py.isdecimal t
  | Space => Py.isspace t
  | Word => Py.isword t
  end.

Definition word_at (i : nat) : bool :=
  match nth_error s i with
  | Some t => Py.isword t
  | None => false
  end.

Definition word_before (i : nat) : bool :=
  match i with
  | O => false
  | S j => word_at j
  end.

(** The position tests.  On an empty string neither [\b] nor [\B] holds
    (the matcher of CPython up to 3.13 answers no to both when the string
    has no character). *)
Definition at_holds (a : at_code) (i : nat) : bool :=
  match a with
  | AtBoundary => xorb (word_before i) (word_at i)
  | AtNonBoundary =>
      match s with
      | [] => false
      | _ :: _ => negb (xorb (word_before i) (word_at i))
      end
  | AtBeginning | AtBeginningString => Nat.eqb i 0
  | AtEndString => Nat.eqb i (List.length s)
  | AtEnd =>
      Nat.eqb i (List.length s)
      || (Nat.eqb (S i) (List.length s)
          && match nth_error s i with
             | Some t => Ascii.eqb t (ascii_of_N 10)
             | None => false
             end)
  end.

Definition one_char (ok : ascii -> bool) (i : nat) : list nat :=
  match nth_error s i with
  | Some t => if ok t then [S i] else []
  | None => []
  end.

(** The positions reached from [xs] by at most [n] further rounds of
    [step]. *)
Fixpoint closure (step : nat -> list nat) (n : nat) (xs : list nat)
  : list nat :=
  match n with
  | O => xs
  | S n' => closure step n' (nodup Nat.eq_dec (xs ++ flat_map step xs))
  end.

(** [ends r i]: the positions [j] such that [r] matches the characters
    from [i] to [j]. *)
Fixpoint ends (r : re) (i : nat) {struct r} : list nat :=
  match r with
  | Empty => [i]
  | Literal c => one_char (char_eq c) i
  | AnyChar => one_char (fun t => negb (Ascii.eqb t (ascii_of_N 10))) i
  | Category neg k => one_char (fun t => xorb neg (in_category k t)) i
  | At a => if at_holds a i then [i] else []
  | Seq r1 r2 => flat_map (ends r2) (ends r1 i)
  | Alt r1 r2 => ends r1 i ++ ends r2 i
  | Group r1 => ends r1 i
  | Repeat Opt r1 => i :: ends r1 i
  | Repeat Star r1 => closure (ends r1) (List.length s) [i]
  | Repeat Plus r1 => closure (ends r1) (List.length s) (ends r1 i)
  end.

Definition matches_at (r : re) (i : nat) : bool :=
  match ends r i with
  | [] => false
  | _ :: _ => true
  end.

End Matching.

(** [pattern.finditer(c)] yields at least one match. *)
Definition has_match (p : pattern) (c : string) : bool :=
  let s := Py.chars c in
  existsb (matches_at (ignorecase p) s (expr p)) (seq 0 (S (List.length s))).

(** [re.sub(r'\\.', '_', s)]: a backslash and the character after it,
    unless that is a newline, become one underscore. *)
Fixpoint sub_escapes_chars (s : list ascii) : list ascii :=
  match s with
  | [] => []
  | c :: s' =>
      if Ascii.eqb c "\"%char then
        match s' with
        | [] => [c]
        | c' :: s'' =>
            if Ascii.eqb c' (ascii_of_N 10) then c :: sub_escapes_chars s'
            else "_"%char :: sub_escapes_chars s''
        end
      else c :: sub_escapes_chars s'
  end.

Definition sub_escapes (s : string) : string :=
  string_of_list_ascii (sub_escapes_chars (Py.chars s)).

(** [re.findall(r'\d+', c)]: the maximal runs of decimal digits, from
    left to right.  [cur] is the run being read, reversed. *)
Fixpoint digit_runs_from (cur : list ascii) (s : list ascii) : list string :=
  match s with
  | [] =>
      match cur with
      | [] => []
      | _ => [string_of_list_ascii (rev cur)]
      end
  | c :: s' =>
      if Py.isdecimal c then digit_runs_from (c :: cur) s'
      else
        match cur with
        | [] => digit_runs_from [] s'
        | _ => string_of_list_ascii (rev cur) :: digit_runs_from [] s'
        end
  end.

Definition findall_digits (c : string) : list string :=
  digit_runs_from [] (Py.chars c).

End Re.

(** ** Values, ordered dictionaries, counters, data frames *)

Inductive pyval : Type :=
| VInt (z : Z)
| VFloat (x : F64.float)
| VBool (b : bool).

Definition int_of_bool (b : bool) : Z := if b then 1 else 0.

(** [v > x] for a float [x] *)
Definition py_gt_float (v : pyval) (x : F64.float) : bool :=
  match v with
  | VFloat y => F64.ltb x y
  | VInt z =>
      match F64.compare_int z x with Some Gt => true | _ => false end
  | VBool b =>
      match F64.compare_int (int_of_bool b) x with Some Gt => true | _ => false end
  end.

(** [v < n] for an integer [n]; a numpy [float64] on the left turns [n]
    into a [float64]. *)
Definition py_lt_int (v : pyval) (n : Z) : bool :=
  match v with
  | VFloat y => F64.ltb y (F64.of_int n)
  | VInt z => z <? n
  | VBool b => int_of_bool b <? n
  end.

(** [collections.OrderedDict] with string keys: the items in insertion
    order, no key twice. *)
Module OrderedDict.

Definition t : Type := list (string * pyval).

Definition keys (d : t) : list string := map fst d.

(** [d[k]] *)
Fixpoint getitem (d : t) (k : string) : outcome pyval :=
  match d with
  | [] => Raise (KeyError k)
  | (k', v) :: d' => if String.eqb k' k then Ok v else getitem d' k
  end.

(** [d[k] = v]: a known key keeps its place, a new one goes last. *)
Fixpoint setitem (d : t) (k : string) (v : pyval) : t :=
  match d with
  | [] => [(k, v)]
  | (k', v') :: d' =>
      if String.eqb k' k then (k', v) :: d' else (k', v') :: setitem d' k v
  end.

Definition remove (d : t) (k : string) : t :=
  filter (fun kv => negb (String.eqb (fst kv) k)) d.

(** [d.move_to_end(k, last=False)] *)
Definition move_to_front (d : t) (k : string) : outcome t :=
  v <- getitem d k ;;
  Ok ((k, v) :: remove d k).

End OrderedDict.

(** [collections.Counter] over integers *)
Module Counter.

Definition t : Type := list (Z * Z).

Fixpoint incr (d : t) (k : Z) : t :=
  match d with
  | [] => [(k, 1)]
  | (k', n) :: d' =>
      if k' =? k then (k', n + 1) :: d' else (k', n) :: incr d' k
  end.

(** [Counter(iterable)] *)
Definition of_list (l : list Z) : t := fold_left incr l [].

(** [d.get(k, default)] *)
Fixpoint get (d : t) (k : Z) (default : Z) : Z :=
  match d with
  | [] => default
  | (k', n) :: d' => if k' =? k then n else get d' k default
  end.

End Counter.

(** A [pandas.DataFrame] of strings as [read_csv] builds it: [width]
    columns and the rows in order; a cell missing from a row is the empty
    string. *)
Record DataFrame : Type := { width : nat; rows : list (list string) }.

Module Pandas.

Definition column (df : DataFrame) (j : nat) : list string :=
  map (fun r => nth j r EmptyString) (rows df).

(** [df.items()]: the columns from left to right, each with its label. *)
Definition items (df : DataFrame) : list (nat * list string) :=
  map (fun j => (j, column df j)) (seq 0 (width df)).

Definition sum (l : list Z) : Z := fold_left Z.add l 0.

Definition minimum (x : Z) (l : list Z) : Z := fold_left Z.min l x.
Definition maximum (x : Z) (l : list Z) : Z := fold_left Z.max l x.

(** [Series.min()], [Series.max()]: NaN on an empty series. *)
Definition Series_min (l : list Z) : pyval :=
  match l with
  | [] => VFloat F64.nan
  | x :: l' => VInt (minimum x l')
  end.

Definition Series_max (l : list Z) : pyval :=
  match l with
  | [] => VFloat F64.nan
  | x :: l' => VInt (maximum x l')
  end.

(** [Series.mean()] of integers: the sum, accumulated in [float64],
    divided by the count.  Sum and count are exact as long as they stay
    below [2^53], and the quotient is then rounded once. *)
Definition Series_mean (l : list Z) : pyval :=
  match l with
  | [] => VFloat F64.nan
  | _ :: _ => VFloat (F64.div (F64.exact (sum l)) (F64.exact (Py.len l)))
  end.

End Pandas.

(** ** The functions of [extract_features.py] *)

(** [r'\b{}{}'.format(word, r'\b' if match_end else '')] *)
Definition word_pattern (word : string) (match_end : bool) : string :=
  ("\b" ++ word ++ (if match_end then "\b" else EmptyString))%string.

(** The loop of [is_word_in]: the first cell with a match returns. *)
Fixpoint first_match (p : Re.pattern) (cells : list string) : bool :=
  match cells with
  | [] => false
  | c :: cells' => if Re.has_match p c then true else first_match p cells'
  end.

Definition is_word_in (word : string) (cells : list string)
           (case_sensitive match_end : bool) : outcome bool :=
  let pattern := word_pattern word match_end in
  let ignorecase := negb case_sensitive in
  pattern <- Re.compile pattern ignorecase ;;
  Ok (first_match pattern cells).

(** [is_word_in] once more, with the [re] module left open: [compile p ic]
    stands for [re.compile(p, flags)], which raises or returns a pattern,
    and [finds p c] says whether [p.finditer(c)] yields a match.  With
    [Re.compile] and [Re.has_match] for them this is [is_word_in]. *)
Section WordMatcher.

Variable regex : Type.
Variable compile : string -> bool -> outcome regex.
Variable finds : regex -> string -> bool.

Fixpoint first_match_with (p : regex) (cells : list string) : bool :=
  match cells with
  | [] => false
  | c :: cells' => if finds p c then true else first_match_with p cells'
  end.

Definition is_word_in_with (word : string) (cells : list string)
           (case_sensitive match_end : bool) : outcome bool :=
  let pattern := word_pattern word match_end in
  let ignorecase := negb case_sensitive in
  pattern <- compile pattern ignorecase ;;
  Ok (first_match_with pattern cells).

End WordMatcher.

Definition predict_is_table (s : OrderedDict.t) : outcome pyval :=
  digits_perc <- OrderedDict.getitem s "digits_perc" ;;
  if py_gt_float digits_perc F64.lit_0_1 then
    cell_words_mean <- OrderedDict.getitem s "cell_words_mean" ;;
    Ok (VBool (py_lt_int cell_words_mean 5))
  else Ok (VBool false).

(** The catalog of words: pattern, [case_sensitive], [match_end]. *)
Definition words : list (string * bool * bool) :=
  [ ("age", false, true);
    ("date", false, true);
    ("year", false, false);
    ("BP", true, true);
    ("BC", true, true);
    ("AD", false, true);
    ("Ka", true, true);
    ("CAL", false, true);
    ("painting", false, false);
    ("drawing", false, false);
    ("engraving", false, false);
    ("pictograph", false, false);
    ("petroglyph", false, false);
    ("AMS", true, true);
    ("Uranium\sserie", false, false);
    ("Radiocarbon", false, true);
    ("RC14", false, true);
    ("charcoal", false, true);
    ("pigment", false, false);
    ("calcite", false, false);
    ("beeswax", false, true);
    ("varnish", false, true);
    ("bone", false, false);
    ("cave", false, false);
    ("site", false, false) ].

Definition word_feature_name (word : string) (case_sensitive match_end : bool)
  : string :=
  let word_name := if case_sensitive then word else Py.lower word in
  let word_name := Re.sub_escapes word_name in
  ("w_" ++ (if case_sensitive then "cs" else "ci")
        ++ "_" ++ (if match_end then "e" else "ne")
        ++ "_" ++ word_name)%string.

Definition digit_feature_name (length : nat) : string :=
  ("digit_of_len_" ++ Py.str_of_nat length)%string.

(** [cells = [c for _, col in df.items() for c in col]] *)
Definition cells_of (df : DataFrame) : list string :=
  flat_map snd (Pandas.items df).

Definition words_count_by_cell (cells : list string) : list Z :=
  map (fun c => Py.len (Py.split c)) cells.

Definition empty_cells (cells : list string) : Z :=
  Py.sum_ones (filter (fun c => String.eqb (Py.strip c) EmptyString) cells).

Definition total_words (cells : list string) : Z :=
  Py.sum_ones (flat_map Py.split cells).

Definition total_chars (cells : list string) : Z :=
  Py.sum_ones (flat_map Py.chars cells).

Definition total_digits (cells : list string) : Z :=
  Py.sum_ones
    (filter (fun char => Py.char_in char "0123456789")
            (flat_map Py.chars cells)).

(** The features set by the constructor call, in keyword order. *)
Definition structural_features (df : DataFrame) (cells : list string)
  : OrderedDict.t :=
  [ ("columns", VInt (Z.of_nat (width df)));
    ("rows", VInt (Py.len (rows df)));
    ("cell_words_min", Pandas.Series_min (words_count_by_cell cells));
    ("cell_words_mean", Pandas.Series_mean (words_count_by_cell cells));
    ("cell_words_max", Pandas.Series_max (words_count_by_cell cells));
    ("empty_cells", VInt (empty_cells cells));
    ("total_words", VInt (total_words cells));
    ("total_chars", VInt (total_chars cells));
    ("total_digits", VInt (total_digits cells)) ].

(** The loop over [words] *)
Fixpoint word_features (ws : list (string * bool * bool))
         (cells : list string) (features : OrderedDict.t)
  : outcome OrderedDict.t :=
  match ws with
  | [] => Ok features
  | (word, case_sensitive, match_end) :: ws' =>
      let feature_name := word_feature_name word case_sensitive match_end in
      b <- is_word_in word cells case_sensitive match_end ;;
      word_features ws' cells
        (OrderedDict.setitem features feature_name (VBool b))
  end.

(** [Counter(len(d) for c in cells for d in re.findall(r'\d+', c))] *)
Definition digit_word_len_count (cells : list string) : Counter.t :=
  Counter.of_list
    (map (fun d => Py.len (Py.chars d)) (flat_map Re.findall_digits cells)).

(** The loop over [range(2, 5 + 1)] *)
Definition digit_features (cells : list string) (features : OrderedDict.t)
  : OrderedDict.t :=
  fold_left
    (fun features length =>
       OrderedDict.setitem features (digit_feature_name length)
         (VInt (Counter.get (digit_word_len_count cells) (Z.of_nat length) 0)))
    (seq 2 4) features.

Definition get_table_features (df : DataFrame) : outcome OrderedDict.t :=
  let cells := cells_of df in
  let features := structural_features df cells in
  digits_perc <- F64.int_truediv (total_digits cells) (total_chars cells) ;;
  let features :=
    OrderedDict.setitem features "digits_perc" (VFloat digits_perc) in
  features <- word_features words cells features ;;
  let features := digit_features cells features in
  is_table <- predict_is_table features ;;
  let features := OrderedDict.setitem features "is_table" is_table in
  OrderedDict.move_to_front features "is_table".

(** ** The batch loop *)

(** A row of [tables]: the identity of a fragment. *)
Record fragment : Type := { article : string; page : Z; table : Z }.

(** ['{}'.format(z)] *)
Definition str_of_int (z : Z) : string :=
  match z with
  | Zneg p => ("-" ++ Py.str_of_nat (Pos.to_nat p))%string
  | _ => Py.str_of_nat (Z.to_nat z)
  end.

(** ['{:0wd}'.format(z)]: the sign first, then zeros up to width [w]. *)
Definition str_of_int_pad (w : nat) (z : Z) : string :=
  match z with
  | Zneg p => ("-" ++ Py.str_of_nat_pad (w - 1) (Pos.to_nat p))%string
  | _ => Py.str_of_nat_pad w (Z.to_nat z)
  end.

Definition pdf_extraction_dir : string := "<input dir>".

Definition failure_message (t : fragment) : string :=
  ("Failed to extract features for table " ++ article t
     ++ " p." ++ str_of_int (page t)
     ++ " t." ++ str_of_int (table t))%string.

(** What the loop has built so far: [feature_list] and the records written
    by [logging.exception]. *)
Record batch : Type :=
  { feature_list : list OrderedDict.t; log : list string }.

Section Batch.

(** [os.path.join], which depends on the platform, and [pandas.read_csv]
    followed by [fillna], which reads the file system. *)
Variable os_path_join : string -> list string -> string.
Variable read_csv : string -> exn + DataFrame.

Definition get_table_file (dir_ article : string) (page table : Z) : string :=
  os_path_join dir_
    [ article; "tables";
      ("page." ++ str_of_int_pad 3 page
         ++ ".table." ++ str_of_int_pad 2 table ++ ".csv")%string ].

(** The body of the [try] block *)
Definition extract_one (t : fragment) : outcome OrderedDict.t :=
  let file := get_table_file pdf_extraction_dir (article t) (page t) (table t) in
  match read_csv file with
  | inl e => Raise e
  | inr df => get_table_features df
  end.

(** The [for] loop with its [try] and its bare [except]. *)
Fixpoint extract_all (tables : list fragment) (st : batch) : outcome batch :=
  match tables with
  | [] => Ok st
  | t :: tables' =>
      match extract_one t with
      | Ok features =>
          extract_all tables'
            {| feature_list := feature_list st ++ [features]; log := log st |}
      | Raise _ =>
          extract_all tables'
            {| feature_list := feature_list st;
               log := log st ++ [failure_message t] |}
      | Unmodelled => Unmodelled
      end
  end.

Definition run (tables : list fragment) : outcome batch :=
  extract_all tables {| feature_list := []; log := [] |}.

End Batch.

(** What the attempt on one fragment adds to [feature_list] and to the
    log. *)
Definition record_of (o : outcome OrderedDict.t) : list OrderedDict.t :=
  match o with
  | Ok features => [features]
  | _ => []
  end.

Definition log_of (t : fragment) (o : outcome OrderedDict.t) : list string :=
  match o with
  | Raise _ => [failure_message t]
  | _ => []
  end.

(** ** The other functions of the script *)

(** [ValueError] and [IndexError] *)
Definition ValueError : exn := OtherError "ValueError".
Definition IndexError : exn := OtherError "IndexError".

(** [s.split(sep)] for a separator of one character: the pieces between
    the separators, empty pieces included.  [cur] is the piece being read,
    reversed. *)
Fixpoint split_on_from (sep : ascii) (cur : list ascii) (s : list ascii)
  : list string :=
  match s with
  | [] => [string_of_list_ascii (rev cur)]
  | c :: s' =>
      if Ascii.eqb c sep
      then string_of_list_ascii (rev cur) :: split_on_from sep [] s'
      else split_on_from sep (c :: cur) s'
  end.

Definition split_on (sep : ascii) (s : string) : list string :=
  split_on_from sep [] (Py.chars s).

(** [l[-k]] for [k >= 1] *)
Definition index_from_end {A : Type} (l : list A) (k : nat) : outcome A :=
  if (List.length l <? k)%nat then Raise IndexError
  else
    match nth_error l (List.length l - k) with
    | Some a => Ok a
    | None => Raise IndexError
    end.

(** The digits of an integer literal, with single underscores between
    digits. *)
Fixpoint int_digits (acc : Z) (after_digit : bool) (s : list ascii)
  : option Z :=
  match s with
  | [] => if after_digit then Some acc else None
  | c :: s' =>
      if Py.isdecimal c
      then int_digits (10 * acc + (Z.of_N (Py.ord c) - 48)) true s'
      else if Ascii.eqb c "_"%char
           then if after_digit then int_digits acc false s' else None
           else None
  end.

(** The blanks that [int] skips around the digits: the blanks of C
    ([\t] to [\r] and the space) and the blanks outside ASCII.  The
    separators U+001C to U+001F, which [str.strip] removes, are not among
    them. *)
Definition int_blank (c : ascii) : bool :=
  Py.isspace c && negb (Py.in_range 28 31 c).

Fixpoint int_skip (s : list ascii) : list ascii :=
  match s with
  | c :: s' => if int_blank c then int_skip s' else s
  | [] => []
  end.

(** [int(s)] in base 10: blanks around, an optional sign, digits.  A
    literal of more than 4300 characters, which recent versions refuse
    whatever it holds, is left out. *)
Definition int_of_str (s : string) : outcome Z :=
  let t := rev (int_skip (rev (int_skip (Py.chars s)))) in
  if (4300 <? List.length t)%nat then Unmodelled
  else
    let parsed :=
      match t with
      | [] => None
      | c :: t' =>
          if Ascii.eqb c "-"%char then option_map Z.opp (int_digits 0 false t')
          else if Ascii.eqb c "+"%char then int_digits 0 false t'
          else int_digits 0 false t
      end in
    match parsed with
    | Some z => Ok z
    | None => Raise ValueError
    end.

(** [get_table_parts], with [os.sep] as a parameter *)
Definition get_table_parts (sep : ascii) (file : string)
  : outcome (string * Z * Z) :=
  let items := split_on sep file in
  article <- index_from_end items 3 ;;
  name <- index_from_end items 1 ;;
  match split_on "."%char name with
  | [_; page; _; table_num; _] =>
      page <- int_of_str page ;;
      table_num <- int_of_str table_num ;;
      Ok (article, page, table_num)
  | _ => Raise ValueError
  end.

(** [posixpath.join]: a component that starts with a slash restarts the
    path; otherwise it is appended, after a slash unless the path is empty
    or ends with one. *)
Definition starts_with_slash (s : string) : bool :=
  match s with
  | String c _ => Ascii.eqb c "/"%char
  | EmptyString => false
  end.

Definition ends_with_slash (s : string) : bool :=
  match rev (Py.chars s) with
  | c :: _ => Ascii.eqb c "/"%char
  | [] => false
  end.

Definition posix_join_one (path b : string) : string :=
  if starts_with_slash b then b
  else if String.eqb path EmptyString || ends_with_slash path
       then (path ++ b)%string
       else (path ++ "/" ++ b)%string.

Definition posix_join (a : string) (p : list string) : string :=
  fold_left posix_join_one p a.

(** ** The final dataset *)

(** [pd.concat([tables, features_df], axis=1)] for two frames that both
    carry the index 0, 1, ...: the rows are paired by index, and a row that
    one frame lacks is filled with NaN on that side. *)
Fixpoint concat_columns {A B : Type} (l : list A) (r : list B)
  : list (option A * option B) :=
  match l, r with
  | [], _ => map (fun b => (None, Some b)) r
  | _, [] => map (fun a => (Some a, None)) l
  | a :: l', b :: r' => (Some a, Some b) :: concat_columns l' r'
  end.

Section Dataset.

Variable os_path_join : string -> list string -> string.
Variable read_csv : string -> exn + DataFrame.

(** The loop, then [pd.DataFrame(feature_list)] and [pd.concat]: the rows
    of the dataset that is written. *)
Definition dataset (tables : list fragment)
  : outcome (list (option fragment * option OrderedDict.t)) :=
  st <- run os_path_join read_csv tables ;;
  Ok (concat_columns tables (feature_list st)).

(** The fragments whose extraction succeeds, and the others *)
Definition succeeds (t : fragment) : bool :=
  match extract_one os_path_join read_csv t with
  | Ok _ => true
  | _ => false
  end.

End Dataset.

(** ** Notions used in the statements *)

(** A record with the two fields that the rule reads. *)
Definition sample_record : OrderedDict.t :=
  [("digits_perc", VFloat (S754_finite false 5146971002709138 (-54)));
   ("cell_words_mean", VFloat (S754_finite false 5629499534213120 (-51)))].

(** The compiled patterns of two words of the catalog: [BP], case
    sensitive and bounded at the end, and [age], case insensitive and open
    at the end. *)
Definition pattern_BP : Re.pattern :=
  {| Re.expr :=
       Re.Seq (Re.At Re.AtBoundary)
         (Re.Seq (Re.Literal "B") (Re.Seq (Re.Literal "P") (Re.At Re.AtBoundary)));
     Re.ignorecase := false |}.

Definition pattern_age : Re.pattern :=
  {| Re.expr :=
       Re.Seq (Re.At Re.AtBoundary)
         (Re.Seq (Re.Literal "a") (Re.Seq (Re.Literal "g") (Re.Literal "e")));
     Re.ignorecase := true |}.

(** The record read as a bracket: [A / B] lies in [[m, m + 1)], and both
    bits are clear exactly when it is [m]. *)
Definition shr_bracket (A B : Z) (mrs : shr_record) : Prop :=
  0 <= shr_m mrs
  /\ shr_m mrs * B <= A < (shr_m mrs + 1) * B
  /\ (A = shr_m mrs * B <-> shr_r mrs = false /\ shr_s mrs = false).

(** The keys after [d[k] = v], from the keys before. *)
Definition keys_set (ks : list string) (k : string) : list string :=
  if existsb (String.eqb k) ks then ks else ks ++ [k].

(** The pattern of an entry of the catalog compiles; the name of its
    feature. *)
Definition compiles (w : string * bool * bool) : Prop :=
  let '(word, case_sensitive, match_end) := w in
  exists p, Re.compile (word_pattern word match_end) (negb case_sensitive) = Ok p.

Definition word_entry_name (w : string * bool * bool) : string :=
  let '(word, case_sensitive, match_end) := w in
  word_feature_name word case_sensitive match_end.

(** The names set by the loop over the lengths, and all the names set
    after [digits_perc]. *)
Definition digit_names : list string := map digit_feature_name (seq 2 4).

Definition other_names : list string :=
  "is_table" :: map word_entry_name words ++ digit_names.

(** The names of the fields, in order. *)
Definition field_order : list string :=
  [ "is_table";
    "columns"; "rows"; "cell_words_min"; "cell_words_mean"; "cell_words_max";
    "empty_cells"; "total_words"; "total_chars"; "total_digits"; "digits_perc";
    "w_ci_e_age"; "w_ci_e_date"; "w_ci_ne_year"; "w_cs_e_BP"; "w_cs_e_BC";
    "w_ci_e_ad"; "w_cs_e_Ka"; "w_ci_e_cal"; "w_ci_ne_painting";
    "w_ci_ne_drawing"; "w_ci_ne_engraving"; "w_ci_ne_pictograph";
    "w_ci_ne_petroglyph"; "w_cs_e_AMS"; "w_ci_ne_uranium_serie";
    "w_ci_e_radiocarbon"; "w_ci_e_rc14"; "w_ci_e_charcoal"; "w_ci_ne_pigment";
    "w_ci_ne_calcite"; "w_ci_e_beeswax"; "w_ci_e_varnish"; "w_ci_ne_bone";
    "w_ci_ne_cave"; "w_ci_ne_site";
    "digit_of_len_2"; "digit_of_len_3"; "digit_of_len_4"; "digit_of_len_5" ].

(** The grid of the end-to-end example, and a grid of empty cells. *)
Definition example_grid : DataFrame :=
  {| width := 2;
     rows := [ ["1234"; "text here"]; ["5678"; "a b c d e f"] ] |}.

Definition empty_grid : DataFrame :=
  {| width := 2; rows := [ [EmptyString; EmptyString] ] |}.

(** The words of the specification: a maximal run of [n] digits starts at
    position [i] of [s] when no digit stands just before [i], the [n]
    characters from [i] on are digits, and no digit follows them. *)
Fixpoint digits_then_stop (n : nat) (s : list ascii) : bool :=
  match n, s with
  | O, [] => true
  | O, c :: _ => negb (Py.isdecimal c)
  | S n', c :: s' => Py.isdecimal c && digits_then_stop n' s'
  | S _, [] => false
  end.

Definition no_digit_before (s : list ascii) (i : nat) : bool :=
  match i with
  | O => true
  | S j =>
      match nth_error s j with
      | Some c => negb (Py.isdecimal c)
      | None => true
      end
  end.

Definition maximal_run_at (n : nat) (s : list ascii) (i : nat) : bool :=
  (0 <? n)%nat && no_digit_before s i && digits_then_stop n (skipn i s).

Definition count_maximal_runs (n : nat) (c : string) : nat :=
  List.length
    (filter (maximal_run_at n (Py.chars c)) (seq 0 (List.length (Py.chars c)))).

Definition runs_of_length (n : nat) (cells : list string) : Z :=
  Z.of_nat (list_sum (map (count_maximal_runs n) cells)).

(** The same count, read from left to right: [prev] tells whether the
    character before [s] is a digit. *)
Fixpoint run_starts (n : nat) (prev : bool) (s : list ascii) : nat :=
  match s with
  | [] => 0
  | c :: s' =>
      ((if negb prev && digits_then_stop n s then 1 else 0)
       + run_starts n (Py.isdecimal c) s')%nat
  end.

Definition run_at_from (n : nat) (prev : bool) (s : list ascii) (i : nat)
  : bool :=
  match i with
  | O => negb prev
  | S _ => no_digit_before s i
  end && digits_then_stop n (skipn i s).

(** The runs that [findall] returns *)
Definition count_len (n : nat) (l : list string) : nat :=
  List.length (filter (fun d => Nat.eqb (List.length (Py.chars d)) n) l).

(** What it means for an expression to match the characters of [s] from
    position [i] to position [j], stated without reference to the
    matcher. *)
Section Semantics.
Variable ic : bool.
Variable s : list ascii.

Fixpoint Matches (r : Re.re) : nat -> nat -> Prop :=
  match r with
  | Re.Empty => fun i j => j = i
  | Re.Literal c =>
      fun i j =>
        j = S i /\ exists t, nth_error s i = Some t /\ Re.char_eq ic c t = true
  | Re.AnyChar =>
      fun i j =>
        j = S i /\ exists t, nth_error s i = Some t /\ t <> ascii_of_N 10
  | Re.Category neg k =>
      fun i j =>
        j = S i
        /\ exists t, nth_error s i = Some t
                     /\ xorb neg (Re.in_category k t) = true
  | Re.At a => fun i j => j = i /\ Re.at_holds s a i = true
  | Re.Seq r1 r2 => fun i k => exists j, Matches r1 i j /\ Matches r2 j k
  | Re.Alt r1 r2 => fun i j => Matches r1 i j \/ Matches r2 i j
  | Re.Group r1 => Matches r1
  | Re.Repeat Re.Opt r1 => fun i j => j = i \/ Matches r1 i j
  | Re.Repeat Re.Star r1 => clos_refl_trans_1n nat (Matches r1)
  | Re.Repeat Re.Plus r1 =>
      fun i k =>
        exists j, Matches r1 i j /\ clos_refl_trans_1n nat (Matches r1) j k
  end.

End Semantics.

(** A cell contains a match of a pattern. *)
Definition contains_match (p : Re.pattern) (c : string) : Prop :=
  exists i j : nat,
    (i <= List.length (Py.chars c))%nat
    /\ Matches (Re.ignorecase p) (Py.chars c) (Re.expr p) i j.

(** A path of [n] steps that all move forward. *)
Fixpoint forward_path (R : nat -> nat -> Prop) (n : nat) (x y : nat) : Prop :=
  match n with
  | O => y = x
  | S n' => exists z, R x z /\ (x < z)%nat /\ forward_path R n' z y
  end.

(** The number of occurrences of a character in a string *)
Definition count_char (c : ascii) (s : string) : nat :=
  List.length (filter (fun x => Ascii.eqb x c) (Py.chars s)).

(** A string without the character [c] *)
Definition free_of (c : ascii) (s : string) : bool :=
  forallb (fun x => negb (Ascii.eqb x c)) (Py.chars s).

(** A reader that gives a grid of two empty cells for one article and a
    grid with a number for the others *)
Definition one_blank (blank : string) (file : string) : exn + DataFrame :=
  if String.eqb file
       (get_table_file posix_join pdf_extraction_dir blank 1 1)
  then inr {| width := 2; rows := [[EmptyString; EmptyString]] |}
  else inr {| width := 1; rows := [["12"]] |}.

(** A reader that finds no file for one article and the same grid for the
    others *)
Definition one_missing (missing : string) (file : string) : exn + DataFrame :=
  if String.eqb file
       (get_table_file posix_join pdf_extraction_dir missing 1 1)
  then inl (OtherError "FileNotFoundError")
  else inr {| width := 1; rows := [["12"]] |}.

(** The special characters of the pattern syntax; every other character
    stands for itself.  A plain word holds none of them. *)
Definition is_special (c : ascii) : bool := Py.char_in c "\|().^$[{?*+".

Definition plain_word (w : string) : bool :=
  forallb (fun c => negb (is_special c)) (Py.chars w).

(** What the pattern of a plain word compiles to: a boundary test, the
    characters of the word and, with [match_end], a second boundary test
    (the items most recent first, as the parser keeps them). *)
Definition plain_pattern (word : string) (me ic : bool) : Re.pattern :=
  {| Re.expr :=
       Re.seq_of
         ((if me then [Re.At Re.AtBoundary] else [])
            ++ rev (map Re.Literal (Py.chars word))
            ++ [Re.At Re.AtBoundary]);
     Re.ignorecase := ic |}.

(** A word character (a letter, a digit or an underscore) stands at
    position [i] of [s]. *)
Definition word_char (s : list ascii) (i : nat) : Prop :=
  exists t, nth_error s i = Some t /\ Py.isword t = true.

(** A word boundary: a word character on exactly one side of position
    [i]. *)
Definition word_boundary (s : list ascii) (i : nat) : Prop :=
  (word_char s i /\ forall j, i = S j -> ~ word_char s j)
  \/ (~ word_char s i /\ exists j, i = S j /\ word_char s j).

(** The same character, up to case when [ic] is set. *)
Definition same_char (ic : bool) (c t : ascii) : Prop :=
  if ic then Py.lower_char c = Py.lower_char t else c = t.

Section Occurrence.
Variable ic : bool.
Variable s : list ascii.

(** The characters of [w] stand in [s] from position [i] on. *)
Definition occurs_at (w : list ascii) (i : nat) : Prop :=
  forall (k : nat) (c : ascii),
    nth_error w k = Some c ->
    exists t, nth_error s (i + k) = Some t /\ same_char ic c t.

(** [w] occurs in [s] from a word boundary on, and up to a word boundary
    when [me] is set. *)
Definition word_found (me : bool) (w : list ascii) : Prop :=
  exists i : nat,
    word_boundary s i
    /\ occurs_at w i
    /\ (me = true -> word_boundary s (i + List.length w)).

(** The expressions of [l] match one after the other from [i] to [j]. *)
Fixpoint matches_list (l : list Re.re) (i j : nat) : Prop :=
  match l with
  | [] => j = i
  | r :: l' => exists k, Matches ic s r i k /\ matches_list l' k j
  end.

End Occurrence.

(** ** Properties *)

(** *** Counting *)

Lemma sum_ones_from {A : Type} (l : list A) (acc : Z) :
  fold_left (fun a _ => a + 1) l acc = acc + Z.of_nat (List.length l).
Proof.
  revert acc; induction l as [|x l IH]; intros acc; simpl fold_left.
  - simpl; lia.
  - rewrite IH. simpl List.length. lia.
Qed.

Lemma sum_ones_len {A : Type} (l : list A) : Py.sum_ones l = Py.len l.
Proof. unfold Py.sum_ones, Py.len. now rewrite sum_ones_from. Qed.


Lemma filter_length_le {A : Type} (f : A -> bool) (l : list A) :
  (List.length (filter f l) <= List.length l)%nat.
Proof.
  induction l as [|x l IH]; simpl; [lia|].
  destruct (f x); simpl; lia.
Qed.

Lemma sum_from (l : list Z) (acc : Z) :
  fold_left Z.add l acc = acc + Pandas.sum l.
Proof.
  unfold Pandas.sum. revert acc.
  induction l as [|x l IH]; intros acc; simpl; [lia|].
  rewrite (IH (acc + x)), (IH x). lia.
Qed.

Lemma sum_cons (x : Z) (l : list Z) : Pandas.sum (x :: l) = x + Pandas.sum l.
Proof. unfold Pandas.sum at 1. simpl. apply sum_from. Qed.

Lemma sum_map_len_flat_map {A B : Type} (f : A -> list B) (l : list A) :
  Pandas.sum (map (fun a => Py.len (f a)) l) = Py.len (flat_map f l).
Proof.
  induction l as [|a l IH]; [reflexivity|].
  simpl map. rewrite sum_cons, IH. unfold Py.len. simpl flat_map.
  rewrite length_app. lia.
Qed.

(** *** The classification rule *)

(** The literal [0.1] is the binary64 value nearest to one tenth, and [5]
    is exact. *)
Lemma lit_0_1_nearest : F64.int_truediv 1 10 = Ok F64.lit_0_1.
Proof. reflexivity. Qed.

Lemma lit_5_value : F64.to_Q F64.lit_5 = Some (Qmake 5629499534213120 (2 ^ 50)).
Proof. reflexivity. Qed.

(** C1: on a record whose [digits_perc] and [cell_words_mean] are floats,
    [predict_is_table] returns a boolean, and it is true exactly when
    [digits_perc > 0.1] and [cell_words_mean < 5], both strict. *)
Theorem predict_is_table_rule (s : OrderedDict.t) (d m : F64.float) :
  OrderedDict.getitem s "digits_perc" = Ok (VFloat d) ->
  OrderedDict.getitem s "cell_words_mean" = Ok (VFloat m) ->
  exists b : bool,
    predict_is_table s = Ok (VBool b)
    /\ (b = true <->
        F64.ltb F64.lit_0_1 d = true /\ F64.ltb m F64.lit_5 = true).
Proof.
  intros Hd Hm. unfold predict_is_table. rewrite Hd. cbn [bind py_gt_float].
  destruct (F64.ltb F64.lit_0_1 d) eqn:E.
  - rewrite Hm. cbn [bind py_lt_int]. fold F64.lit_5.
    exists (F64.ltb m F64.lit_5). split; [reflexivity|]. tauto.
  - exists false. split; [reflexivity|].
    split; [discriminate | intros [H _]; discriminate H].
Qed.

Lemma predict_is_table_rule_witness :
  OrderedDict.getitem sample_record "digits_perc"
  = Ok (VFloat (S754_finite false 5146971002709138 (-54)))
  /\ OrderedDict.getitem sample_record "cell_words_mean"
     = Ok (VFloat (S754_finite false 5629499534213120 (-51)))
  /\ exists b : bool,
      predict_is_table sample_record = Ok (VBool b)
      /\ (b = true <->
          F64.ltb F64.lit_0_1 (S754_finite false 5146971002709138 (-54)) = true
          /\ F64.ltb (S754_finite false 5629499534213120 (-51)) F64.lit_5
             = true).
Proof.
  split; [reflexivity|]. split; [reflexivity|].
  apply (predict_is_table_rule sample_record); reflexivity.
Defined.

(** An undefined input does not raise: the comparison with NaN is false. *)
Lemma predict_is_table_nan (s : OrderedDict.t) :
  OrderedDict.getitem s "digits_perc" = Ok (VFloat F64.nan) ->
  predict_is_table s = Ok (VBool false).
Proof. intros H. unfold predict_is_table. now rewrite H. Qed.

(** *** The matcher and the meaning of the expressions *)

Section MatcherCorrect.
Variable ic : bool.
Variable s : list ascii.

Lemma one_char_spec (ok : ascii -> bool) (i j : nat) :
  In j (Re.one_char s ok i)
  <-> j = S i /\ exists t, nth_error s i = Some t /\ ok t = true.
Proof.
  unfold Re.one_char. destruct (nth_error s i) as [t|].
  - destruct (ok t) eqn:E; cbn [In].
    + split.
      * intros [<-|[]]. split; [reflexivity|]. now exists t.
      * intros [-> _]. now left.
    + split; [intros []|]. intros (_ & t' & Ht' & Hok).
      injection Ht' as <-. congruence.
  - split; [intros []|]. intros (_ & t & Ht & _). discriminate Ht.
Qed.

Lemma closure_incl (step : nat -> list nat) (n : nat) (xs : list nat) (x : nat) :
  In x xs -> In x (Re.closure step n xs).
Proof.
  revert xs. induction n as [|n IH]; intros xs Hx; [exact Hx|].
  cbn [Re.closure]. apply IH. apply nodup_In. apply in_or_app. now left.
Qed.

(** Every position of the closure is reached by steps from [xs]. *)
Lemma closure_sound (step : nat -> list nat) (R : nat -> nat -> Prop) :
  (forall x y, In y (step x) -> R x y) ->
  forall n xs y,
    In y (Re.closure step n xs) ->
    exists x, In x xs /\ clos_refl_trans_1n nat R x y.
Proof.
  intros Hstep. induction n as [|n IH]; intros xs y Hy.
  - exists y. split; [exact Hy | constructor].
  - cbn [Re.closure] in Hy. destruct (IH _ _ Hy) as (x & Hx & Hxy).
    apply nodup_In in Hx. apply in_app_or in Hx. destruct Hx as [Hx|Hx].
    + now exists x.
    + apply in_flat_map in Hx. destruct Hx as (x0 & Hx0 & Hx).
      exists x0. split; [exact Hx0|].
      econstructor; [apply Hstep; exact Hx | exact Hxy].
Qed.

Lemma forward_path_of_star (R : nat -> nat -> Prop) :
  (forall x y, R x y -> (x <= y)%nat) ->
  forall x y, clos_refl_trans_1n nat R x y -> exists n, forward_path R n x y.
Proof.
  intros Hmono x y H. induction H as [x|x z y Hxz _ [n IH]].
  - now exists 0%nat.
  - destruct (Nat.eq_dec x z) as [->|Hne].
    + now exists n.
    + exists (S n), z. split; [exact Hxz|]. split; [|exact IH].
      specialize (Hmono _ _ Hxz). lia.
Qed.

Lemma forward_path_bound (R : nat -> nat -> Prop) (bound : nat) :
  (forall x y, R x y -> (x < y)%nat -> (y <= bound)%nat) ->
  forall n x y,
    forward_path R n x y -> (n = 0 \/ (x + n <= y /\ y <= bound))%nat.
Proof.
  intros Hb. induction n as [|n IH]; intros x y H; [now left|].
  right. destruct H as (z & Hxz & Hlt & Hp).
  destruct (IH _ _ Hp) as [->|[Hle Hy]].
  - cbn in Hp. subst y. specialize (Hb _ _ Hxz Hlt). lia.
  - lia.
Qed.

Lemma closure_complete (step : nat -> list nat) (R : nat -> nat -> Prop) :
  (forall x y, R x y -> In y (step x)) ->
  forall n fuel xs x y,
    In x xs -> forward_path R n x y -> (n <= fuel)%nat ->
    In y (Re.closure step fuel xs).
Proof.
  intros Hstep. induction n as [|n IH]; intros fuel xs x y Hx Hp Hn.
  - cbn in Hp. subst y. now apply closure_incl.
  - destruct fuel as [|fuel]; [lia|].
    destruct Hp as (z & Hxz & _ & Hp). cbn [Re.closure].
    apply (IH fuel _ z); [|exact Hp|lia].
    apply nodup_In. apply in_or_app. right.
    apply in_flat_map. exists x. split; [exact Hx|]. now apply Hstep.
Qed.

Lemma Matches_forward (r : Re.re) (i j : nat) :
  Matches ic s r i j -> (i <= j)%nat /\ (j = i \/ j <= List.length s)%nat.
Proof.
  revert i j. induction r as [|c| |neg k|a|r1 IH1 r2 IH2|r1 IH1 r2 IH2|r1 IH1
                             |k r1 IH1]; intros i j H; cbn [Matches] in H.
  - subst. lia.
  - destruct H as (-> & t & Ht & _).
    assert (i < List.length s)%nat by (apply nth_error_Some; congruence). lia.
  - destruct H as (-> & t & Ht & _).
    assert (i < List.length s)%nat by (apply nth_error_Some; congruence). lia.
  - destruct H as (-> & t & Ht & _).
    assert (i < List.length s)%nat by (apply nth_error_Some; congruence). lia.
  - destruct H as [-> _]. lia.
  - destruct H as (m & H1 & H2).
    apply IH1 in H1. apply IH2 in H2. lia.
  - destruct H as [H|H]; [now apply IH1 | now apply IH2].
  - now apply IH1.
  - assert (Hstar : forall x y, clos_refl_trans_1n nat (Matches ic s r1) x y ->
                                (x <= y)%nat
                                /\ (y = x \/ y <= List.length s)%nat).
    { intros x y Hxy. induction Hxy as [x|x z y Hxz _ IH]; [lia|].
      apply IH1 in Hxz. lia. }
    destruct k.
    + destruct H as [->|H]; [lia | now apply IH1].
    + now apply Hstar.
    + destruct H as (m & H1 & H2). apply IH1 in H1. apply Hstar in H2. lia.
Qed.

Lemma star_complete (r1 : Re.re) (xs : list nat) (x y : nat) :
  (forall a b, Matches ic s r1 a b -> In b (Re.ends ic s r1 a)) ->
  In x xs ->
  clos_refl_trans_1n nat (Matches ic s r1) x y ->
  In y (Re.closure (Re.ends ic s r1) (List.length s) xs).
Proof.
  intros Hc Hx Hxy.
  destruct (forward_path_of_star (Matches ic s r1)
              (fun a b H => proj1 (Matches_forward r1 a b H)) x y Hxy)
    as [n Hp].
  apply (closure_complete _ _ Hc n _ _ x y Hx Hp).
  assert (Hb : forall a b, Matches ic s r1 a b -> (a < b)%nat ->
                           (b <= List.length s)%nat).
  { intros a b Hab Hlt. apply Matches_forward in Hab. lia. }
  destruct (forward_path_bound _ _ Hb n x y Hp) as [->|[H1 H2]]; lia.
Qed.

Theorem ends_spec (r : Re.re) (i j : nat) :
  In j (Re.ends ic s r i) <-> Matches ic s r i j.
Proof.
  revert i j. induction r as [|c| |neg k|a|r1 IH1 r2 IH2|r1 IH1 r2 IH2|r1 IH1
                             |k r1 IH1]; intros i j; cbn [Re.ends Matches].
  - cbn [In]. split; [intros [<-|[]]; reflexivity | intros ->; now left].
  - apply one_char_spec.
  - rewrite one_char_spec. split; intros (-> & t & Ht & H);
      (split; [reflexivity|]); exists t; (split; [exact Ht|]).
    + intros ->. rewrite Ascii.eqb_refl in H. discriminate H.
    + destruct (Ascii.eqb_spec t (ascii_of_N 10)); [contradiction|reflexivity].
  - apply one_char_spec.
  - destruct (Re.at_holds s a i); cbn [In]; split.
    + intros [<-|[]]. now split.
    + intros [-> _]. now left.
    + intros [].
    + intros [_ H]. discriminate H.
  - rewrite in_flat_map. split.
    + intros (m & H1 & H2). exists m. split; [now apply IH1 | now apply IH2].
    + intros (m & H1 & H2). exists m. split; [now apply IH1 | now apply IH2].
  - rewrite in_app_iff, IH1, IH2. reflexivity.
  - apply IH1.
  - destruct k.
    + cbn [In]. rewrite IH1. split; intros [H|H]; auto.
    + split.
      * intros H.
        destruct (closure_sound (Re.ends ic s r1) (Matches ic s r1)
                    (fun x y Hy => proj1 (IH1 x y) Hy) _ _ _ H)
          as (x & [<-|[]] & Hxy).
        exact Hxy.
      * intros H. apply (star_complete r1 [i] i j); [|now left|exact H].
        intros a b Hab. now apply IH1.
    + split.
      * intros H.
        destruct (closure_sound (Re.ends ic s r1) (Matches ic s r1)
                    (fun x y Hy => proj1 (IH1 x y) Hy) _ _ _ H)
          as (x & Hx & Hxy).
        exists x. split; [now apply IH1 | exact Hxy].
      * intros (m & H1 & H2).
        apply (star_complete r1 _ m j); [|now apply IH1|exact H2].
        intros a b Hab. now apply IH1.
Qed.

End MatcherCorrect.

(** [has_match] decides [contains_match]. *)
Lemma has_match_spec (p : Re.pattern) (c : string) :
  Re.has_match p c = true <-> contains_match p c.
Proof.
  unfold Re.has_match, contains_match. rewrite existsb_exists. split.
  - intros (i & Hi & Hm). apply in_seq in Hi.
    unfold Re.matches_at in Hm.
    destruct (Re.ends (Re.ignorecase p) (Py.chars c) (Re.expr p) i)
      as [|j l] eqn:E; [discriminate Hm|].
    exists i, j. split; [lia|]. apply ends_spec. rewrite E. now left.
  - intros (i & j & Hi & Hm). exists i. split; [apply in_seq; lia|].
    apply ends_spec in Hm. unfold Re.matches_at.
    destruct (Re.ends (Re.ignorecase p) (Py.chars c) (Re.expr p) i);
      [destruct Hm | reflexivity].
Qed.

(** *** The word matcher *)

Lemma first_match_existsb (p : Re.pattern) (cells : list string) :
  first_match p cells = existsb (Re.has_match p) cells.
Proof.
  induction cells as [|c cells IH]; [reflexivity|].
  simpl. rewrite IH. now destruct (Re.has_match p c).
Qed.

Lemma existsb_Permutation {A : Type} (f : A -> bool) (l l' : list A) :
  Permutation l l' -> existsb f l = existsb f l'.
Proof.
  induction 1 as [|x l l' _ IH|x y l|l l' l'' _ IH1 _ IH2]; simpl.
  - reflexivity.
  - now rewrite IH.
  - destruct (f x), (f y); reflexivity.
  - now rewrite IH1.
Qed.

Lemma is_word_in_compiled (word : string) (cells : list string)
      (cs me : bool) (p : Re.pattern) :
  Re.compile (word_pattern word me) (negb cs) = Ok p ->
  is_word_in word cells cs me = Ok (existsb (Re.has_match p) cells).
Proof.
  intros H. unfold is_word_in. rewrite H. cbn [bind].
  now rewrite first_match_existsb.
Qed.

Lemma first_match_with_existsb {regex : Type}
      (finds : regex -> string -> bool) (p : regex) (cells : list string) :
  first_match_with regex finds p cells = existsb (finds p) cells.
Proof.
  induction cells as [|c cells IH]; [reflexivity|].
  simpl. rewrite IH. now destruct (finds p c).
Qed.

Lemma is_word_in_with_model (word : string) (cells : list string)
      (cs me : bool) :
  is_word_in word cells cs me
  = is_word_in_with Re.pattern Re.compile Re.has_match word cells cs me.
Proof.
  unfold is_word_in, is_word_in_with.
  destruct (Re.compile (word_pattern word me) (negb cs)); cbn [bind];
    [|reflexivity|reflexivity].
  now rewrite first_match_existsb, first_match_with_existsb.
Qed.

(** C5, as the code has it.  Whatever the [re] module does with the
    pattern built from the word: when [re.compile] returns a pattern,
    [is_word_in] returns, its result is true exactly when [finditer]
    yields a match in some cell, it does not depend on the order of the
    cells, and it is false on no cells; when [re.compile] raises,
    [is_word_in] raises the same error, whatever the cells.  [is_word_in]
    is the instance for [Re], where [finditer] yields a match exactly
    when the cell contains a match of the expression. *)
Theorem is_word_in_exists :
  (forall (regex : Type) (compile : string -> bool -> outcome regex)
          (finds : regex -> string -> bool) (word : string) (cs me : bool),
      match compile (word_pattern word me) (negb cs) with
      | Ok p =>
          (forall cells : list string,
              exists b : bool,
                is_word_in_with regex compile finds word cells cs me = Ok b
                /\ (b = true <-> exists c, In c cells /\ finds p c = true))
          /\ (forall cells cells' : list string,
                 Permutation cells cells' ->
                 is_word_in_with regex compile finds word cells' cs me
                 = is_word_in_with regex compile finds word cells cs me)
          /\ is_word_in_with regex compile finds word [] cs me = Ok false
      | Raise e =>
          forall cells : list string,
            is_word_in_with regex compile finds word cells cs me = Raise e
      | Unmodelled =>
          forall cells : list string,
            is_word_in_with regex compile finds word cells cs me = Unmodelled
      end)
  /\ (forall (word : string) (cells : list string) (cs me : bool),
         is_word_in word cells cs me
         = is_word_in_with Re.pattern Re.compile Re.has_match word cells cs me)
  /\ (forall (p : Re.pattern) (c : string),
         Re.has_match p c = true <-> contains_match p c).
Proof.
  split; [|split; [exact is_word_in_with_model | exact has_match_spec]].
  intros regex compile finds word cs me.
  unfold is_word_in_with.
  destruct (compile (word_pattern word me) (negb cs)) as [p|e|]; cbn [bind];
    [|reflexivity|reflexivity].
  split; [|split].
  - intros cells. exists (existsb (finds p) cells).
    rewrite first_match_with_existsb. split; [reflexivity|].
    apply existsb_exists.
  - intros cells cells' HP. rewrite !first_match_with_existsb.
    f_equal. symmetry. now apply existsb_Permutation.
  - reflexivity.
Qed.

Lemma is_word_in_exists_witness :
  Re.compile (word_pattern "BP" true) (negb true) = Ok pattern_BP
  /\ (exists b : bool,
         is_word_in "BP" ["x"; "12000 BP"] true true = Ok b
         /\ (b = true <->
             exists c, In c ["x"; "12000 BP"] /\ contains_match pattern_BP c))
  /\ is_word_in "BP" [] true true = Ok false.
Proof.
  split; [reflexivity|].
  destruct is_word_in_exists as (Hgen & Hmodel & Hsem).
  specialize (Hgen Re.pattern Re.compile Re.has_match "BP" true true).
  change (Re.compile (word_pattern "BP" true) (negb true))
    with (Ok pattern_BP) in Hgen.
  destruct Hgen as (H1 & _ & H3). split.
  - destruct (H1 ["x"; "12000 BP"]) as (b & Hb & Hiff).
    exists b. split; [now rewrite Hmodel|].
    rewrite Hiff. split; intros (c & Hc & Hm); exists c;
      (split; [exact Hc | now apply Hsem]).
  - now rewrite Hmodel.
Defined.

(** C5 as stated fails: a word that is not a regular expression makes
    [is_word_in] raise, also on the empty collection of cells. *)
Lemma is_word_in_not_total :
  is_word_in "(" [] true true = Raise ReError
  /\ is_word_in "(" [] true true <> Ok false.
Proof. split; [reflexivity | discriminate]. Qed.

(** C4: with the pattern [BP], case sensitive and bounded at the end,
    [is_word_in] is true on any cells that contain ["12000 BP"] and false
    on cells that are all ["12000 bp"] or ["BPx"]; with the pattern [age],
    case insensitive and open at the end, it is true on any cells that
    contain ["ages"] and on any cells that contain ["Age:"]. *)
Theorem is_word_in_examples :
  (forall cells, In "12000 BP" cells -> is_word_in "BP" cells true true = Ok true)
  /\ is_word_in "BP" ["12000 bp"] true true = Ok false
  /\ is_word_in "BP" ["BPx"] true true = Ok false
  /\ (forall cells,
         Forall (fun c => c = "12000 bp" \/ c = "BPx") cells ->
         is_word_in "BP" cells true true = Ok false)
  /\ (forall cells, In "ages" cells -> is_word_in "age" cells false false = Ok true)
  /\ (forall cells, In "Age:" cells -> is_word_in "age" cells false false = Ok true).
Proof.
  assert (Hin : forall word cs me p c cells,
             Re.compile (word_pattern word me) (negb cs) = Ok p ->
             Re.has_match p c = true -> In c cells ->
             is_word_in word cells cs me = Ok true).
  { intros word cs me p c cells Hp Hm Hc.
    rewrite (is_word_in_compiled _ _ _ _ _ Hp). f_equal.
    apply existsb_exists. now exists c. }
  split; [|split; [|split; [|split; [|split]]]].
  - intros cells. now apply (Hin "BP" true true pattern_BP).
  - reflexivity.
  - reflexivity.
  - intros cells Hall.
    rewrite (is_word_in_compiled "BP" cells true true pattern_BP eq_refl).
    f_equal. induction Hall as [|c cells [->| ->] _ IH]; [reflexivity| |];
      cbn [existsb]; rewrite IH; reflexivity.
  - intros cells. now apply (Hin "age" false false pattern_age).
  - intros cells. now apply (Hin "age" false false pattern_age).
Qed.

Lemma is_word_in_examples_witness :
  In "12000 BP" ["site"; "12000 BP"]
  /\ is_word_in "BP" ["site"; "12000 BP"] true true = Ok true
  /\ Forall (fun c => c = "12000 bp" \/ c = "BPx") ["BPx"; "12000 bp"]
  /\ is_word_in "BP" ["BPx"; "12000 bp"] true true = Ok false
  /\ In "ages" ["ages"]
  /\ is_word_in "age" ["ages"] false false = Ok true
  /\ In "Age:" ["Age:"; "x"]
  /\ is_word_in "age" ["Age:"; "x"] false false = Ok true.
Proof.
  destruct is_word_in_examples as [H1 [_ [_ [H4 [H5 H6]]]]].
  split; [simpl; tauto|]. split; [apply H1; simpl; tauto|].
  assert (HF : Forall (fun c => c = "12000 bp" \/ c = "BPx")
                      ["BPx"; "12000 bp"]).
  { constructor; [now right|]. constructor; [now left|]. constructor. }
  split; [exact HF|]. split; [apply H4; exact HF|].
  split; [simpl; tauto|]. split; [apply H5; simpl; tauto|].
  split; [simpl; tauto|]. apply H6; simpl; tauto.
Defined.

(** *** Rounding of a quotient of integers

    The quotient [a / b] of two positive integers lies between the same
    integers before and after it is rounded to binary64, as long as it is
    below [2^53].  The proof follows the computation of [SFdiv]: the
    quotient and its remainder, the shift to the precision, the rounding
    to nearest even and the final normalisation. *)

Section IterPos.
Context {A : Type} (f : A -> A).

Lemma nat_iter_add (n m : nat) (x : A) :
  Nat.iter (n + m) f x = Nat.iter n f (Nat.iter m f x).
Proof. induction n as [|n IH]; simpl; [reflexivity | now rewrite IH]. Qed.

Lemma nat_iter_succ_r (n : nat) (x : A) :
  Nat.iter (S n) f x = Nat.iter n f (f x).
Proof.
  replace (S n) with (n + 1)%nat by lia. now rewrite nat_iter_add.
Qed.

Lemma iter_pos_nat (p : positive) (x : A) :
  iter_pos f p x = Nat.iter (Pos.to_nat p) f x.
Proof.
  revert x; induction p as [p IH|p IH|]; intros x; cbn [iter_pos].
  - rewrite !IH, <- nat_iter_add, <- nat_iter_succ_r. f_equal. lia.
  - rewrite !IH, <- nat_iter_add. f_equal. lia.
  - reflexivity.
Qed.
End IterPos.

Lemma shr_1_m (mrs : shr_record) :
  0 <= shr_m mrs ->
  shr_m mrs = 2 * shr_m (shr_1 mrs) + Z.b2z (shr_r (shr_1 mrs))
  /\ 0 <= shr_m (shr_1 mrs)
  /\ shr_s (shr_1 mrs) = shr_r mrs || shr_s mrs.
Proof.
  destruct mrs as [m r s]; cbn [shr_m shr_r shr_s].
  destruct m as [|[p|p|]|p]; intros H; cbn; try lia;
    (split; [reflexivity | split; [lia | reflexivity]]).
Qed.

Lemma shr_1_bracket (A B : Z) (mrs : shr_record) :
  0 < B -> shr_bracket A B mrs -> shr_bracket A (2 * B) (shr_1 mrs).
Proof.
  intros HB (Hm & Hb & Hx).
  destruct (shr_1_m mrs Hm) as (E & Hm' & Es).
  unfold shr_bracket. rewrite Es.
  set (m' := shr_m (shr_1 mrs)) in *.
  destruct (shr_r (shr_1 mrs)) eqn:Er; cbn [Z.b2z] in E.
  - split; [exact Hm'|]. split; [nia|].
    split; [intros HA; exfalso; nia | intros [H _]; discriminate H].
  - split; [exact Hm'|]. split; [nia|].
    split.
    + intros HA. split; [reflexivity|].
      assert (HA' : A = shr_m mrs * B) by nia.
      apply Hx in HA'. destruct HA' as [-> ->]. reflexivity.
    + intros [_ Ho]. apply orb_false_iff in Ho.
      apply Hx in Ho. nia.
Qed.

Lemma shr_iter_bracket (A B : Z) (n : nat) (mrs : shr_record) :
  0 < B -> shr_bracket A B mrs ->
  shr_bracket A (B * 2 ^ Z.of_nat n) (Nat.iter n shr_1 mrs).
Proof.
  intros HB H. induction n as [|n IH].
  - simpl. now rewrite Z.mul_1_r.
  - rewrite Nat2Z.inj_succ, Z.pow_succ_r by lia.
    replace (B * (2 * 2 ^ Z.of_nat n)) with (2 * (B * 2 ^ Z.of_nat n)) by ring.
    change (Nat.iter (S n) shr_1 mrs) with (shr_1 (Nat.iter n shr_1 mrs)).
    apply shr_1_bracket; [|exact IH].
    apply Z.mul_pos_pos; [exact HB | apply Z.pow_pos_nonneg; lia].
Qed.

(** Digits *)

Lemma Zdigits2_shr_1 (mrs : shr_record) :
  0 <= shr_m mrs ->
  Zdigits2 (shr_m (shr_1 mrs)) = Z.max 0 (Zdigits2 (shr_m mrs) - 1).
Proof.
  destruct mrs as [m r s]; cbn [shr_m].
  destruct m as [|[p|p|]|p]; intros H; cbn [shr_1 shr_m Zdigits2 digits2_pos];
    try lia.
Qed.

Lemma Zdigits2_nonneg (m : Z) : 0 <= Zdigits2 m.
Proof. destruct m; cbn; lia. Qed.

Lemma shr_iter_nonneg (n : nat) (mrs : shr_record) :
  0 <= shr_m mrs -> 0 <= shr_m (Nat.iter n shr_1 mrs).
Proof.
  intros H. induction n as [|n IH]; [exact H|].
  change (Nat.iter (S n) shr_1 mrs) with (shr_1 (Nat.iter n shr_1 mrs)).
  now apply shr_1_m.
Qed.

Lemma Zdigits2_shr_iter (n : nat) (mrs : shr_record) :
  0 <= shr_m mrs ->
  Zdigits2 (shr_m (Nat.iter n shr_1 mrs))
  = Z.max 0 (Zdigits2 (shr_m mrs) - Z.of_nat n).
Proof.
  intros H. induction n as [|n IH].
  - simpl. pose proof (Zdigits2_nonneg (shr_m mrs)). lia.
  - change (Nat.iter (S n) shr_1 mrs) with (shr_1 (Nat.iter n shr_1 mrs)).
    rewrite Zdigits2_shr_1 by now apply shr_iter_nonneg.
    rewrite IH. lia.
Qed.

Lemma digits2_pos_bounds (p : positive) :
  2 ^ Zpos (digits2_pos p) <= 2 * Zpos p < 2 * 2 ^ Zpos (digits2_pos p).
Proof.
  induction p as [p IH|p IH|]; cbn [digits2_pos].
  - rewrite Pos2Z.inj_succ, Z.pow_succ_r by lia. lia.
  - rewrite Pos2Z.inj_succ, Z.pow_succ_r by lia. lia.
  - cbn. lia.
Qed.

Lemma Zdigits2_le (m n : Z) : 0 <= n -> 0 <= m < 2 ^ n -> Zdigits2 m <= n.
Proof.
  intros Hn [Hm Hlt]. destruct m as [|p|p]; cbn [Zdigits2]; try lia.
  pose proof (digits2_pos_bounds p) as [Hlo _].
  destruct (Z_le_gt_dec (Zpos (digits2_pos p)) n) as [|Hgt]; [assumption|].
  exfalso.
  assert (2 ^ (n + 1) <= 2 ^ Zpos (digits2_pos p))
    by (apply Z.pow_le_mono_r; lia).
  rewrite Z.pow_add_r in H by lia. lia.
Qed.

Lemma digits2_pos_succ (p : positive) :
  digits2_pos (Pos.succ p) = digits2_pos p
  \/ (digits2_pos (Pos.succ p) = Pos.succ (digits2_pos p)
      /\ Zpos (Pos.succ p) = 2 ^ Zpos (digits2_pos p)).
Proof.
  induction p as [p IH|p IH|]; cbn [Pos.succ digits2_pos].
  - destruct IH as [IH|[IH1 IH2]].
    + left. now rewrite IH.
    + right. split; [now rewrite IH1|].
      rewrite Pos2Z.inj_succ, Z.pow_succ_r by lia. lia.
  - now left.
  - right. split; reflexivity.
Qed.

Lemma shr_nat (mrs : shr_record) (e n : Z) :
  shr mrs e n = (Nat.iter (Z.to_nat n) shr_1 mrs, e + Z.max 0 n).
Proof.
  destruct n as [|p|p]; cbn [shr Z.to_nat].
  - cbn. now rewrite Z.add_0_r.
  - rewrite iter_pos_nat. f_equal.
  - cbn. now rewrite Z.add_0_r.
Qed.

Lemma fexp_unfold (x : Z) :
  fexp F64.prec F64.emax x = Z.max (x - 53) (-1074).
Proof. reflexivity. Qed.

Lemma shr_record_of_loc_m (m : Z) (l : location) :
  shr_m (shr_record_of_loc m l) = m.
Proof. now destruct l as [|[]]. Qed.

Lemma shr_record_of_loc_exact (m : Z) (l : location) :
  l = loc_Exact <->
  shr_r (shr_record_of_loc m l) = false /\ shr_s (shr_record_of_loc m l) = false.
Proof.
  destruct l as [|[]]; cbn; split; try tauto; try discriminate;
    intros [H1 H2]; discriminate.
Qed.

Lemma loc_of_shr_record_exact (mrs : shr_record) :
  loc_of_shr_record mrs = loc_Exact <-> shr_r mrs = false /\ shr_s mrs = false.
Proof.
  destruct mrs as [m [] []]; cbn; split; try tauto; try discriminate;
    intros [H1 H2]; discriminate.
Qed.

Lemma round_nearest_even_cases (m : Z) (l : location) :
  (l = loc_Exact -> round_nearest_even m l = m)
  /\ (round_nearest_even m l = m \/ round_nearest_even m l = m + 1).
Proof.
  destruct l as [|[]]; cbn [round_nearest_even];
    (split; [intros H; first [reflexivity | discriminate H]|]);
    try destruct (Z.even m); auto.
Qed.

Lemma new_location_exact (n k : Z) : new_location n k = loc_Exact <-> k = 0.
Proof.
  unfold new_location, new_location_even, new_location_odd.
  destruct (Z.even n); destruct (Z.eqb_spec k 0); split;
    try tauto; try discriminate.
Qed.

(** The first shift brings the mantissa to the precision. *)
Lemma shr_fexp_first (A B mz ez : Z) (lz : location) :
  0 < B -> ez <= 0 ->
  shr_bracket A B (shr_record_of_loc mz lz) ->
  A < 2 ^ (53 - ez) * B ->
  let mrs1 := fst (shr_fexp F64.prec F64.emax mz ez lz) in
  let e1 := snd (shr_fexp F64.prec F64.emax mz ez lz) in
  ez <= e1 <= 0 /\ -1074 <= e1
  /\ shr_bracket A (B * 2 ^ (e1 - ez)) mrs1
  /\ fexp F64.prec F64.emax (Zdigits2 (shr_m mrs1) + e1) <= e1.
Proof.
  intros HB Hez Hbr HA. unfold shr_fexp. rewrite shr_nat. cbn [fst snd].
  rewrite fexp_unfold.
  pose proof Hbr as (Hm & Hb & _). rewrite shr_record_of_loc_m in Hm, Hb.
  assert (Hd : Zdigits2 mz <= 53 - ez).
  { apply Zdigits2_le; [lia|]. split; [exact Hm|].
    assert (0 < 2 ^ (53 - ez)) by (apply Z.pow_pos_nonneg; lia). nia. }
  pose proof (Zdigits2_nonneg mz) as Hd0.
  set (n := Z.max (Zdigits2 mz + ez - 53) (-1074) - ez) in *.
  assert (Hn : Z.of_nat (Z.to_nat n) = Z.max 0 n) by lia.
  split; [lia|]. split; [lia|]. split.
  - replace (ez + Z.max 0 n - ez) with (Z.of_nat (Z.to_nat n)) by lia.
    now apply shr_iter_bracket.
  - rewrite Zdigits2_shr_iter
      by (rewrite shr_record_of_loc_m; exact Hm).
    rewrite shr_record_of_loc_m, fexp_unfold. lia.
Qed.

(** The second shift is by at most one bit and loses nothing. *)
Lemma shr_fexp_second (m1 m2 e1 : Z) :
  0 <= m1 -> -1074 <= e1 ->
  fexp F64.prec F64.emax (Zdigits2 m1 + e1) <= e1 ->
  m2 = m1 \/ m2 = m1 + 1 ->
  let mrs2 := fst (shr_fexp F64.prec F64.emax m2 e1 loc_Exact) in
  let e2 := snd (shr_fexp F64.prec F64.emax m2 e1 loc_Exact) in
  0 <= shr_m mrs2 /\ e1 <= e2 <= e1 + 1
  /\ m2 = shr_m mrs2 * 2 ^ (e2 - e1).
Proof.
  intros Hm1 He1 Hf Hm2. unfold shr_fexp.
  rewrite fexp_unfold in *.
  assert (Hcase :
            Z.max (Zdigits2 m2 + e1 - 53) (-1074) - e1 <= 0
            \/ (Z.max (Zdigits2 m2 + e1 - 53) (-1074) - e1 = 1
                /\ exists h, 0 < h /\ m2 = 2 * h)).
  { destruct Hm2 as [->| ->]; [left; lia|].
    destruct m1 as [|p|p];
      [left; change (Zdigits2 (0 + 1)) with 1; lia| |lia].
    replace (Z.pos p + 1) with (Z.pos (Pos.succ p)) by lia.
    cbn [Zdigits2] in *.
    destruct (digits2_pos_succ p) as [E|[E1 E2]].
    - left. rewrite E. lia.
    - rewrite E1, Pos2Z.inj_succ.
      destruct (Z_le_gt_dec
                  (Z.max (Z.succ (Z.pos (digits2_pos p)) + e1 - 53) (-1074) - e1) 0)
        as [|Hgt]; [now left|].
      right. split; [lia|].
      exists (2 ^ (Z.pos (digits2_pos p) - 1)). rewrite E2. split.
      + apply Z.pow_pos_nonneg; lia.
      + rewrite <- Z.pow_succ_r by lia. f_equal. lia. }
  destruct Hcase as [Hle|[Hone (h & Hh & Eh)]].
  - rewrite shr_nat. cbn [fst snd].
    replace (Z.to_nat _) with 0%nat by lia. cbn [Nat.iter nat_rect shr_record_of_loc shr_m].
    replace (e1 + Z.max 0 _ - e1) with 0 by lia.
    split; [lia|]. split; [lia|]. cbn. lia.
  - rewrite Hone. cbn [shr iter_pos fst snd].
    assert (Hm2' : 0 <= shr_m (shr_record_of_loc m2 loc_Exact)) by (cbn; lia).
    destruct (shr_1_m _ Hm2') as (E & Hm' & _). cbn [shr_record_of_loc shr_m] in E.
    cbn [shr_record_of_loc] in *.
    replace (e1 + 1 - e1) with 1 by lia. rewrite Z.pow_1_r.
    split; [exact Hm'|]. split; [lia|].
    destruct (shr_r (shr_1 {| shr_m := m2; shr_r := false; shr_s := false |}));
      cbn [Z.b2z] in E; lia.
Qed.

Lemma div_core_bracket (a b : positive) :
  let '(q, e', l) :=
    SFdiv_core_binary F64.prec F64.emax (Zpos a) 0 (Zpos b) 0 in
  e' <= 0
  /\ shr_bracket (Zpos a * 2 ^ (- e')) (Zpos b) (shr_record_of_loc q l).
Proof.
  unfold SFdiv_core_binary.
  set (e' := Z.min _ _).
  assert (He' : e' <= 0) by (unfold e'; lia).
  set (m' := match 0 - 0 - e' with
             | Z0 => Zpos a
             | Zpos _ => Z.shiftl (Zpos a) (0 - 0 - e')
             | Zneg _ => 0
             end).
  assert (Hm' : m' = Zpos a * 2 ^ (- e')).
  { unfold m'. replace (0 - 0 - e') with (- e') by lia.
    destruct (- e') as [|p|p] eqn:E; [|now rewrite Z.shiftl_mul_pow2 by lia|lia].
    now rewrite Z.mul_1_r. }
  pose proof (Z_div_mod m' (Zpos b) eq_refl) as H.
  destruct (Z.div_eucl m' (Zpos b)) as [q r]. destruct H as [Hq Hr].
  split; [exact He'|].
  assert (Hpos : 0 < 2 ^ (- e')) by (apply Z.pow_pos_nonneg; lia).
  unfold shr_bracket. rewrite shr_record_of_loc_m, <- Hm'.
  split; [nia|]. split; [nia|].
  rewrite <- shr_record_of_loc_exact, new_location_exact. split; nia.
Qed.

(** The value of a non-negative result, by the sign of its exponent. *)
Lemma to_Q_bracket (m e : Z) (x : F64.float) :
  0 <= m -> e <= 1 ->
  x = match m with
      | Z0 => S754_zero false
      | Zpos p => S754_finite false p e
      | Zneg _ => S754_nan
      end ->
  exists q : Q,
    F64.to_Q x = Some q
    /\ (forall k n K : Z,
           0 <= n -> e <= n -> K = k * 2 ^ (n - e) ->
           (K <= m * 2 ^ n -> (inject_Z k <= q)%Q)
           /\ (m * 2 ^ n <= K -> (q <= inject_Z k)%Q)).
Proof.
  intros Hm He ->. destruct m as [|p|p]; [| |lia].
  - exists (0 # 1)%Q. split; [reflexivity|].
    intros k' n K' Hn Hen ->.
    assert (0 < 2 ^ (n - e)) by (apply Z.pow_pos_nonneg; lia).
    unfold Qle; cbn [Qnum Qden inject_Z]. split; intros; nia.
  - cbn [F64.to_Q]. eexists. split; [reflexivity|].
    intros k' n K' Hn Hen ->.
    assert (Hp : 0 < 2 ^ (n - e)) by (apply Z.pow_pos_nonneg; lia).
    assert (Hn2 : 0 < 2 ^ n) by (apply Z.pow_pos_nonneg; lia).
    destruct e as [|pe|pe].
    + rewrite Z.sub_0_r. unfold Qle; cbn [Qnum Qden inject_Z].
      rewrite Z.pow_0_r. split; intros; nia.
    + assert (E1 : Z.pos pe = 1) by lia. rewrite E1 in *.
      assert (E : 2 ^ n = 2 * 2 ^ (n - 1)).
      { rewrite <- Z.pow_succ_r by lia. f_equal. lia. }
      rewrite E. unfold Qle; cbn [Qnum Qden inject_Z]. rewrite Z.pow_1_r.
      split; intros; nia.
    + replace (n - Z.neg pe) with (n + Z.pos pe) in * by lia.
      rewrite (Z.pow_add_r 2 n (Z.pos pe)) in * by lia.
      unfold Qle; cbn [Qnum Qden inject_Z]. rewrite Pos2Z.inj_pow.
      assert (0 < 2 ^ Z.pos pe) by (apply Z.pow_pos_nonneg; lia).
      split; intros; nia.
Qed.

Lemma binary_round_aux_bracket (A B mz ez : Z) (lz : location) :
  0 < B -> ez <= 0 ->
  shr_bracket A B (shr_record_of_loc mz lz) ->
  A < 2 ^ (53 - ez) * B ->
  exists q : Q,
    F64.to_Q (binary_round_aux F64.prec F64.emax false mz ez lz) = Some q
    /\ forall k : Z,
        (k * 2 ^ (- ez) * B <= A -> (inject_Z k <= q)%Q)
        /\ (A <= k * 2 ^ (- ez) * B -> (q <= inject_Z k)%Q).
Proof.
  intros HB Hez Hbr HA.
  pose proof (shr_fexp_first A B mz ez lz HB Hez Hbr HA) as H1.
  cbv zeta in H1. unfold binary_round_aux.
  destruct (shr_fexp F64.prec F64.emax mz ez lz) as [mrs1 e1].
  cbn [fst snd] in H1. destruct H1 as (He1 & He1' & Hbr1 & Hf1).
  destruct Hbr1 as (Hm1 & Hb1 & Hx1).
  pose proof (round_nearest_even_cases (shr_m mrs1) (loc_of_shr_record mrs1))
    as [Hex Hcases].
  set (m2 := round_nearest_even (shr_m mrs1) (loc_of_shr_record mrs1)) in *.
  pose proof (shr_fexp_second (shr_m mrs1) m2 e1 Hm1 He1' Hf1 Hcases) as H2.
  cbv zeta in H2.
  destruct (shr_fexp F64.prec F64.emax m2 e1 loc_Exact) as [mrs2 e2].
  cbn [fst snd] in H2. destruct H2 as (Hm3 & He2 & Em2).
  assert (Hx : match shr_m mrs2 with
               | Z0 => S754_zero false
               | Zpos m =>
                   if e2 <=? F64.emax - F64.prec
                   then S754_finite false m e2 else S754_infinity false
               | Zneg _ => S754_nan
               end
               = match shr_m mrs2 with
                 | Z0 => S754_zero false
                 | Zpos p => S754_finite false p e2
                 | Zneg _ => S754_nan
                 end).
  { destruct (shr_m mrs2); try reflexivity.
    replace (e2 <=? F64.emax - F64.prec) with true; [reflexivity|].
    symmetry. apply Z.leb_le. unfold F64.emax, F64.prec. lia. }
  destruct (to_Q_bracket (shr_m mrs2) e2 _ Hm3 ltac:(lia) Hx) as (q & Hq & Hk).
  exists q. split; [exact Hq|]. intros k.
  specialize (Hk k (e2 - e1) (k * 2 ^ (- e1)) ltac:(lia) ltac:(lia)).
  rewrite <- Em2 in Hk.
  replace (e2 - e1 - e2) with (- e1) in Hk by lia.
  specialize (Hk eq_refl). destruct Hk as [Hlo Hhi].
  set (B1 := B * 2 ^ (e1 - ez)) in *.
  assert (HB1 : 0 < B1).
  { apply Z.mul_pos_pos; [exact HB | apply Z.pow_pos_nonneg; lia]. }
  assert (HK : k * 2 ^ (- ez) * B = k * 2 ^ (- e1) * B1).
  { unfold B1. replace (- ez) with (- e1 + (e1 - ez)) by lia.
    rewrite Z.pow_add_r by lia. ring. }
  rewrite HK. split.
  - intros H. apply Hlo.
    assert (k * 2 ^ (- e1) < shr_m mrs1 + 1) by nia. lia.
  - intros H. apply Hhi.
    assert (Hle : shr_m mrs1 <= k * 2 ^ (- e1)) by nia.
    destruct (Z.eq_dec (shr_m mrs1) (k * 2 ^ (- e1))) as [E|NE]; [|lia].
    assert (HAeq : A = shr_m mrs1 * B1) by nia.
    apply Hx1 in HAeq. apply loc_of_shr_record_exact in HAeq.
    rewrite (Hex HAeq). lia.
Qed.

(** The quotient of two positive integers, rounded once: every integer
    below (above) the exact quotient is below (above) the result. *)
Lemma div_exact_bracket (a b : positive) :
  Zpos a < 2 ^ 53 * Zpos b ->
  exists q : Q,
    F64.to_Q (F64.div (F64.exact (Zpos a)) (F64.exact (Zpos b))) = Some q
    /\ forall k : Z,
        (k * Zpos b <= Zpos a -> (inject_Z k <= q)%Q)
        /\ (Zpos a <= k * Zpos b -> (q <= inject_Z k)%Q).
Proof.
  intros Hlt. unfold F64.div, F64.exact, SFdiv. cbn [xorb].
  pose proof (div_core_bracket a b) as H.
  destruct (SFdiv_core_binary F64.prec F64.emax (Zpos a) 0 (Zpos b) 0)
    as [[mz ez] lz].
  destruct H as [Hez Hbr].
  assert (Hp : 0 < 2 ^ (- ez)) by (apply Z.pow_pos_nonneg; lia).
  destruct (binary_round_aux_bracket (Zpos a * 2 ^ (- ez)) (Zpos b) mz ez lz)
    as (q & Hq & Hk); [lia | exact Hez | exact Hbr | |].
  - replace (53 - ez) with (53 + - ez) by lia.
    rewrite Z.pow_add_r by lia. nia.
  - exists q. split; [exact Hq|]. intros k.
    destruct (Hk k) as [Hlo Hhi]. split; intros H; [apply Hlo|apply Hhi]; nia.
Qed.

(** [d / c] for [0 <= d <= c] and [0 < c]: a float between 0 and 1. *)
Lemma int_truediv_unit (d c : Z) :
  0 <= d <= c -> 0 < c ->
  exists (x : F64.float) (q : Q),
    F64.int_truediv d c = Ok x
    /\ F64.to_Q x = Some q /\ (0 <= q)%Q /\ (q <= 1)%Q.
Proof.
  intros [Hd Hdc] Hc. unfold F64.int_truediv.
  destruct (Z.eqb_spec c 0) as [|_]; [lia|].
  destruct c as [|b|b]; try lia.
  destruct d as [|a|a]; try lia.
  - exists (S754_zero false), (0 # 1)%Q. cbn.
    repeat split; unfold Qle; cbn; lia.
  - destruct (div_exact_bracket a b) as (q & Hq & Hk).
    { assert (0 < Z.pos b) by lia. lia. }
    exists (F64.div (F64.exact (Z.pos a)) (F64.exact (Z.pos b))), q.
    split.
    + destruct (F64.div (F64.exact (Z.pos a)) (F64.exact (Z.pos b)));
        try reflexivity; discriminate Hq.
    + split; [exact Hq|]. split.
      * apply (proj1 (Hk 0)). lia.
      * apply (proj2 (Hk 1)). lia.
Qed.

(** *** Ordered dictionaries *)

Lemma keys_setitem (d : OrderedDict.t) (k : string) (v : pyval) :
  OrderedDict.keys (OrderedDict.setitem d k v)
  = keys_set (OrderedDict.keys d) k.
Proof.
  unfold keys_set, OrderedDict.keys.
  induction d as [|[k' v'] d IH]; [reflexivity|].
  cbn [OrderedDict.setitem map fst existsb].
  rewrite (String.eqb_sym k k').
  destruct (String.eqb k' k); [reflexivity|].
  cbn [map fst orb]. rewrite IH.
  now destruct (existsb (String.eqb k) (map fst d)).
Qed.

Lemma getitem_setitem (d : OrderedDict.t) (k k' : string) (v : pyval) :
  OrderedDict.getitem (OrderedDict.setitem d k v) k'
  = if String.eqb k k' then Ok v else OrderedDict.getitem d k'.
Proof.
  induction d as [|[k0 v0] d IH]; cbn [OrderedDict.setitem OrderedDict.getitem].
  - reflexivity.
  - destruct (String.eqb_spec k0 k) as [->|Hk0].
    + cbn [OrderedDict.getitem]. now destruct (String.eqb k k').
    + cbn [OrderedDict.getitem]. rewrite IH.
      destruct (String.eqb_spec k0 k') as [->|]; [|reflexivity].
      destruct (String.eqb_spec k k') as [->|]; [contradiction|reflexivity].
Qed.

Lemma getitem_remove (d : OrderedDict.t) (k k' : string) :
  String.eqb k k' = false ->
  OrderedDict.getitem (OrderedDict.remove d k) k' = OrderedDict.getitem d k'.
Proof.
  intros Hk. unfold OrderedDict.remove.
  induction d as [|[k0 v0] d IH]; [reflexivity|].
  cbn [filter fst OrderedDict.getitem].
  destruct (String.eqb_spec k0 k) as [->|Hk0]; cbn [negb].
  - rewrite Hk. exact IH.
  - cbn [OrderedDict.getitem]. now rewrite IH.
Qed.

Lemma keys_remove (d : OrderedDict.t) (k : string) :
  OrderedDict.keys (OrderedDict.remove d k)
  = filter (fun k' => negb (String.eqb k' k)) (OrderedDict.keys d).
Proof.
  unfold OrderedDict.remove, OrderedDict.keys.
  induction d as [|[k0 v0] d IH]; [reflexivity|].
  cbn [filter map fst]. destruct (String.eqb k0 k); cbn [negb map fst];
    now rewrite IH.
Qed.

(** *** The loops of [get_table_features] *)

Lemma words_compile : Forall compiles words.
Proof.
  unfold words.
  repeat (apply Forall_cons; [eexists; vm_compute; reflexivity|]).
  apply Forall_nil.
Qed.

Lemma word_features_ok (ws : list (string * bool * bool))
      (cells : list string) (features : OrderedDict.t) :
  Forall compiles ws ->
  exists features',
    word_features ws cells features = Ok features'
    /\ OrderedDict.keys features'
       = fold_left keys_set (map word_entry_name ws) (OrderedDict.keys features)
    /\ (forall k, existsb (String.eqb k) (map word_entry_name ws) = false ->
                  OrderedDict.getitem features' k
                  = OrderedDict.getitem features k)
    /\ (forall k, In k (map word_entry_name ws) ->
                  exists b, OrderedDict.getitem features' k = Ok (VBool b)).
Proof.
  intros H. revert features.
  induction H as [|[[word cs] me] ws [p Hp] _ IH]; intros features.
  - exists features. repeat split; try reflexivity. intros k [].
  - cbn [word_features]. rewrite (is_word_in_compiled _ _ _ _ _ Hp).
    cbn [bind].
    destruct (IH (OrderedDict.setitem features (word_feature_name word cs me)
                    (VBool (existsb (Re.has_match p) cells))))
      as (f' & Hf' & Hkeys & Hget & Hin).
    exists f'. split; [exact Hf'|]. split; [|split].
    + rewrite Hkeys, keys_setitem. reflexivity.
    + intros k Hk. cbn [map existsb word_entry_name] in Hk.
      apply orb_false_iff in Hk. destruct Hk as [Hk1 Hk2].
      rewrite (Hget k Hk2), getitem_setitem.
      rewrite String.eqb_sym in Hk1. now rewrite Hk1.
    + intros k Hk.
      destruct (existsb (String.eqb k) (map word_entry_name ws)) eqn:E.
      * apply existsb_exists in E. destruct E as (k' & Hk' & E).
        apply String.eqb_eq in E. subst k'. now apply Hin.
      * rewrite (Hget k E), getitem_setitem.
        destruct Hk as [Hk|Hk].
        -- cbn [word_entry_name] in Hk. subst k. rewrite String.eqb_refl.
           now eexists.
        -- exfalso. apply not_true_iff_false in E. apply E.
           apply existsb_exists. exists k. split; [exact Hk|].
           apply String.eqb_refl.
Qed.

Lemma digit_features_keys (cells : list string) (features : OrderedDict.t) :
  OrderedDict.keys (digit_features cells features)
  = fold_left keys_set digit_names (OrderedDict.keys features).
Proof.
  unfold digit_features, digit_names.
  generalize (seq 2 4). intros l. revert features.
  induction l as [|n l IH]; intros features; [reflexivity|].
  cbn [fold_left map]. now rewrite IH, keys_setitem.
Qed.

Lemma digit_features_other (cells : list string) (features : OrderedDict.t)
      (k : string) :
  existsb (String.eqb k) digit_names = false ->
  OrderedDict.getitem (digit_features cells features) k
  = OrderedDict.getitem features k.
Proof.
  unfold digit_features, digit_names.
  generalize (seq 2 4). intros l. revert features.
  induction l as [|n l IH]; intros features Hk; [reflexivity|].
  cbn [fold_left map existsb] in *. apply orb_false_iff in Hk.
  destruct Hk as [Hk1 Hk2]. rewrite (IH _ Hk2), getitem_setitem.
  rewrite String.eqb_sym in Hk1. now rewrite Hk1.
Qed.

Lemma digit_features_get (cells : list string) (features : OrderedDict.t)
      (n : nat) :
  In n (seq 2 4) ->
  OrderedDict.getitem (digit_features cells features) (digit_feature_name n)
  = Ok (VInt (Counter.get (digit_word_len_count cells) (Z.of_nat n) 0)).
Proof.
  intros Hn. unfold digit_features.
  change (fold_left _ (seq 2 4) features) with
    (let f n := VInt (Counter.get (digit_word_len_count cells) (Z.of_nat n) 0) in
     OrderedDict.setitem
       (OrderedDict.setitem
          (OrderedDict.setitem
             (OrderedDict.setitem features "digit_of_len_2" (f 2%nat))
             "digit_of_len_3" (f 3%nat))
          "digit_of_len_4" (f 4%nat))
       "digit_of_len_5" (f 5%nat)).
  cbv zeta. rewrite !getitem_setitem.
  cbn [seq In] in Hn.
  destruct Hn as [<-|[<-|[<-|[<-|[]]]]]; reflexivity.
Qed.

Lemma predict_is_table_floats (s : OrderedDict.t) (d m : F64.float) :
  OrderedDict.getitem s "digits_perc" = Ok (VFloat d) ->
  OrderedDict.getitem s "cell_words_mean" = Ok (VFloat m) ->
  predict_is_table s
  = Ok (VBool (F64.ltb F64.lit_0_1 d && F64.ltb m F64.lit_5)).
Proof.
  intros Hd Hm. unfold predict_is_table. rewrite Hd. cbn [bind py_gt_float].
  destruct (F64.ltb F64.lit_0_1 d); [|reflexivity].
  rewrite Hm. reflexivity.
Qed.

Lemma Series_mean_float (l : list Z) :
  exists m, Pandas.Series_mean l = VFloat m.
Proof. destruct l; eexists; reflexivity. Qed.

Lemma get_table_features_ok (df : DataFrame) (x : F64.float) :
  F64.int_truediv (total_digits (cells_of df)) (total_chars (cells_of df))
  = Ok x ->
  exists (r : OrderedDict.t) (m : F64.float),
    get_table_features df = Ok r
    /\ Pandas.Series_mean (words_count_by_cell (cells_of df)) = VFloat m
    /\ OrderedDict.keys r
       = "is_table"
           :: OrderedDict.keys (structural_features df (cells_of df))
           ++ "digits_perc" :: map word_entry_name words ++ digit_names
    /\ OrderedDict.getitem r "is_table"
       = Ok (VBool (F64.ltb F64.lit_0_1 x && F64.ltb m F64.lit_5))
    /\ (forall k, existsb (String.eqb k) other_names = false ->
                  OrderedDict.getitem r k
                  = OrderedDict.getitem
                      (OrderedDict.setitem
                         (structural_features df (cells_of df))
                         "digits_perc" (VFloat x)) k)
    /\ (forall k, In k (map word_entry_name words) ->
                  exists b, OrderedDict.getitem r k = Ok (VBool b))
    /\ (forall n, In n (seq 2 4) ->
                  OrderedDict.getitem r (digit_feature_name n)
                  = Ok (VInt (Counter.get (digit_word_len_count (cells_of df))
                                (Z.of_nat n) 0))).
Proof.
  intros Hx. unfold get_table_features. rewrite Hx. cbn [bind].
  set (cells := cells_of df).
  set (f1 := OrderedDict.setitem (structural_features df cells)
               "digits_perc" (VFloat x)).
  destruct (word_features_ok words cells f1 words_compile)
    as (fw & Hfw & Hkeys & Hget & Hin).
  rewrite Hfw. cbn [bind].
  destruct (Series_mean_float (words_count_by_cell cells)) as [m Hm].
  set (f3 := digit_features cells fw).
  assert (Hf3 : forall k, existsb (String.eqb k) other_names = false ->
                          OrderedDict.getitem f3 k = OrderedDict.getitem f1 k).
  { intros k Hk. unfold other_names in Hk. cbn [existsb] in Hk.
    rewrite existsb_app in Hk.
    apply orb_false_iff in Hk. destruct Hk as [_ Hk].
    apply orb_false_iff in Hk. destruct Hk as [Hk1 Hk2].
    unfold f3. rewrite (digit_features_other _ _ _ Hk2). now apply Hget. }
  assert (Hd : OrderedDict.getitem f3 "digits_perc" = Ok (VFloat x)).
  { rewrite Hf3 by reflexivity. unfold f1. rewrite getitem_setitem.
    reflexivity. }
  assert (Hmean : OrderedDict.getitem f3 "cell_words_mean" = Ok (VFloat m)).
  { rewrite Hf3 by reflexivity. unfold f1. rewrite getitem_setitem.
    cbn. now rewrite Hm. }
  rewrite (predict_is_table_floats f3 x m Hd Hmean). cbn [bind].
  set (b := F64.ltb F64.lit_0_1 x && F64.ltb m F64.lit_5).
  unfold OrderedDict.move_to_front.
  rewrite getitem_setitem, String.eqb_refl. cbn [bind].
  eexists. exists m. split; [reflexivity|]. split; [exact Hm|].
  split; [|split; [|split; [|split]]].
  - cbn [OrderedDict.keys map fst]. f_equal.
    fold (OrderedDict.keys
            (OrderedDict.remove (OrderedDict.setitem f3 "is_table" (VBool b))
               "is_table")).
    rewrite keys_remove, keys_setitem. unfold f3.
    rewrite digit_features_keys, Hkeys. unfold f1. rewrite keys_setitem.
    reflexivity.
  - cbn. reflexivity.
  - intros k Hk.
    assert (Hk' : String.eqb "is_table" k = false).
    { unfold other_names in Hk. cbn [existsb] in Hk.
      apply orb_false_iff in Hk. rewrite String.eqb_sym. apply Hk. }
    cbn [OrderedDict.getitem]. rewrite Hk'.
    rewrite getitem_remove, getitem_setitem, Hk' by exact Hk'.
    now apply Hf3.
  - intros k Hk.
    assert (Hk' : String.eqb "is_table" k = false).
    { destruct (String.eqb_spec "is_table" k) as [<-|]; [|reflexivity].
      exfalso. revert Hk. clear. cbn. intuition discriminate. }
    cbn [OrderedDict.getitem]. rewrite Hk'.
    rewrite getitem_remove, getitem_setitem, Hk' by exact Hk'.
    unfold f3. rewrite digit_features_other.
    + now apply Hin.
    + clear -Hk. revert Hk. cbn. 
      intros H; repeat (destruct H as [<-|H]; [reflexivity|]); destruct H.
  - intros n Hn.
    assert (Hk' : String.eqb "is_table" (digit_feature_name n) = false).
    { cbn [seq In] in Hn. destruct Hn as [<-|[<-|[<-|[<-|[]]]]]; reflexivity. }
    cbn [OrderedDict.getitem]. rewrite Hk'.
    rewrite getitem_remove, getitem_setitem, Hk' by exact Hk'.
    unfold f3. now apply digit_features_get.
Qed.

(** *** The feature record *)

Lemma totals_bounds (cells : list string) :
  0 <= total_words cells /\ 0 <= total_chars cells
  /\ 0 <= total_digits cells <= total_chars cells.
Proof.
  unfold total_words, total_chars, total_digits. rewrite !sum_ones_len.
  pose proof (filter_length_le (fun char => Py.char_in char "0123456789")
                (flat_map Py.chars cells)).
  unfold Py.len. lia.
Qed.

Lemma get_table_features_zero (df : DataFrame) :
  total_chars (cells_of df) = 0 ->
  get_table_features df = Raise ZeroDivisionError.
Proof.
  intros H. unfold get_table_features, F64.int_truediv. now rewrite H.
Qed.

(** C7: whenever a record is computed its fields are [field_order]:
    [is_table], the structural features, one boolean for each word of the
    catalog in catalog order, named from its flags and its pattern, and
    the counts for the lengths 2 to 5.  No record is computed exactly when
    the grid has no character, where the division raises. *)
Theorem feature_record_fields :
  field_order
  = "is_table"
      :: [ "columns"; "rows"; "cell_words_min"; "cell_words_mean";
           "cell_words_max"; "empty_cells"; "total_words"; "total_chars";
           "total_digits"; "digits_perc" ]
      ++ map (fun w => word_feature_name (fst (fst w)) (snd (fst w)) (snd w))
             words
      ++ map digit_feature_name [2; 3; 4; 5]%nat
  /\ forall df : DataFrame,
      match get_table_features df with
      | Ok r =>
          OrderedDict.keys r = field_order
          /\ Forall (fun k => exists b, OrderedDict.getitem r k = Ok (VBool b))
                    ("is_table" :: map word_entry_name words)
          /\ Forall (fun k => exists z, OrderedDict.getitem r k = Ok (VInt z))
                    (map digit_feature_name [2; 3; 4; 5]%nat)
      | Raise e => e = ZeroDivisionError /\ total_chars (cells_of df) = 0
      | Unmodelled => False
      end.
Proof.
  split; [reflexivity|]. intros df.
  destruct (totals_bounds (cells_of df)) as (_ & Hc & Hd).
  destruct (Z.eq_dec (total_chars (cells_of df)) 0) as [E|NE].
  - rewrite (get_table_features_zero df E). now split.
  - destruct (int_truediv_unit _ _ Hd ltac:(lia)) as (x & q & Hx & _).
    destruct (get_table_features_ok df x Hx)
      as (r & m & Hr & _ & Hkeys & Hit & _ & Hw & Hdg).
    rewrite Hr. split; [exact Hkeys|]. split.
    + apply Forall_cons; [eexists; exact Hit|].
      apply Forall_forall. exact Hw.
    + apply Forall_forall. intros k Hk.
      apply in_map_iff in Hk. destruct Hk as (n & <- & Hn).
      eexists. apply Hdg. exact Hn.
Qed.

(** C8: the totals are non-negative, there are no more digits than
    characters, and when there is a character the record holds the totals
    and [digits_perc] is the float quotient of the two totals, a value
    between 0 and 1. *)
Theorem totals_and_digits_perc (df : DataFrame) :
  0 <= total_words (cells_of df)
  /\ 0 <= total_chars (cells_of df)
  /\ 0 <= total_digits (cells_of df)
  /\ total_digits (cells_of df) <= total_chars (cells_of df)
  /\ (0 < total_chars (cells_of df) ->
      exists (r : OrderedDict.t) (x : F64.float) (q : Q),
        get_table_features df = Ok r
        /\ OrderedDict.getitem r "total_words"
           = Ok (VInt (total_words (cells_of df)))
        /\ OrderedDict.getitem r "total_chars"
           = Ok (VInt (total_chars (cells_of df)))
        /\ OrderedDict.getitem r "total_digits"
           = Ok (VInt (total_digits (cells_of df)))
        /\ OrderedDict.getitem r "digits_perc" = Ok (VFloat x)
        /\ F64.int_truediv (total_digits (cells_of df))
                           (total_chars (cells_of df)) = Ok x
        /\ F64.to_Q x = Some q /\ (0 <= q)%Q /\ (q <= 1)%Q).
Proof.
  destruct (totals_bounds (cells_of df)) as (Hw & Hc & Hd).
  split; [exact Hw|]. split; [exact Hc|]. split; [lia|]. split; [lia|].
  intros Hpos.
  destruct (int_truediv_unit _ _ Hd Hpos) as (x & q & Hx & Hq & Hq0 & Hq1).
  destruct (get_table_features_ok df x Hx) as (r & m & Hr & _ & _ & _ & Hget & _).
  exists r, x, q. split; [exact Hr|].
  rewrite !Hget by reflexivity. rewrite !getitem_setitem.
  repeat split; try reflexivity; assumption.
Qed.

Lemma totals_and_digits_perc_witness :
  0 < total_chars (cells_of example_grid)
  /\ exists (r : OrderedDict.t) (x : F64.float) (q : Q),
      get_table_features example_grid = Ok r
      /\ OrderedDict.getitem r "total_words"
         = Ok (VInt (total_words (cells_of example_grid)))
      /\ OrderedDict.getitem r "total_chars"
         = Ok (VInt (total_chars (cells_of example_grid)))
      /\ OrderedDict.getitem r "total_digits"
         = Ok (VInt (total_digits (cells_of example_grid)))
      /\ OrderedDict.getitem r "digits_perc" = Ok (VFloat x)
      /\ F64.int_truediv (total_digits (cells_of example_grid))
                         (total_chars (cells_of example_grid)) = Ok x
      /\ F64.to_Q x = Some q /\ (0 <= q)%Q /\ (q <= 1)%Q.
Proof.
  split; [reflexivity|].
  apply (proj2 (proj2 (proj2 (proj2 (totals_and_digits_perc example_grid))))).
  reflexivity.
Defined.

(** C2, as the code has it: on a grid without any character the division
    that computes [digits_perc] raises [ZeroDivisionError]; no record is
    returned and the grid is not classified.  In the batch loop the error
    is caught: the fragment is logged and adds nothing to [feature_list]. *)
Theorem no_chars_raises (df : DataFrame) :
  total_chars (cells_of df) = 0 ->
  get_table_features df = Raise ZeroDivisionError
  /\ forall (os_path_join : string -> list string -> string)
            (read_csv : string -> exn + DataFrame)
            (t : fragment) (st : batch),
      read_csv (get_table_file os_path_join pdf_extraction_dir
                  (article t) (page t) (table t)) = inr df ->
      extract_all os_path_join read_csv [t] st
      = Ok {| feature_list := feature_list st;
              log := log st ++ [failure_message t] |}.
Proof.
  intros H. pose proof (get_table_features_zero df H) as Hz.
  split; [exact Hz|].
  intros os_path_join read_csv t st Hread.
  cbn [extract_all]. unfold extract_one. now rewrite Hread, Hz.
Qed.

Lemma no_chars_raises_witness :
  total_chars (cells_of empty_grid) = 0
  /\ get_table_features empty_grid = Raise ZeroDivisionError.
Proof.
  split; [reflexivity|].
  apply (proj1 (no_chars_raises empty_grid eq_refl)).
Defined.

(** C2 as stated fails: on a grid of empty cells the division by zero is
    reached and no record with [is_table = false] comes out. *)
Lemma no_chars_not_classified :
  total_chars (cells_of empty_grid) = 0
  /\ get_table_features empty_grid = Raise ZeroDivisionError
  /\ ~ (exists r, get_table_features empty_grid = Ok r
                  /\ OrderedDict.getitem r "is_table" = Ok (VBool false)).
Proof.
  split; [reflexivity|]. split; [reflexivity|].
  intros (r & Hr & _). discriminate Hr.
Qed.

(** C3, as the code has it: on the example grid there are 8 digits among
    28 characters, [digits_perc] is the float nearest to 8/28, the word
    counts are 1, 1, 2 and 6 (by column) with mean 2.5, and [is_table] is
    true, since 8/28 is above 0.1 and 2.5 below 5. *)
Theorem example_grid_features :
  exists r : OrderedDict.t,
    get_table_features example_grid = Ok r
    /\ OrderedDict.getitem r "total_digits" = Ok (VInt 8)
    /\ OrderedDict.getitem r "total_chars" = Ok (VInt 28)
    /\ F64.int_truediv 8 28 = Ok (S754_finite false 5146971002709138 (-54))
    /\ OrderedDict.getitem r "digits_perc"
       = Ok (VFloat (S754_finite false 5146971002709138 (-54)))
    /\ words_count_by_cell (cells_of example_grid) = [1; 1; 2; 6]
    /\ OrderedDict.getitem r "cell_words_mean"
       = Ok (VFloat (S754_finite false 5629499534213120 (-51)))
    /\ (exists q, F64.to_Q (S754_finite false 5629499534213120 (-51)) = Some q
                  /\ (q == 5 # 2)%Q)
    /\ OrderedDict.getitem r "is_table" = Ok (VBool true).
Proof.
  eexists. split; [vm_compute; reflexivity|].
  repeat (split; [reflexivity|]).
  split; [|reflexivity].
  eexists. split; reflexivity.
Qed.

(** C3 as stated fails: the example grid is classified as a table. *)
Lemma example_grid_is_table :
  exists r : OrderedDict.t,
    get_table_features example_grid = Ok r
    /\ OrderedDict.getitem r "is_table" = Ok (VBool true)
    /\ OrderedDict.getitem r "is_table" <> Ok (VBool false).
Proof.
  eexists. split; [vm_compute; reflexivity|].
  split; [reflexivity | discriminate].
Qed.

(** *** The batch loop *)

Lemma get_table_features_cases (df : DataFrame) :
  (exists r, get_table_features df = Ok r)
  \/ get_table_features df = Raise ZeroDivisionError.
Proof.
  destruct (totals_bounds (cells_of df)) as (_ & Hc & Hd).
  destruct (Z.eq_dec (total_chars (cells_of df)) 0) as [E|NE].
  - right. now apply get_table_features_zero.
  - left. destruct (int_truediv_unit _ _ Hd ltac:(lia)) as (x & q & Hx & _).
    destruct (get_table_features_ok df x Hx) as (r & _ & Hr & _).
    now exists r.
Qed.

Section BatchProperties.

Variable os_path_join : string -> list string -> string.
Variable read_csv : string -> exn + DataFrame.

Lemma extract_one_cases (t : fragment) :
  (exists r, extract_one os_path_join read_csv t = Ok r)
  \/ (exists e, extract_one os_path_join read_csv t = Raise e).
Proof.
  unfold extract_one.
  destruct (read_csv _) as [e|df]; [right; now exists e|].
  destruct (get_table_features_cases df) as [[r Hr]|Hr]; rewrite Hr.
  - left. now exists r.
  - right. now eexists.
Qed.

Lemma extract_all_spec (tables : list fragment) (st : batch) :
  extract_all os_path_join read_csv tables st
  = Ok {| feature_list :=
            feature_list st
            ++ flat_map
                 (fun t => record_of (extract_one os_path_join read_csv t))
                 tables;
          log :=
            log st
            ++ flat_map
                 (fun t => log_of t (extract_one os_path_join read_csv t))
                 tables |}.
Proof.
  revert st. induction tables as [|t tables IH]; intros st.
  - cbn. rewrite !app_nil_r. now destruct st.
  - cbn [extract_all flat_map].
    destruct (extract_one_cases t) as [[r Hr]|[e He]].
    + rewrite Hr, IH. cbn [feature_list log record_of log_of app].
      now rewrite <- app_assoc.
    + rewrite He, IH. cbn [feature_list log record_of log_of app].
      now rewrite <- app_assoc.
Qed.

(** X12: the loop goes through all the fragments and ends.  A fragment
    whose file [read_csv] cannot load, or whose grid makes
    [get_table_features] raise, adds one message with its article, page
    and table to the log and nothing to [feature_list]; a fragment whose
    grid gives a record adds that record and no message; both lists keep
    the order of the input. *)
Theorem loop_isolates_failures (tables : list fragment) :
  exists st : batch,
    run os_path_join read_csv tables = Ok st
    /\ feature_list st
       = flat_map
           (fun t =>
              match read_csv (get_table_file os_path_join pdf_extraction_dir
                                (article t) (page t) (table t)) with
              | inl _ => []
              | inr df =>
                  match get_table_features df with
                  | Ok features => [features]
                  | _ => []
                  end
              end) tables
    /\ log st
       = flat_map
           (fun t =>
              match read_csv (get_table_file os_path_join pdf_extraction_dir
                                (article t) (page t) (table t)) with
              | inr df =>
                  match get_table_features df with
                  | Ok _ => []
                  | _ =>
                      [("Failed to extract features for table "
                          ++ article t ++ " p." ++ str_of_int (page t)
                          ++ " t." ++ str_of_int (table t))%string]
                  end
              | inl _ =>
                  [("Failed to extract features for table "
                      ++ article t ++ " p." ++ str_of_int (page t)
                      ++ " t." ++ str_of_int (table t))%string]
              end) tables
    /\ (List.length (feature_list st) + List.length (log st)
        = List.length tables)%nat.
Proof.
  unfold run. rewrite extract_all_spec. cbn [feature_list log app].
  eexists. split; [reflexivity|]. cbn [feature_list log].
  split; [|split].
  - apply flat_map_ext. intros t. unfold extract_one.
    destruct (read_csv _) as [e|df]; [reflexivity|].
    now destruct (get_table_features df).
  - apply flat_map_ext. intros t. unfold extract_one.
    destruct (read_csv _) as [e|df]; [reflexivity|].
    destruct (get_table_features_cases df) as [[r Hr]|Hr]; now rewrite Hr.
  - induction tables as [|t ts IH]; [reflexivity|].
    cbn [flat_map]. rewrite !length_app. cbn [List.length].
    destruct (extract_one_cases t) as [[r Hr]|[e He]].
    + rewrite Hr. cbn [record_of log_of List.length]. lia.
    + rewrite He. cbn [record_of log_of List.length]. lia.
Qed.

End BatchProperties.

(** *** The digit histogram *)

Lemma filter_map_comm {A B : Type} (f : B -> bool) (g : A -> B) (l : list A) :
  filter f (map g l) = map g (filter (fun a => f (g a)) l).
Proof.
  induction l as [|a l IH]; [reflexivity|].
  cbn [map filter]. destruct (f (g a)); cbn [map]; now rewrite IH.
Qed.

Lemma run_at_from_count (n : nat) (prev : bool) (s : list ascii) :
  List.length (filter (run_at_from n prev s) (seq 0 (List.length s)))
  = run_starts n prev s.
Proof.
  revert prev. induction s as [|c s IH]; intros prev; [reflexivity|].
  cbn [List.length seq filter run_starts].
  rewrite <- seq_shift, filter_map_comm.
  assert (E : filter (fun j => run_at_from n prev (c :: s) (S j))
                     (seq 0 (List.length s))
              = filter (run_at_from n (Py.isdecimal c) s)
                       (seq 0 (List.length s))).
  { apply filter_ext. intros [|j]; reflexivity. }
  rewrite E.
  change (run_at_from n prev (c :: s) 0)
    with (negb prev && digits_then_stop n (c :: s)).
  destruct (negb prev && digits_then_stop n (c :: s));
    cbn [List.length]; rewrite ?length_map, IH; reflexivity.
Qed.

Lemma count_maximal_runs_starts (n : nat) (c : string) :
  (0 < n)%nat ->
  count_maximal_runs n c = run_starts n false (Py.chars c).
Proof.
  intros Hn. unfold count_maximal_runs. rewrite <- run_at_from_count.
  f_equal. apply filter_ext. intros i.
  unfold maximal_run_at, run_at_from.
  apply Nat.ltb_lt in Hn. rewrite Hn. now destruct i.
Qed.

Lemma count_len_cons (n : nat) (d : string) (l : list string) :
  count_len n (d :: l)
  = ((if Nat.eqb (List.length (Py.chars d)) n then 1 else 0)
     + count_len n l)%nat.
Proof.
  unfold count_len. cbn [filter].
  now destruct (Nat.eqb (List.length (Py.chars d)) n).
Qed.

Lemma chars_of_list (l : list ascii) : Py.chars (string_of_list_ascii l) = l.
Proof. apply list_ascii_of_string_of_list_ascii. Qed.

Lemma digits_then_stop_nondigit (n : nat) (c : ascii) (s : list ascii) :
  Py.isdecimal c = false ->
  digits_then_stop n (c :: s) = Nat.eqb n 0.
Proof. intros H. destruct n; cbn; now rewrite H. Qed.

Lemma digits_then_stop_digit (n : nat) (c : ascii) (s : list ascii) :
  Py.isdecimal c = true ->
  digits_then_stop n (c :: s)
  = negb (Nat.eqb n 0) && digits_then_stop (n - 1) s.
Proof.
  intros H. destruct n; cbn [digits_then_stop]; rewrite H; [reflexivity|].
  cbn. now rewrite Nat.sub_0_r.
Qed.

Lemma digit_runs_from_count (n : nat) (s cur : list ascii) :
  (0 < n)%nat ->
  count_len n (Re.digit_runs_from cur s)
  = match cur with
    | [] => run_starts n false s
    | _ :: _ =>
        ((if (List.length cur <=? n)%nat
               && digits_then_stop (n - List.length cur) s
          then 1 else 0)
         + run_starts n true s)%nat
    end.
Proof.
  intros Hn. revert cur. induction s as [|c s IH]; intros cur.
  - destruct cur as [|c0 cur]; [reflexivity|].
    cbn [Re.digit_runs_from run_starts].
    rewrite count_len_cons, chars_of_list, length_rev.
    change (count_len n []) with 0%nat.
    destruct (Nat.eqb_spec (List.length (c0 :: cur)) n) as [E|NE].
    + rewrite E, Nat.leb_refl, Nat.sub_diag. reflexivity.
    + destruct (Nat.leb_spec (List.length (c0 :: cur)) n) as [Hle|Hgt].
      * destruct (n - List.length (c0 :: cur))%nat eqn:E; [lia|reflexivity].
      * reflexivity.
  - cbn [Re.digit_runs_from run_starts].
    destruct (Py.isdecimal c) eqn:Hc.
    + rewrite IH. cbn [negb andb List.length].
      destruct cur as [|c0 cur].
      * cbn [List.length negb andb].
        rewrite (digits_then_stop_digit n c s Hc).
        destruct (Nat.eqb_spec n 0) as [|_]; [lia|].
        destruct (Nat.leb_spec 1 n); [|lia]. reflexivity.
      * rewrite (digits_then_stop_digit _ c s Hc).
        cbn [List.length].
        destruct (Nat.leb_spec (S (S (List.length cur))) n) as [Hle|Hgt].
        -- destruct (Nat.leb_spec (S (List.length cur)) n); [|lia].
           destruct (Nat.eqb_spec (n - S (List.length cur)) 0); [lia|].
           cbn [negb andb].
           replace (n - S (List.length cur) - 1)%nat
             with (n - S (S (List.length cur)))%nat by lia.
           reflexivity.
        -- cbn [andb].
           destruct (Nat.leb_spec (S (List.length cur)) n) as [Hle|Hgt'];
             [|reflexivity].
           destruct (Nat.eqb_spec (n - S (List.length cur)) 0); [|lia].
           reflexivity.
    + rewrite (digits_then_stop_nondigit n c s Hc).
      destruct (Nat.eqb_spec n 0) as [|_]; [lia|].
      destruct cur as [|c0 cur].
      * change (count_len n (Re.digit_runs_from [] s)
                = (0 + run_starts n false s)%nat).
        now rewrite (IH []).
      * change (count_len n (string_of_list_ascii (rev (c0 :: cur))
                               :: Re.digit_runs_from [] s)
                = ((if (List.length (c0 :: cur) <=? n)%nat
                         && digits_then_stop (n - List.length (c0 :: cur))
                              (c :: s)
                    then 1 else 0)
                   + (0 + run_starts n false s))%nat).
        rewrite count_len_cons, chars_of_list, length_rev, (IH []).
        rewrite (digits_then_stop_nondigit _ c s Hc).
        cbn [negb andb Nat.add].
        destruct (Nat.eqb_spec (List.length (c0 :: cur)) n) as [E|NE].
        -- rewrite E, Nat.leb_refl, Nat.sub_diag. reflexivity.
        -- destruct (Nat.leb_spec (List.length (c0 :: cur)) n) as [Hle|Hgt];
             [|reflexivity].
           destruct (Nat.eqb_spec (n - List.length (c0 :: cur)) 0); [lia|].
           reflexivity.
Qed.

Lemma findall_digits_count (n : nat) (c : string) :
  (0 < n)%nat ->
  count_len n (Re.findall_digits c) = count_maximal_runs n c.
Proof.
  intros Hn. unfold Re.findall_digits.
  rewrite (digit_runs_from_count n _ [] Hn).
  symmetry. now apply count_maximal_runs_starts.
Qed.

Lemma Counter_get_incr (d : Counter.t) (x k : Z) :
  Counter.get (Counter.incr d x) k 0
  = Counter.get d k 0 + (if x =? k then 1 else 0).
Proof.
  induction d as [|[k0 n0] d IH]; cbn [Counter.incr Counter.get].
  - destruct (x =? k); lia.
  - destruct (Z.eqb_spec k0 x) as [->|Hx]; cbn [Counter.get].
    + destruct (x =? k); lia.
    + rewrite IH. destruct (Z.eqb_spec k0 k) as [->|]; [|reflexivity].
      destruct (Z.eqb_spec x k); [congruence|lia].
Qed.

Lemma Counter_get_of_list (l : list Z) (k : Z) :
  Counter.get (Counter.of_list l) k 0
  = Z.of_nat (List.length (filter (fun x => x =? k) l)).
Proof.
  unfold Counter.of_list.
  assert (H : forall d,
             Counter.get (fold_left Counter.incr l d) k 0
             = Counter.get d k 0
               + Z.of_nat (List.length (filter (fun x => x =? k) l))).
  { induction l as [|x l IH]; intros d; cbn [fold_left filter].
    - cbn. lia.
    - rewrite IH, Counter_get_incr.
      destruct (x =? k); cbn [List.length]; lia. }
  rewrite H. reflexivity.
Qed.

Lemma count_len_flat_map (n : nat) (cells : list string) :
  count_len n (flat_map Re.findall_digits cells)
  = list_sum (map (fun c => count_len n (Re.findall_digits c)) cells).
Proof.
  unfold count_len. induction cells as [|c cells IH]; [reflexivity|].
  cbn [flat_map map list_sum]. now rewrite filter_app, length_app, IH.
Qed.

Lemma digit_count_runs (n : nat) (cells : list string) :
  (0 < n)%nat ->
  Counter.get (digit_word_len_count cells) (Z.of_nat n) 0
  = runs_of_length n cells.
Proof.
  intros Hn. unfold digit_word_len_count, runs_of_length.
  rewrite Counter_get_of_list, filter_map_comm, length_map. f_equal.
  transitivity (count_len n (flat_map Re.findall_digits cells)).
  - unfold count_len. f_equal. apply filter_ext. intros d.
    unfold Py.len.
    destruct (Nat.eqb_spec (List.length (Py.chars d)) n) as [->|NE].
    + apply Z.eqb_refl.
    + apply Z.eqb_neq. lia.
  - rewrite count_len_flat_map. f_equal. apply map_ext.
    intros c. now apply findall_digits_count.
Qed.

(** C6: for each length from 2 to 5 the record holds, under the name of
    that length, the number of maximal runs of digits of that length in
    the cells (0 when there is none); on the documented cells the counts
    are 1, 0, 0 and 1. *)
Theorem digit_histogram (cells : list string) (features : OrderedDict.t) :
  Forall (fun n =>
            OrderedDict.getitem (digit_features cells features)
              (digit_feature_name n)
            = Ok (VInt (runs_of_length n cells)))
         [2; 3; 4; 5]%nat
  /\ digit_features ["12"; "12345"; "7"] []
     = [ ("digit_of_len_2", VInt 1); ("digit_of_len_3", VInt 0);
         ("digit_of_len_4", VInt 0); ("digit_of_len_5", VInt 1) ]
  /\ map (fun n => runs_of_length n ["12"; "12345"; "7"]) [1; 2; 3; 4; 5; 6]%nat
     = [1; 1; 0; 0; 1; 0]
  /\ forall df : DataFrame,
      match get_table_features df with
      | Ok r =>
          Forall (fun n =>
                    OrderedDict.getitem r (digit_feature_name n)
                    = Ok (VInt (runs_of_length n (cells_of df))))
                 [2; 3; 4; 5]%nat
      | _ => True
      end.
Proof.
  split; [|split; [reflexivity|split; [reflexivity|]]].
  - apply Forall_forall. intros n Hn.
    rewrite digit_features_get by exact Hn.
    rewrite digit_count_runs; [reflexivity|].
    cbn [In] in Hn. lia.
  - intros df.
    destruct (totals_bounds (cells_of df)) as (_ & Hc & Hd).
    destruct (Z.eq_dec (total_chars (cells_of df)) 0) as [E|NE].
    + now rewrite (get_table_features_zero df E).
    + destruct (int_truediv_unit _ _ Hd ltac:(lia)) as (x & q & Hx & _).
      destruct (get_table_features_ok df x Hx)
        as (r & m & Hr & _ & _ & _ & _ & _ & Hdg).
      rewrite Hr. apply Forall_forall. intros n Hn.
      rewrite (Hdg n Hn), digit_count_runs; [reflexivity|].
      cbn [In] in Hn. lia.
Qed.

(** *** The statistics of the word counts *)

Lemma minimum_le (l : list Z) (x : Z) :
  Pandas.minimum x l <= x /\ Forall (fun y => Pandas.minimum x l <= y) l.
Proof.
  unfold Pandas.minimum. revert x.
  induction l as [|y l IH]; intros x; cbn [fold_left].
  - split; [lia | constructor].
  - destruct (IH (Z.min x y)) as [H1 H2]. split; [lia|].
    constructor; [lia | exact H2].
Qed.

Lemma maximum_ge (l : list Z) (x : Z) :
  x <= Pandas.maximum x l /\ Forall (fun y => y <= Pandas.maximum x l) l.
Proof.
  unfold Pandas.maximum. revert x.
  induction l as [|y l IH]; intros x; cbn [fold_left].
  - split; [lia | constructor].
  - destruct (IH (Z.max x y)) as [H1 H2]. split; [lia|].
    constructor; [lia | exact H2].
Qed.

Lemma sum_lower (m : Z) (l : list Z) :
  Forall (fun y => m <= y) l -> m * Py.len l <= Pandas.sum l.
Proof.
  unfold Py.len. induction 1 as [|y l Hy _ IH].
  - cbn. lia.
  - rewrite sum_cons. cbn [List.length]. lia.
Qed.

Lemma sum_upper (m : Z) (l : list Z) :
  Forall (fun y => y <= m) l -> Pandas.sum l <= m * Py.len l.
Proof.
  unfold Py.len. induction 1 as [|y l Hy _ IH].
  - cbn. lia.
  - rewrite sum_cons. cbn [List.length]. lia.
Qed.

Lemma total_words_sum (cells : list string) :
  total_words cells = Pandas.sum (words_count_by_cell cells).
Proof.
  unfold total_words, words_count_by_cell.
  now rewrite sum_ones_len, sum_map_len_flat_map.
Qed.

Lemma returned_structural (df : DataFrame) (r : OrderedDict.t) (k : string) :
  get_table_features df = Ok r ->
  existsb (String.eqb k) ("digits_perc" :: other_names) = false ->
  OrderedDict.getitem r k
  = OrderedDict.getitem (structural_features df (cells_of df)) k.
Proof.
  intros Hr Hk. cbn [existsb] in Hk. apply orb_false_iff in Hk.
  destruct Hk as [Hk1 Hk2].
  destruct (totals_bounds (cells_of df)) as (_ & Hc & Hd).
  destruct (Z.eq_dec (total_chars (cells_of df)) 0) as [E|NE].
  - rewrite (get_table_features_zero df E) in Hr. discriminate Hr.
  - destruct (int_truediv_unit _ _ Hd ltac:(lia)) as (x & q & Hx & _).
    destruct (get_table_features_ok df x Hx)
      as (r' & m & Hr' & _ & _ & _ & Hget & _).
    rewrite Hr in Hr'. injection Hr' as <-.
    rewrite (Hget k Hk2), getitem_setitem.
    rewrite String.eqb_sym in Hk1. now rewrite Hk1.
Qed.

(** C10: on a grid with a cell the minimum, the mean and the maximum of
    the word counts are in this order, and [total_words] is the sum of the
    counts; a record that is returned holds these values.  The sum and the
    number of cells are taken below [2^53], where the float64 accumulation
    of the mean is exact. *)
Theorem cell_words_ordered (df : DataFrame) :
  cells_of df <> [] ->
  Py.len (cells_of df) < 2 ^ 53 ->
  total_words (cells_of df) < 2 ^ 53 ->
  exists (lo hi : Z) (m : F64.float) (q : Q),
    Pandas.Series_min (words_count_by_cell (cells_of df)) = VInt lo
    /\ Pandas.Series_mean (words_count_by_cell (cells_of df)) = VFloat m
    /\ Pandas.Series_max (words_count_by_cell (cells_of df)) = VInt hi
    /\ F64.to_Q m = Some q
    /\ (inject_Z lo <= q)%Q /\ (q <= inject_Z hi)%Q
    /\ total_words (cells_of df)
       = Pandas.sum (words_count_by_cell (cells_of df))
    /\ match get_table_features df with
       | Ok r =>
           OrderedDict.getitem r "cell_words_min" = Ok (VInt lo)
           /\ OrderedDict.getitem r "cell_words_mean" = Ok (VFloat m)
           /\ OrderedDict.getitem r "cell_words_max" = Ok (VInt hi)
           /\ OrderedDict.getitem r "total_words"
              = Ok (VInt (total_words (cells_of df)))
       | _ => True
       end.
Proof.
  intros Hne Hn Hw.
  assert (Hrec :
            forall lo hi m,
              Pandas.Series_min (words_count_by_cell (cells_of df)) = VInt lo ->
              Pandas.Series_mean (words_count_by_cell (cells_of df)) = VFloat m ->
              Pandas.Series_max (words_count_by_cell (cells_of df)) = VInt hi ->
              match get_table_features df with
              | Ok r =>
                  OrderedDict.getitem r "cell_words_min" = Ok (VInt lo)
                  /\ OrderedDict.getitem r "cell_words_mean" = Ok (VFloat m)
                  /\ OrderedDict.getitem r "cell_words_max" = Ok (VInt hi)
                  /\ OrderedDict.getitem r "total_words"
                     = Ok (VInt (total_words (cells_of df)))
              | _ => True
              end).
  { intros lo hi m Hlo Hm Hhi.
    destruct (get_table_features df) as [r| |] eqn:Hr; try exact I.
    rewrite !(returned_structural df r _ Hr) by reflexivity.
    cbn [structural_features OrderedDict.getitem String.eqb Ascii.eqb Bool.eqb].
    now rewrite Hlo, Hm, Hhi. }
  rewrite total_words_sum in Hw.
  unfold Py.len in Hn.
  assert (Hlen : Py.len (words_count_by_cell (cells_of df))
                 = Z.of_nat (List.length (cells_of df))).
  { unfold Py.len, words_count_by_cell. now rewrite length_map. }
  pose proof (total_words_sum (cells_of df)) as Htw.
  destruct (words_count_by_cell (cells_of df)) as [|x l] eqn:E.
  { destruct (cells_of df); [contradiction | discriminate E]. }
  cbn [Pandas.Series_min Pandas.Series_mean Pandas.Series_max] in *.
  destruct (minimum_le l x) as [Hlo1 Hlo2].
  destruct (maximum_ge l x) as [Hhi1 Hhi2].
  assert (Hlo : Pandas.minimum x l * Py.len (x :: l) <= Pandas.sum (x :: l)).
  { apply sum_lower. now constructor. }
  assert (Hhi : Pandas.sum (x :: l) <= Pandas.maximum x l * Py.len (x :: l)).
  { apply sum_upper. now constructor. }
  assert (Hpos : 0 < Py.len (x :: l)) by (unfold Py.len; cbn [List.length]; lia).
  assert (H0 : 0 <= Pandas.sum (x :: l)).
  { rewrite <- Htw. apply totals_bounds. }
  exists (Pandas.minimum x l), (Pandas.maximum x l).
  specialize (Hrec (Pandas.minimum x l) (Pandas.maximum x l)).
  destruct (Py.len (x :: l)) as [|b|b] eqn:Eb; try lia.
  destruct (Pandas.sum (x :: l)) as [|a|a] eqn:Ea; try lia.
  - exists (S754_zero false), (0 # 1)%Q.
    split; [reflexivity|]. split; [reflexivity|]. split; [reflexivity|].
    split; [reflexivity|].
    split; [unfold Qle; cbn [Qnum Qden inject_Z]; nia|].
    split; [unfold Qle; cbn [Qnum Qden inject_Z]; nia|].
    split; [exact Htw|]. now apply Hrec.
  - destruct (div_exact_bracket a b) as (q & Hq & Hk); [lia|].
    exists (F64.div (F64.exact (Z.pos a)) (F64.exact (Z.pos b))), q.
    split; [reflexivity|]. split; [reflexivity|]. split; [reflexivity|].
    split; [exact Hq|]. split; [|split; [|split]].
    + apply (proj1 (Hk _)). exact Hlo.
    + apply (proj2 (Hk _)). exact Hhi.
    + exact Htw.
    + now apply Hrec.
Qed.

Lemma cell_words_ordered_witness :
  cells_of example_grid <> []
  /\ Py.len (cells_of example_grid) < 2 ^ 53
  /\ total_words (cells_of example_grid) < 2 ^ 53
  /\ exists (lo hi : Z) (m : F64.float) (q : Q),
      Pandas.Series_min (words_count_by_cell (cells_of example_grid)) = VInt lo
      /\ Pandas.Series_mean (words_count_by_cell (cells_of example_grid))
         = VFloat m
      /\ Pandas.Series_max (words_count_by_cell (cells_of example_grid))
         = VInt hi
      /\ F64.to_Q m = Some q
      /\ (inject_Z lo <= q)%Q /\ (q <= inject_Z hi)%Q.
Proof.
  split; [discriminate|]. split; [reflexivity|]. split; [reflexivity|].
  destruct (cell_words_ordered example_grid)
    as (lo & hi & m & q & H1 & H2 & H3 & H4 & H5 & H6 & _);
    [discriminate | reflexivity | reflexivity |].
  exists lo, hi, m, q. repeat split; assumption.
Defined.

(** ** Further properties *)

(** *** Words, blanks and empty cells *)

Lemma lstrip_nil (s : list ascii) :
  Py.lstrip_chars s = [] <-> forallb Py.isspace s = true.
Proof.
  induction s as [|c s IH]; cbn [Py.lstrip_chars forallb]; [tauto|].
  destruct (Py.isspace c); cbn [andb]; [exact IH|].
  split; discriminate.
Qed.

Lemma lstrip_head (s : list ascii) :
  match Py.lstrip_chars s with
  | [] => True
  | c :: _ => Py.isspace c = false
  end.
Proof.
  induction s as [|c s IH]; cbn [Py.lstrip_chars]; [exact I|].
  destruct (Py.isspace c) eqn:E; [exact IH | exact E].
Qed.

Lemma forallb_rev {A : Type} (f : A -> bool) (l : list A) :
  forallb f (rev l) = forallb f l.
Proof.
  induction l as [|a l IH]; [reflexivity|].
  cbn [rev forallb]. rewrite forallb_app, IH. cbn [forallb].
  destruct (f a), (forallb f l); reflexivity.
Qed.

Lemma string_of_list_nil (l : list ascii) :
  string_of_list_ascii l = EmptyString <-> l = [].
Proof.
  destruct l; cbn; split; intros H; try reflexivity; discriminate H.
Qed.

Lemma strip_empty (c : string) :
  String.eqb (Py.strip c) EmptyString = forallb Py.isspace (Py.chars c).
Proof.
  unfold Py.strip. set (s := Py.chars c).
  destruct (forallb Py.isspace s) eqn:E.
  - apply lstrip_nil in E. rewrite E. reflexivity.
  - apply String.eqb_neq. intros H. apply string_of_list_nil in H.
    assert (H' : Py.lstrip_chars (rev (Py.lstrip_chars s)) = []).
    { rewrite <- (rev_involutive (Py.lstrip_chars _)), H. reflexivity. }
    apply lstrip_nil in H'. rewrite forallb_rev in H'.
    pose proof (lstrip_head s) as Hh.
    destruct (Py.lstrip_chars s) as [|x t] eqn:El.
    + apply lstrip_nil in El. congruence.
    + cbn [forallb] in H'. rewrite Hh in H'. discriminate H'.
Qed.

Lemma split_from_nil (cur s : list ascii) :
  Py.split_from cur s = [] <-> cur = [] /\ forallb Py.isspace s = true.
Proof.
  revert cur. induction s as [|c s IH]; intros cur; cbn [Py.split_from forallb].
  - destruct cur; split; try tauto; try discriminate.
    intros [H _]; discriminate H.
  - destruct (Py.isspace c); cbn [andb].
    + destruct cur as [|x cur]; [apply IH|].
      split; [discriminate | intros [H _]; discriminate H].
    + rewrite IH. split; [intros [H _]; discriminate H | intros [_ H]; discriminate H].
Qed.

Lemma split_empty (c : string) :
  (Py.len (Py.split c) =? 0) = forallb Py.isspace (Py.chars c).
Proof.
  unfold Py.split, Py.len.
  destruct (forallb Py.isspace (Py.chars c)) eqn:E.
  - assert (H : Py.split_from [] (Py.chars c) = [])
      by (apply split_from_nil; now split).
    now rewrite H.
  - destruct (Py.split_from [] (Py.chars c)) eqn:H.
    + apply split_from_nil in H. destruct H as [_ H]. congruence.
    + cbn [List.length]. apply Z.eqb_neq. lia.
Qed.

Lemma split_from_length (cur s : list ascii) :
  (List.length (Py.split_from cur s)
   <= List.length s + match cur with [] => 0 | _ => 1 end)%nat.
Proof.
  revert cur. induction s as [|c s IH]; intros cur; cbn [Py.split_from].
  - destruct cur; cbn; lia.
  - destruct (Py.isspace c).
    + destruct cur; cbn [List.length]; specialize (IH []); cbn in IH; lia.
    + specialize (IH (c :: cur)). cbn [List.length] in *. lia.
Qed.




(** X2: there are no more words than characters, and [total_words] is 0
    exactly when every cell is empty or blank, that is when [empty_cells]
    is the number of cells. *)
Theorem words_and_chars (cells : list string) :
  total_words cells <= total_chars cells
  /\ (total_words cells = 0 <-> empty_cells cells = Py.len cells).
Proof.
  unfold total_words, total_chars, empty_cells. rewrite !sum_ones_len.
  unfold Py.len. induction cells as [|c cells [IH1 IH2]].
  - cbn. split; [lia | tauto].
  - cbn [flat_map filter]. rewrite !length_app.
    pose proof (split_from_length [] (Py.chars c)) as Hs.
    fold (Py.split c) in Hs. cbn iota in Hs.
    pose proof (filter_length_le
                  (fun c => String.eqb (Py.strip c) EmptyString) cells) as Hf.
    rewrite strip_empty. pose proof (split_empty c) as Hc.
    unfold Py.len in Hc.
    destruct (forallb Py.isspace (Py.chars c)); cbn [List.length].
    + apply Z.eqb_eq in Hc. split; [lia|]. intuition lia.
    + apply Z.eqb_neq in Hc. split; [lia|]. intuition lia.
Qed.

(** *** The record and the functions that fill it *)

Lemma get_table_features_shape (df : DataFrame) (x : F64.float) :
  F64.int_truediv (total_digits (cells_of df)) (total_chars (cells_of df))
  = Ok x ->
  exists (fw : OrderedDict.t) (b : bool),
    word_features words (cells_of df)
      (OrderedDict.setitem (structural_features df (cells_of df))
         "digits_perc" (VFloat x)) = Ok fw
    /\ predict_is_table (digit_features (cells_of df) fw) = Ok (VBool b)
    /\ get_table_features df
       = Ok (("is_table", VBool b)
               :: OrderedDict.remove
                    (OrderedDict.setitem (digit_features (cells_of df) fw)
                       "is_table" (VBool b))
                    "is_table").
Proof.
  intros Hx. unfold get_table_features. rewrite Hx. cbn [bind].
  set (cells := cells_of df).
  set (f1 := OrderedDict.setitem (structural_features df cells)
               "digits_perc" (VFloat x)).
  destruct (word_features_ok words cells f1 words_compile)
    as (fw & Hfw & _ & Hget & _).
  rewrite Hfw. cbn [bind].
  destruct (Series_mean_float (words_count_by_cell cells)) as [m Hm].
  assert (Hd : OrderedDict.getitem (digit_features cells fw) "digits_perc"
               = Ok (VFloat x)).
  { rewrite digit_features_other, Hget by reflexivity.
    unfold f1. now rewrite getitem_setitem. }
  assert (Hmean : OrderedDict.getitem (digit_features cells fw)
                    "cell_words_mean" = Ok (VFloat m)).
  { rewrite digit_features_other, Hget by reflexivity.
    unfold f1. rewrite getitem_setitem. cbn. now rewrite Hm. }
  rewrite (predict_is_table_floats _ x m Hd Hmean). cbn [bind].
  unfold OrderedDict.move_to_front.
  rewrite getitem_setitem, String.eqb_refl. cbn [bind].
  exists fw, (F64.ltb F64.lit_0_1 x && F64.ltb m F64.lit_5).
  split; [reflexivity|].
  split; [exact (predict_is_table_floats _ x m Hd Hmean) | reflexivity].
Qed.

Lemma getitem_returned (f3 : OrderedDict.t) (v : pyval) (k : string) :
  String.eqb "is_table" k = false ->
  OrderedDict.getitem
    (("is_table", v)
       :: OrderedDict.remove (OrderedDict.setitem f3 "is_table" v) "is_table") k
  = OrderedDict.getitem f3 k.
Proof.
  intros Hk. cbn [OrderedDict.getitem]. rewrite Hk.
  now rewrite getitem_remove, getitem_setitem, Hk by exact Hk.
Qed.

Lemma word_features_values (ws : list (string * bool * bool))
      (cells : list string) (features fw : OrderedDict.t) :
  NoDup (map word_entry_name ws) ->
  word_features ws cells features = Ok fw ->
  Forall (fun w =>
            exists b,
              is_word_in (fst (fst w)) cells (snd (fst w)) (snd w) = Ok b
              /\ OrderedDict.getitem fw (word_entry_name w) = Ok (VBool b))
         ws.
Proof.
  revert features.
  induction ws as [|[[word cs] me] ws IH]; intros features Hnd Hfw;
    [constructor|].
  cbn [map] in Hnd. inversion Hnd as [|? ? Hnotin Hnd']; subst.
  cbn [word_features] in Hfw.
  destruct (is_word_in word cells cs me) as [b| |] eqn:Hb;
    cbn [bind] in Hfw; try discriminate Hfw.
  constructor; [|now apply (IH _ Hnd' Hfw)].
  exists b. cbn [fst snd]. split; [exact Hb|].
  assert (Hall : Forall compiles ws).
  { clear -Hfw. revert Hfw. generalize
      (OrderedDict.setitem features (word_feature_name word cs me) (VBool b)).
    induction ws as [|[[w c] m] ws IH]; intros f Hf; [constructor|].
    cbn [word_features] in Hf. unfold is_word_in in Hf.
    destruct (Re.compile (word_pattern w m) (negb c)) as [p| |] eqn:Hp;
      cbn [bind] in Hf; try discriminate Hf.
    constructor; [now exists p | now apply (IH _ Hf)]. }
  destruct (word_features_ok ws cells
              (OrderedDict.setitem features (word_feature_name word cs me)
                 (VBool b)) Hall)
    as (f' & Hf' & _ & Hget & _).
  rewrite Hf' in Hfw. injection Hfw as <-.
  change (word_entry_name (word, cs, me))
    with (word_feature_name word cs me) in *.
  rewrite Hget.
  - now rewrite getitem_setitem, String.eqb_refl.
  - destruct (existsb (String.eqb (word_feature_name word cs me))
                (map word_entry_name ws)) eqn:E; [|reflexivity].
    exfalso. apply Hnotin. apply existsb_exists in E.
    destruct E as (k & Hk & E). apply String.eqb_eq in E. now rewrite E.
Qed.

Lemma word_names_NoDup : NoDup (map word_entry_name words).
Proof.
  apply (NoDup_count_occ' string_dec). intros k Hk.
  repeat (destruct Hk as [<-|Hk]; [vm_compute; reflexivity|]). destruct Hk.
Qed.

(** X3: on a grid with a character a record is returned in which the
    field of each word of the catalog holds the result of [is_word_in] for
    that word on the cells of the grid, and in which [is_table] is what
    [predict_is_table] gives on the record itself. *)
Theorem record_words_and_label (df : DataFrame) :
  0 < total_chars (cells_of df) ->
  exists r : OrderedDict.t,
    get_table_features df = Ok r
    /\ Forall (fun w =>
                 exists b,
                   is_word_in (fst (fst w)) (cells_of df) (snd (fst w)) (snd w)
                   = Ok b
                   /\ OrderedDict.getitem r
                        (word_feature_name (fst (fst w)) (snd (fst w)) (snd w))
                      = Ok (VBool b))
              words
    /\ predict_is_table r = OrderedDict.getitem r "is_table".
Proof.
  intros Hpos.
  destruct (totals_bounds (cells_of df)) as (_ & _ & Hd).
  destruct (int_truediv_unit _ _ Hd Hpos) as (x & q & Hx & _).
  destruct (get_table_features_shape df x Hx) as (fw & b & Hfw & Hp & Hr).
  eexists. split; [exact Hr|]. split.
  - pose proof (word_features_values _ _ _ _ word_names_NoDup Hfw) as Hall.
    rewrite Forall_forall in *. intros [[word cs] me] Hw.
    destruct (Hall _ Hw) as (bw & Hb & Hg). exists bw. split; [exact Hb|].
    cbn [fst snd]. cbn [word_entry_name] in Hg.
    rewrite getitem_returned.
    + rewrite digit_features_other; [exact Hg|].
      clear -Hw. revert Hw. unfold words.
      intros H;
        repeat (destruct H as [H|H]; [injection H as <- <- <-; reflexivity|]);
        destruct H.
    + clear -Hw. revert Hw. unfold words.
      intros H;
        repeat (destruct H as [H|H]; [injection H as <- <- <-; reflexivity|]);
        destruct H.
  - cbn [OrderedDict.getitem String.eqb Ascii.eqb Bool.eqb].
    rewrite <- Hp. unfold predict_is_table.
    rewrite !getitem_returned by reflexivity. reflexivity.
Qed.

Lemma record_words_and_label_witness :
  0 < total_chars (cells_of example_grid)
  /\ exists r : OrderedDict.t,
      get_table_features example_grid = Ok r
      /\ predict_is_table r = OrderedDict.getitem r "is_table".
Proof.
  split; [reflexivity|].
  destruct (record_words_and_label example_grid eq_refl) as (r & Hr & _ & Hp).
  exists r. split; [exact Hr | exact Hp].
Defined.

(** *** The rule on records that lack a field, and on grids without digits *)

Lemma getitem_missing (d : OrderedDict.t) (k : string) :
  ~ In k (OrderedDict.keys d) <-> OrderedDict.getitem d k = Raise (KeyError k).
Proof.
  unfold OrderedDict.keys.
  induction d as [|[k' v] d IH]; cbn [map fst In OrderedDict.getitem].
  - split; [reflexivity | tauto].
  - destruct (String.eqb_spec k' k) as [->|Hne].
    + split; [intros H; exfalso; apply H; now left | discriminate].
    + rewrite <- IH. tauto.
Qed.

(** X4: [predict_is_table] reads [cell_words_mean] only when [digits_perc]
    is above 0.1.  A record without [digits_perc] raises [KeyError]; a
    record whose [digits_perc] is not above 0.1 gives false even without
    [cell_words_mean]; a record whose [digits_perc] is above 0.1 and that
    has no [cell_words_mean] raises [KeyError]. *)
Theorem predict_is_table_missing_field (s : OrderedDict.t) :
  (~ In "digits_perc" (OrderedDict.keys s) ->
   predict_is_table s = Raise (KeyError "digits_perc"))
  /\ (forall d : F64.float,
         OrderedDict.getitem s "digits_perc" = Ok (VFloat d) ->
         ~ In "cell_words_mean" (OrderedDict.keys s) ->
         predict_is_table s
         = if F64.ltb F64.lit_0_1 d
           then Raise (KeyError "cell_words_mean")
           else Ok (VBool false)).
Proof.
  split.
  - intros H. apply getitem_missing in H. unfold predict_is_table.
    now rewrite H.
  - intros d Hd H. apply getitem_missing in H. unfold predict_is_table.
    rewrite Hd. cbn [bind py_gt_float].
    destruct (F64.ltb F64.lit_0_1 d); [now rewrite H | reflexivity].
Qed.

Lemma predict_is_table_missing_field_witness :
  ~ In "digits_perc" (OrderedDict.keys [("rows", VInt 1)])
  /\ predict_is_table [("rows", VInt 1)] = Raise (KeyError "digits_perc")
  /\ OrderedDict.getitem [("digits_perc", VFloat (S754_zero false))]
       "digits_perc" = Ok (VFloat (S754_zero false))
  /\ ~ In "cell_words_mean"
        (OrderedDict.keys [("digits_perc", VFloat (S754_zero false))])
  /\ predict_is_table [("digits_perc", VFloat (S754_zero false))]
     = Ok (VBool false).
Proof.
  assert (H1 : ~ In "digits_perc" (OrderedDict.keys [("rows", VInt 1)])).
  { cbn. intros [H|[]]. discriminate H. }
  assert (H2 : ~ In "cell_words_mean"
                 (OrderedDict.keys [("digits_perc", VFloat (S754_zero false))])).
  { cbn. intros [H|[]]. discriminate H. }
  split; [exact H1|].
  split; [exact (proj1 (predict_is_table_missing_field _) H1)|].
  split; [reflexivity|]. split; [exact H2|].
  exact (proj2 (predict_is_table_missing_field
                  [("digits_perc", VFloat (S754_zero false))])
           (S754_zero false) eq_refl H2).
Defined.

(** X5: a grid that has characters but no digit is never labelled as a
    table: its [digits_perc] is 0.0 and its [is_table] is false. *)
Theorem no_digit_no_table (df : DataFrame) :
  0 < total_chars (cells_of df) ->
  total_digits (cells_of df) = 0 ->
  exists r : OrderedDict.t,
    get_table_features df = Ok r
    /\ OrderedDict.getitem r "digits_perc" = Ok (VFloat (S754_zero false))
    /\ OrderedDict.getitem r "is_table" = Ok (VBool false).
Proof.
  intros Hpos Hd.
  assert (Hx : F64.int_truediv (total_digits (cells_of df))
                 (total_chars (cells_of df)) = Ok (S754_zero false)).
  { rewrite Hd. unfold F64.int_truediv.
    destruct (Z.eqb_spec (total_chars (cells_of df)) 0) as [|_]; [lia|].
    destruct (total_chars (cells_of df)); try lia. reflexivity. }
  destruct (get_table_features_ok df _ Hx)
    as (r & m & Hr & _ & _ & Hit & Hget & _).
  exists r. split; [exact Hr|]. split.
  - rewrite Hget by reflexivity. now rewrite getitem_setitem.
  - exact Hit.
Qed.

Lemma no_digit_no_table_witness :
  0 < total_chars (cells_of {| width := 1; rows := [["site"]] |})
  /\ total_digits (cells_of {| width := 1; rows := [["site"]] |}) = 0
  /\ exists r : OrderedDict.t,
      get_table_features {| width := 1; rows := [["site"]] |} = Ok r
      /\ OrderedDict.getitem r "digits_perc" = Ok (VFloat (S754_zero false))
      /\ OrderedDict.getitem r "is_table" = Ok (VBool false).
Proof.
  split; [reflexivity|]. split; [reflexivity|].
  apply (no_digit_no_table {| width := 1; rows := [["site"]] |});
    reflexivity.
Defined.

(** *** The order of the cells *)

Lemma minimum_In (l : list Z) (x : Z) : In (Pandas.minimum x l) (x :: l).
Proof.
  unfold Pandas.minimum. revert x.
  induction l as [|y l IH]; intros x; cbn [fold_left]; [now left|].
  destruct (IH (Z.min x y)) as [H|H].
  - rewrite <- H. destruct (Z.min_spec x y) as [[_ ->]|[_ ->]].
    + now left.
    + right. now left.
  - right. now right.
Qed.

Lemma maximum_In (l : list Z) (x : Z) : In (Pandas.maximum x l) (x :: l).
Proof.
  unfold Pandas.maximum. revert x.
  induction l as [|y l IH]; intros x; cbn [fold_left]; [now left|].
  destruct (IH (Z.max x y)) as [H|H].
  - rewrite <- H. destruct (Z.max_spec x y) as [[_ ->]|[_ ->]].
    + right. now left.
    + now left.
  - right. now right.
Qed.

Lemma Series_min_Permutation (l l' : list Z) :
  Permutation l l' -> Pandas.Series_min l = Pandas.Series_min l'.
Proof.
  intros HP. destruct l as [|x l], l' as [|x' l'].
  - reflexivity.
  - apply Permutation_nil in HP. discriminate HP.
  - apply Permutation_sym, Permutation_nil in HP. discriminate HP.
  - cbn [Pandas.Series_min]. f_equal.
    destruct (minimum_le l x) as [H1 H2], (minimum_le l' x') as [H1' H2'].
    pose proof (minimum_In l x) as Hin. pose proof (minimum_In l' x') as Hin'.
    apply (Permutation_in _ HP) in Hin.
    apply (Permutation_in _ (Permutation_sym HP)) in Hin'.
    rewrite Forall_forall in H2, H2'.
    assert (Pandas.minimum x' l' <= Pandas.minimum x l).
    { destruct Hin as [<-|Hin]; [exact H1' | now apply H2']. }
    assert (Pandas.minimum x l <= Pandas.minimum x' l').
    { destruct Hin' as [<-|Hin']; [exact H1 | now apply H2]. }
    lia.
Qed.

Lemma Series_max_Permutation (l l' : list Z) :
  Permutation l l' -> Pandas.Series_max l = Pandas.Series_max l'.
Proof.
  intros HP. destruct l as [|x l], l' as [|x' l'].
  - reflexivity.
  - apply Permutation_nil in HP. discriminate HP.
  - apply Permutation_sym, Permutation_nil in HP. discriminate HP.
  - cbn [Pandas.Series_max]. f_equal.
    destruct (maximum_ge l x) as [H1 H2], (maximum_ge l' x') as [H1' H2'].
    pose proof (maximum_In l x) as Hin. pose proof (maximum_In l' x') as Hin'.
    apply (Permutation_in _ HP) in Hin.
    apply (Permutation_in _ (Permutation_sym HP)) in Hin'.
    rewrite Forall_forall in H2, H2'.
    assert (Pandas.maximum x l <= Pandas.maximum x' l').
    { destruct Hin as [<-|Hin]; [exact H1' | now apply H2']. }
    assert (Pandas.maximum x' l' <= Pandas.maximum x l).
    { destruct Hin' as [<-|Hin']; [exact H1 | now apply H2]. }
    lia.
Qed.

Lemma sum_Permutation (l l' : list Z) :
  Permutation l l' -> Pandas.sum l = Pandas.sum l'.
Proof.
  induction 1 as [|x l l' _ IH|x y l|l l' l'' _ IH1 _ IH2].
  - reflexivity.
  - now rewrite !sum_cons, IH.
  - rewrite !sum_cons. lia.
  - now rewrite IH1.
Qed.

Lemma Series_mean_Permutation (l l' : list Z) :
  Permutation l l' -> Pandas.Series_mean l = Pandas.Series_mean l'.
Proof.
  intros HP. destruct l as [|x l], l' as [|x' l'].
  - reflexivity.
  - apply Permutation_nil in HP. discriminate HP.
  - apply Permutation_sym, Permutation_nil in HP. discriminate HP.
  - cbn [Pandas.Series_mean]. unfold Py.len.
    now rewrite (sum_Permutation _ _ HP), (Permutation_length HP).
Qed.

Lemma filter_Permutation {A : Type} (f : A -> bool) (l l' : list A) :
  Permutation l l' -> Permutation (filter f l) (filter f l').
Proof.
  induction 1 as [|x l l' _ IH|x y l|l l' l'' _ IH1 _ IH2]; cbn [filter].
  - constructor.
  - destruct (f x); [now constructor | exact IH].
  - destruct (f x), (f y); try reflexivity. constructor.
  - now transitivity (filter f l').
Qed.

Lemma structural_features_Permutation (df df' : DataFrame) :
  width df = width df' ->
  List.length (rows df) = List.length (rows df') ->
  Permutation (cells_of df) (cells_of df') ->
  structural_features df (cells_of df)
  = structural_features df' (cells_of df')
  /\ total_chars (cells_of df) = total_chars (cells_of df')
  /\ total_digits (cells_of df) = total_digits (cells_of df').
Proof.
  intros Hw Hr HP.
  assert (Hwc : Permutation (words_count_by_cell (cells_of df))
                  (words_count_by_cell (cells_of df')))
    by now apply Permutation_map.
  assert (Hchars : Permutation (flat_map Py.chars (cells_of df))
                     (flat_map Py.chars (cells_of df')))
    by now apply Permutation_flat_map.
  assert (Hc : total_chars (cells_of df) = total_chars (cells_of df')).
  { unfold total_chars. rewrite !sum_ones_len. unfold Py.len.
    now rewrite (Permutation_length Hchars). }
  assert (Hd : total_digits (cells_of df) = total_digits (cells_of df')).
  { unfold total_digits. rewrite !sum_ones_len. unfold Py.len.
    now rewrite (Permutation_length (filter_Permutation _ _ _ Hchars)). }
  split; [|now split].
  unfold structural_features.
  rewrite Hw, (Series_min_Permutation _ _ Hwc),
    (Series_mean_Permutation _ _ Hwc), (Series_max_Permutation _ _ Hwc), Hc, Hd.
  unfold Py.len. rewrite Hr.
  assert (He : empty_cells (cells_of df) = empty_cells (cells_of df')).
  { unfold empty_cells. rewrite !sum_ones_len. unfold Py.len.
    now rewrite (Permutation_length (filter_Permutation _ _ _ HP)). }
  assert (Ht : total_words (cells_of df) = total_words (cells_of df')).
  { unfold total_words. rewrite !sum_ones_len. unfold Py.len.
    now rewrite (Permutation_length (Permutation_flat_map Py.split HP)). }
  now rewrite He, Ht.
Qed.

Lemma is_word_in_Permutation (word : string) (cs me : bool)
      (cells cells' : list string) :
  Permutation cells cells' ->
  is_word_in word cells cs me = is_word_in word cells' cs me.
Proof.
  intros HP. unfold is_word_in.
  destruct (Re.compile (word_pattern word me) (negb cs)) as [p| |];
    cbn [bind]; try reflexivity.
  now rewrite !first_match_existsb, (existsb_Permutation _ _ _ HP).
Qed.

Lemma word_features_Permutation (ws : list (string * bool * bool))
      (cells cells' : list string) (features : OrderedDict.t) :
  Permutation cells cells' ->
  word_features ws cells features = word_features ws cells' features.
Proof.
  intros HP. revert features.
  induction ws as [|[[word cs] me] ws IH]; intros features; [reflexivity|].
  cbn [word_features]. rewrite (is_word_in_Permutation _ _ _ _ _ HP).
  destruct (is_word_in word cells' cs me); cbn [bind]; try reflexivity.
  apply IH.
Qed.

Lemma digit_features_Permutation (cells cells' : list string)
      (features : OrderedDict.t) :
  Permutation cells cells' ->
  digit_features cells features = digit_features cells' features.
Proof.
  intros HP. unfold digit_features.
  assert (H : forall k,
             Counter.get (digit_word_len_count cells) k 0
             = Counter.get (digit_word_len_count cells') k 0).
  { intros k. unfold digit_word_len_count. rewrite !Counter_get_of_list.
    f_equal. apply Permutation_length, filter_Permutation, Permutation_map.
    now apply Permutation_flat_map. }
  generalize (seq 2 4). intros l. revert features.
  induction l as [|n l IH]; intros features; [reflexivity|].
  cbn [fold_left]. now rewrite H, IH.
Qed.

Lemma flat_map_Permutation_ext {A B : Type} (f g : A -> list B) (l : list A) :
  (forall a, Permutation (f a) (g a)) ->
  Permutation (flat_map f l) (flat_map g l).
Proof.
  intros H. induction l as [|a l IH]; [constructor|].
  cbn [flat_map]. now apply Permutation_app.
Qed.

Lemma cells_of_rows_Permutation (w : nat) (rs rs' : list (list string)) :
  Permutation rs rs' ->
  Permutation (cells_of {| width := w; rows := rs |})
              (cells_of {| width := w; rows := rs' |}).
Proof.
  intros HP. unfold cells_of, Pandas.items. cbn [width].
  rewrite !flat_map_concat_map, !map_map, <- !flat_map_concat_map.
  apply flat_map_Permutation_ext. intros j. cbn [snd].
  unfold Pandas.column. cbn [rows]. now apply Permutation_map.
Qed.

(** X6: the record depends on the cells only through the shape of the grid
    and the contents of the cells, not through their places: two grids of
    the same shape whose cells are a rearrangement of each other get the
    same result; so do two grids that have the same rows in another
    order. *)
Theorem features_ignore_cell_order :
  (forall df df' : DataFrame,
      width df = width df' ->
      List.length (rows df) = List.length (rows df') ->
      Permutation (cells_of df) (cells_of df') ->
      get_table_features df = get_table_features df')
  /\ (forall (w : nat) (rs rs' : list (list string)),
         Permutation rs rs' ->
         get_table_features {| width := w; rows := rs |}
         = get_table_features {| width := w; rows := rs' |}).
Proof.
  assert (H : forall df df' : DataFrame,
             width df = width df' ->
             List.length (rows df) = List.length (rows df') ->
             Permutation (cells_of df) (cells_of df') ->
             get_table_features df = get_table_features df').
  { intros df df' Hw Hr HP.
    destruct (structural_features_Permutation df df' Hw Hr HP)
      as (Hs & Hc & Hd).
    unfold get_table_features. cbv zeta. rewrite Hs, Hc, Hd.
    destruct (F64.int_truediv _ _) as [x| |]; cbn [bind];
      [|reflexivity|reflexivity].
    rewrite (word_features_Permutation _ _ _ _ HP).
    destruct (word_features words (cells_of df') _) as [fw| |]; cbn [bind];
      [|reflexivity|reflexivity].
    rewrite (digit_features_Permutation _ _ _ HP). reflexivity. }
  split; [exact H|].
  intros w rs rs' HP. apply H.
  - reflexivity.
  - cbn [rows]. now apply Permutation_length.
  - now apply cells_of_rows_Permutation.
Qed.

Lemma features_ignore_cell_order_witness :
  Permutation [["12"; "age"]; ["x"; "y"]] [["x"; "y"]; ["12"; "age"]]
  /\ get_table_features {| width := 2; rows := [["12"; "age"]; ["x"; "y"]] |}
     = get_table_features {| width := 2; rows := [["x"; "y"]; ["12"; "age"]] |}.
Proof.
  assert (HP : Permutation [["12"; "age"]; ["x"; "y"]]
                           [["x"; "y"]; ["12"; "age"]])
    by apply perm_swap.
  split; [exact HP|].
  apply (proj2 features_ignore_cell_order). exact HP.
Defined.

(** *** The digit counts and the number of characters *)

Lemma list_sum_step (a : nat) (l : list nat) :
  list_sum (a :: l) = (a + list_sum l)%nat.
Proof. reflexivity. Qed.

Lemma digit_runs_total (s cur : list ascii) :
  list_sum (map (fun d => List.length (Py.chars d)) (Re.digit_runs_from cur s))
  = (List.length cur + List.length (filter Py.isdecimal s))%nat.
Proof.
  revert cur. induction s as [|c s IH]; intros cur;
    cbn [Re.digit_runs_from filter].
  - destruct cur as [|x cur]; [reflexivity|].
    cbn [map list_sum]. rewrite chars_of_list, length_rev. cbn. lia.
  - destruct (Py.isdecimal c).
    + rewrite IH. cbn [List.length]. lia.
    + destruct cur as [|x cur]; [apply IH|].
      cbn [map]. rewrite list_sum_step, chars_of_list, length_rev, IH.
      cbn. lia.
Qed.

Lemma weighted_counts_le (l : list nat) :
  (2 * List.length (filter (Nat.eqb 2) l)
   + 3 * List.length (filter (Nat.eqb 3) l)
   + 4 * List.length (filter (Nat.eqb 4) l)
   + 5 * List.length (filter (Nat.eqb 5) l)
   <= list_sum l)%nat.
Proof.
  induction l as [|x l IH]; [cbn; lia|].
  rewrite list_sum_step. cbn [filter].
  destruct (Nat.eqb_spec 2 x), (Nat.eqb_spec 3 x), (Nat.eqb_spec 4 x),
    (Nat.eqb_spec 5 x); cbn [List.length]; lia.
Qed.

Lemma digit_count_filter (cells : list string) (n : nat) :
  Counter.get (digit_word_len_count cells) (Z.of_nat n) 0
  = Z.of_nat
      (List.length
         (filter (Nat.eqb n)
            (map (fun d => List.length (Py.chars d))
               (flat_map Re.findall_digits cells)))).
Proof.
  unfold digit_word_len_count.
  rewrite Counter_get_of_list, !filter_map_comm, !length_map. do 2 f_equal.
  apply filter_ext. intros d. unfold Py.len.
  destruct (Nat.eqb_spec n (List.length (Py.chars d))) as [->|NE].
  - apply Z.eqb_refl.
  - apply Z.eqb_neq. lia.
Qed.

Lemma runs_total_chars (cells : list string) :
  Z.of_nat
    (list_sum
       (map (fun d => List.length (Py.chars d))
          (flat_map Re.findall_digits cells)))
  <= total_chars cells.
Proof.
  unfold total_chars. rewrite sum_ones_len. unfold Py.len.
  apply Nat2Z.inj_le.
  induction cells as [|c cells IH]; [reflexivity|].
  cbn [flat_map]. rewrite map_app, list_sum_app, length_app.
  unfold Re.findall_digits at 1. rewrite digit_runs_total.
  cbn [List.length Nat.add].
  pose proof (filter_length_le Py.isdecimal (Py.chars c)). lia.
Qed.

(** X7: the runs of digits that are counted lie side by side in the
    cells: in a record that is returned no digit count is negative, and
    twice [digit_of_len_2] plus three times [digit_of_len_3] plus four
    times [digit_of_len_4] plus five times [digit_of_len_5] is at most
    [total_chars]. *)
Theorem digit_counts_bounded (df : DataFrame) :
  0 < total_chars (cells_of df) ->
  exists (r : OrderedDict.t) (d2 d3 d4 d5 : Z),
    get_table_features df = Ok r
    /\ OrderedDict.getitem r "digit_of_len_2" = Ok (VInt d2)
    /\ OrderedDict.getitem r "digit_of_len_3" = Ok (VInt d3)
    /\ OrderedDict.getitem r "digit_of_len_4" = Ok (VInt d4)
    /\ OrderedDict.getitem r "digit_of_len_5" = Ok (VInt d5)
    /\ OrderedDict.getitem r "total_chars"
       = Ok (VInt (total_chars (cells_of df)))
    /\ 0 <= d2 /\ 0 <= d3 /\ 0 <= d4 /\ 0 <= d5
    /\ 2 * d2 + 3 * d3 + 4 * d4 + 5 * d5 <= total_chars (cells_of df).
Proof.
  intros Hpos.
  destruct (totals_bounds (cells_of df)) as (_ & _ & Hd).
  destruct (int_truediv_unit _ _ Hd Hpos) as (x & q & Hx & _).
  destruct (get_table_features_ok df x Hx)
    as (r & m & Hr & _ & _ & _ & Hget & _ & Hdg).
  exists r. do 4 eexists. split; [exact Hr|].
  split; [exact (Hdg 2%nat ltac:(cbn; tauto))|].
  split; [exact (Hdg 3%nat ltac:(cbn; tauto))|].
  split; [exact (Hdg 4%nat ltac:(cbn; tauto))|].
  split; [exact (Hdg 5%nat ltac:(cbn; tauto))|].
  split.
  { rewrite Hget by reflexivity. now rewrite getitem_setitem. }
  rewrite !digit_count_filter.
  pose proof (runs_total_chars (cells_of df)).
  pose proof (weighted_counts_le
                (map (fun d => List.length (Py.chars d))
                   (flat_map Re.findall_digits (cells_of df)))).
  repeat split; lia.
Qed.

Lemma digit_counts_bounded_witness :
  0 < total_chars (cells_of example_grid)
  /\ exists (r : OrderedDict.t) (d2 d3 d4 d5 : Z),
      get_table_features example_grid = Ok r
      /\ OrderedDict.getitem r "digit_of_len_4" = Ok (VInt d4)
      /\ 2 * d2 + 3 * d3 + 4 * d4 + 5 * d5
         <= total_chars (cells_of example_grid).
Proof.
  split; [reflexivity|].
  destruct (digit_counts_bounded example_grid eq_refl)
    as (r & d2 & d3 & d4 & d5 & Hr & _ & _ & H4 & _ & _ & _ & _ & _ & _ & H).
  exists r, d2, d3, d4, d5.
  split; [exact Hr|]. split; [exact H4 | exact H].
Defined.

(** *** File names: [get_table_file] and [get_table_parts] *)

Lemma string_of_uint_chars (d : Decimal.uint) :
  forallb Py.isdecimal (Py.chars (NilEmpty.string_of_uint d)) = true
  /\ List.length (Py.chars (NilEmpty.string_of_uint d)) = Decimal.nb_digits d.
Proof.
  induction d as [|d [IH1 IH2]|d [IH1 IH2]|d [IH1 IH2]|d [IH1 IH2]|d [IH1 IH2]
                  |d [IH1 IH2]|d [IH1 IH2]|d [IH1 IH2]|d [IH1 IH2]|d [IH1 IH2]];
    [now split| | | | | | | | | |];
    (split; [exact IH1 | cbn; now rewrite <- IH2]).
Qed.

Lemma int_digits_uint (d : Decimal.uint) (acc : nat) (b : bool) :
  d <> Decimal.Nil \/ b = true ->
  int_digits (Z.of_nat acc) b (Py.chars (NilEmpty.string_of_uint d))
  = Some (Z.of_nat (Nat.of_uint_acc d acc)).
Proof.
  revert acc b.
  induction d as [|d IH|d IH|d IH|d IH|d IH|d IH|d IH|d IH|d IH|d IH];
    intros acc b Hb;
    [destruct Hb as [Hb| ->]; [contradiction | reflexivity]| | | | | | | | | |];
    cbn [NilEmpty.string_of_uint Py.chars list_ascii_of_string int_digits
         Nat.of_uint_acc];
    (match goal with
     | |- context [Py.isdecimal ?c] =>
         change (Py.isdecimal c) with true; cbv iota;
         change (Z.of_N (Py.ord c) - 48)
           with ltac:(let v := eval vm_compute in (Z.of_N (Py.ord c) - 48) in
                      exact v)
     end);
    fold (Py.chars (NilEmpty.string_of_uint d));
    rewrite <- (IH _ true (or_intror eq_refl)); f_equal;
    rewrite Nat.tail_mul_spec; lia.
Qed.

Lemma of_uint_acc_lower (d : Decimal.uint) (acc : nat) :
  Z.of_nat acc * 10 ^ Z.of_nat (Decimal.nb_digits d)
  <= Z.of_nat (Nat.of_uint_acc d acc).
Proof.
  revert acc.
  induction d as [|d IH|d IH|d IH|d IH|d IH|d IH|d IH|d IH|d IH|d IH];
    intros acc; cbn [Decimal.nb_digits Nat.of_uint_acc];
    [cbn; lia| | | | | | | | | |];
    (eapply Z.le_trans; [|apply IH]);
    rewrite Nat2Z.inj_succ, Z.pow_succ_r by lia;
    rewrite ?Nat2Z.inj_succ, Nat.tail_mul_spec, Nat2Z.inj_mul;
    (assert (0 < 10 ^ Z.of_nat (Decimal.nb_digits d))
      by (apply Z.pow_pos_nonneg; lia)); nia.
Qed.

Lemma nzhead_leading (d : Decimal.uint) :
  match Decimal.nzhead d with
  | Decimal.D0 _ => False
  | _ => True
  end.
Proof. induction d; cbn [Decimal.nzhead]; auto. Qed.

Lemma of_uint_lower (d : Decimal.uint) :
  match d with
  | Decimal.Nil | Decimal.D0 _ => True
  | _ => 10 ^ (Z.of_nat (Decimal.nb_digits d) - 1) <= Z.of_nat (Nat.of_uint d)
  end.
Proof.
  destruct d as [|d|d|d|d|d|d|d|d|d|d]; try exact I;
    unfold Nat.of_uint; cbn [Decimal.nb_digits Nat.of_uint_acc];
    (eapply Z.le_trans; [|apply of_uint_acc_lower]);
    rewrite Nat2Z.inj_succ;
    replace (Z.succ (Z.of_nat (Decimal.nb_digits d)) - 1)
      with (Z.of_nat (Decimal.nb_digits d)) by lia;
    (assert (0 < 10 ^ Z.of_nat (Decimal.nb_digits d))
      by (apply Z.pow_pos_nonneg; lia));
    rewrite ?Nat2Z.inj_succ; nia.
Qed.

Lemma to_uint_digits (n : nat) :
  Z.of_nat n < 10 ^ 20 -> (Decimal.nb_digits (Nat.to_uint n) <= 20)%nat.
Proof.
  intros Hn.
  pose proof (DecimalNat.Unsigned.of_to n) as Hof.
  pose proof (DecimalNat.Unsigned.to_of (Nat.to_uint n)) as Hto.
  rewrite Hof in Hto.
  pose proof (of_uint_lower (Nat.to_uint n)) as Hlow. rewrite Hof in Hlow.
  pose proof (nzhead_leading (Nat.to_uint n)) as Hlead.
  unfold Decimal.unorm in Hto.
  destruct (Decimal.nzhead (Nat.to_uint n)) eqn:Ez;
    try contradiction;
    try (rewrite Hto in Hlow |- *; cbn; lia);
    rewrite Hto in Hlow |- *;
    (destruct (Nat.le_gt_cases (Decimal.nb_digits (Nat.to_uint n)) 20)
      as [Hle|Hgt]; [rewrite Hto in Hle; exact Hle|]);
    rewrite Hto in Hgt; exfalso;
    match type of Hlow with
    | 10 ^ (Z.of_nat ?k - 1) <= _ =>
        assert (10 ^ 20 <= 10 ^ (Z.of_nat k - 1))
          by (apply Z.pow_le_mono_r; lia)
    end; lia.
Qed.

Lemma chars_append (a b : string) :
  Py.chars (a ++ b)%string = Py.chars a ++ Py.chars b.
Proof.
  unfold Py.chars. induction a as [|c a IH]; [reflexivity|].
  cbn. now rewrite IH.
Qed.

Lemma string_of_chars (s : string) : string_of_list_ascii (Py.chars s) = s.
Proof. apply string_of_list_ascii_of_string. Qed.

Lemma chars_length (s : string) :
  List.length (Py.chars s) = String.length s.
Proof. induction s as [|c s IH]; [reflexivity|]. cbn. now rewrite <- IH. Qed.

Lemma to_uint_not_nil (n : nat) : Nat.to_uint n <> Decimal.Nil.
Proof.
  pose proof (DecimalNat.Unsigned.to_of (Nat.to_uint n)) as Hto.
  rewrite DecimalNat.Unsigned.of_to in Hto. rewrite Hto.
  unfold Decimal.unorm. destruct (Decimal.nzhead (Nat.to_uint n)); discriminate.
Qed.

Lemma str_of_nat_spec (n : nat) :
  forallb Py.isdecimal (Py.chars (Py.str_of_nat n)) = true
  /\ (forall b, int_digits 0 b (Py.chars (Py.str_of_nat n))
                = Some (Z.of_nat n))
  /\ (Z.of_nat n < 10 ^ 20 ->
      (String.length (Py.str_of_nat n) <= 20)%nat).
Proof.
  unfold Py.str_of_nat.
  destruct (string_of_uint_chars (Nat.to_uint n)) as [H1 H2].
  split; [exact H1|]. split.
  - intros b. change (int_digits 0 b) with (int_digits (Z.of_nat 0) b).
    rewrite (int_digits_uint (Nat.to_uint n) 0 b
               (or_introl (to_uint_not_nil n))).
    fold (Nat.of_uint (Nat.to_uint n)).
    now rewrite DecimalNat.Unsigned.of_to.
  - intros Hn. apply to_uint_digits in Hn. rewrite <- H2 in Hn.
    now rewrite <- chars_length.
Qed.

Lemma repeat_zero_chars (k : nat) :
  Py.chars (Py.repeat_char "0" k) = repeat "0"%char k.
Proof. induction k as [|k IH]; [reflexivity|]. cbn. f_equal. exact IH. Qed.

Lemma int_digits_zeros (k : nat) (b : bool) (s : list ascii) :
  int_digits 0 b (repeat "0"%char k ++ s)
  = int_digits 0 (b || negb (Nat.eqb k 0)) s.
Proof.
  revert b. induction k as [|k IH]; intros b.
  - cbn. now rewrite orb_false_r.
  - cbn [repeat app int_digits].
    change (Py.isdecimal "0") with true. cbv iota.
    change (10 * 0 + (Z.of_N (Py.ord "0") - 48)) with 0.
    rewrite IH. cbn. now rewrite orb_true_r.
Qed.

Lemma str_of_nat_pad_spec (w n : nat) :
  forallb Py.isdecimal (Py.chars (Py.str_of_nat_pad w n)) = true
  /\ (forall b, int_digits 0 b (Py.chars (Py.str_of_nat_pad w n))
                = Some (Z.of_nat n))
  /\ (Z.of_nat n < 10 ^ 20 -> (w <= 20)%nat ->
      (List.length (Py.chars (Py.str_of_nat_pad w n)) <= 20)%nat)
  /\ Py.chars (Py.str_of_nat_pad w n) <> [].
Proof.
  unfold Py.str_of_nat_pad.
  destruct (str_of_nat_spec n) as (H1 & H2 & H3).
  rewrite chars_append, repeat_zero_chars.
  split; [|split; [|split]].
  - rewrite forallb_app, H1, andb_true_r.
    apply forallb_forall. intros c Hc. apply repeat_spec in Hc. now subst.
  - intros b. rewrite int_digits_zeros. apply H2.
  - intros Hn Hw. specialize (H3 Hn).
    rewrite length_app, repeat_length.
    pose proof (chars_length (Py.str_of_nat n)). lia.
  - intros H. apply app_eq_nil in H. destruct H as [_ H].
    specialize (H2 false). rewrite H in H2. discriminate H2.
Qed.

Lemma isdecimal_plain (c : ascii) :
  Py.isdecimal c = true ->
  Py.isspace c = false
  /\ Ascii.eqb c "-"%char = false /\ Ascii.eqb c "+"%char = false
  /\ Ascii.eqb c "."%char = false /\ Ascii.eqb c "/"%char = false.
Proof.
  destruct c as [[] [] [] [] [] [] [] []]; intros H;
    first [discriminate H | (repeat split; reflexivity)].
Qed.

Lemma digits_not_blank (l : list ascii) :
  forallb Py.isdecimal l = true ->
  forallb (fun c => negb (int_blank c)) l = true.
Proof.
  intros Hd. apply forallb_forall. intros c Hc.
  rewrite forallb_forall in Hd. unfold int_blank.
  now rewrite (proj1 (isdecimal_plain c (Hd c Hc))).
Qed.

(** [int] skips nothing of a string whose characters are not blank. *)
Lemma int_skip_id (s : list ascii) :
  forallb (fun c => negb (int_blank c)) s = true ->
  rev (int_skip (rev (int_skip s))) = s.
Proof.
  intros H.
  assert (Hhead : forall l,
             forallb (fun c => negb (int_blank c)) l = true ->
             int_skip l = l).
  { intros [|c l] Hl; [reflexivity|]. cbn in Hl |- *.
    apply andb_true_iff in Hl. destruct Hl as [Hc _].
    apply negb_true_iff in Hc. now rewrite Hc. }
  rewrite (Hhead s H), Hhead by now rewrite forallb_rev.
  apply rev_involutive.
Qed.

(** [int] on a string of digits, and on a minus sign and digits *)
Lemma int_of_str_digits (l : list ascii) (z : Z) :
  forallb Py.isdecimal l = true -> (List.length l <= 4300)%nat ->
  int_digits 0 false l = Some z ->
  int_of_str (string_of_list_ascii l) = Ok z.
Proof.
  intros Hd Hlen Hz. unfold int_of_str. cbv zeta.
  rewrite chars_of_list, (int_skip_id _ (digits_not_blank l Hd)).
  destruct (Nat.ltb_spec 4300 (List.length l)); [lia|].
  destruct l as [|c t]; [discriminate Hz|].
  cbn [forallb] in Hd. apply andb_true_iff in Hd. destruct Hd as [Hc _].
  destruct (isdecimal_plain c Hc) as (_ & Hm & Hp & _).
  now rewrite Hm, Hp, Hz.
Qed.

Lemma int_of_str_neg_digits (l : list ascii) (z : Z) :
  forallb Py.isdecimal l = true -> (List.length l < 4300)%nat ->
  int_digits 0 false l = Some z ->
  int_of_str (string_of_list_ascii ("-"%char :: l)) = Ok (- z).
Proof.
  intros Hd Hlen Hz. unfold int_of_str. cbv zeta.
  rewrite chars_of_list, int_skip_id.
  - cbn [List.length].
    destruct (Nat.ltb_spec 4300 (S (List.length l))); [lia|].
    change (Ascii.eqb "-" "-") with true. cbv iota.
    now rewrite Hz.
  - cbn [forallb]. now rewrite (digits_not_blank l Hd).
Qed.

(** What ['{:0wd}'.format(z)] writes: digits, after a minus sign when [z]
    is negative. *)
Lemma str_of_int_pad_shape (w : nat) (z : Z) :
  (w <= 20)%nat -> - 10 ^ 19 < z < 10 ^ 19 ->
  exists l : list ascii,
    forallb Py.isdecimal l = true
    /\ (List.length l <= 20)%nat
    /\ int_digits 0 false l = Some (Z.abs z)
    /\ Py.chars (str_of_int_pad w z)
       = (if z <? 0 then "-"%char :: l else l).
Proof.
  intros Hw Hz. unfold str_of_int_pad. destruct z as [|p|p].
  - destruct (str_of_nat_pad_spec w (Z.to_nat 0)) as (H1 & H2 & H3 & _).
    exists (Py.chars (Py.str_of_nat_pad w (Z.to_nat 0))).
    split; [exact H1|]. split.
    + apply H3; [|exact Hw]. change (Z.of_nat (Z.to_nat 0)) with 0. lia.
    + split; [apply H2 | reflexivity].
  - destruct (str_of_nat_pad_spec w (Z.to_nat (Z.pos p))) as (H1 & H2 & H3 & _).
    exists (Py.chars (Py.str_of_nat_pad w (Z.to_nat (Z.pos p)))).
    split; [exact H1|]. split.
    + apply H3; [|exact Hw]. rewrite Z2Nat.id; lia.
    + split; [|reflexivity]. rewrite H2. f_equal. rewrite Z2Nat.id; lia.
  - destruct (str_of_nat_pad_spec (w - 1) (Pos.to_nat p)) as (H1 & H2 & H3 & _).
    exists (Py.chars (Py.str_of_nat_pad (w - 1) (Pos.to_nat p))).
    split; [exact H1|]. split.
    + apply H3; [|lia]. rewrite positive_nat_Z. lia.
    + split; [|apply chars_append]. rewrite H2. f_equal.
      rewrite positive_nat_Z. reflexivity.
Qed.

(** [int] reads back what ['{:0wd}'.format] writes. *)
Lemma int_of_str_pad (w : nat) (z : Z) :
  (w <= 20)%nat -> - 10 ^ 19 < z < 10 ^ 19 ->
  int_of_str (str_of_int_pad w z) = Ok z.
Proof.
  intros Hw Hz.
  destruct (str_of_int_pad_shape w z Hw Hz) as (l & Hd & Hlen & Hi & Hc).
  rewrite <- (string_of_chars (str_of_int_pad w z)), Hc.
  destruct (Z.ltb_spec z 0).
  - rewrite (int_of_str_neg_digits l _ Hd ltac:(lia) Hi). f_equal. lia.
  - rewrite (int_of_str_digits l _ Hd ltac:(lia) Hi). f_equal. lia.
Qed.

Lemma str_of_int_pad_plain (w : nat) (z : Z) :
  (w <= 20)%nat -> - 10 ^ 19 < z < 10 ^ 19 ->
  free_of "." (str_of_int_pad w z) = true
  /\ free_of "/" (str_of_int_pad w z) = true.
Proof.
  intros Hw Hz.
  destruct (str_of_int_pad_shape w z Hw Hz) as (l & Hd & _ & _ & Hc).
  unfold free_of. rewrite Hc.
  assert (H : forallb (fun x => negb (Ascii.eqb x "."%char)) l = true
              /\ forallb (fun x => negb (Ascii.eqb x "/"%char)) l = true).
  { rewrite forallb_forall in Hd.
    split; apply forallb_forall; intros c Hin;
      destruct (isdecimal_plain c (Hd c Hin)) as (_ & _ & _ & H1 & H2).
    - now rewrite H1.
    - now rewrite H2. }
  destruct H as [H1 H2].
  destruct (z <? 0); cbn [forallb]; rewrite ?H1, ?H2; split; reflexivity.
Qed.

(** *** Splitting on a separator *)

Lemma split_on_from_plain (sep : ascii) (cur s : list ascii) :
  forallb (fun c => negb (Ascii.eqb c sep)) s = true ->
  split_on_from sep cur s = [string_of_list_ascii (rev cur ++ s)].
Proof.
  revert cur. induction s as [|c s IH]; intros cur H.
  - cbn. now rewrite app_nil_r.
  - cbn [forallb] in H. apply andb_true_iff in H. destruct H as [Hc Hs].
    apply negb_true_iff in Hc. cbn [split_on_from]. rewrite Hc.
    rewrite (IH _ Hs). cbn [rev]. now rewrite <- app_assoc.
Qed.

Lemma split_on_from_app (sep : ascii) (cur s1 s2 : list ascii) :
  split_on_from sep cur (s1 ++ sep :: s2)
  = split_on_from sep cur s1 ++ split_on_from sep [] s2.
Proof.
  revert cur. induction s1 as [|c s1 IH]; intros cur.
  - cbn [app split_on_from]. now rewrite Ascii.eqb_refl.
  - cbn [app split_on_from]. destruct (Ascii.eqb c sep).
    + now rewrite IH.
    + apply IH.
Qed.

(** A string with [n] separators splits into [n + 1] pieces. *)
Lemma split_on_from_length (sep : ascii) (cur s : list ascii) :
  List.length (split_on_from sep cur s)
  = S (List.length (filter (fun x => Ascii.eqb x sep) s)).
Proof.
  revert cur. induction s as [|c s IH]; intros cur; [reflexivity|].
  cbn [split_on_from filter]. destruct (Ascii.eqb c sep).
  - cbn [List.length]. now rewrite IH.
  - apply IH.
Qed.

Lemma split_on_length (sep : ascii) (s : string) :
  List.length (split_on sep s) = S (count_char sep s).
Proof. apply split_on_from_length. Qed.

Lemma index_from_end_app {A : Type} (l tl : list A) (k : nat) (a : A) :
  nth_error tl (List.length tl - k) = Some a ->
  (1 <= k <= List.length tl)%nat ->
  index_from_end (l ++ tl) k = Ok a.
Proof.
  intros Hn Hk. unfold index_from_end. rewrite length_app.
  destruct (Nat.ltb_spec (List.length l + List.length tl) k); [lia|].
  rewrite nth_error_app2 by lia.
  replace (List.length l + List.length tl - k - List.length l)%nat
    with (List.length tl - k)%nat by lia.
  now rewrite Hn.
Qed.

Lemma index_from_end_cases {A : Type} (l : list A) (k : nat) :
  (1 <= k)%nat ->
  ((List.length l < k)%nat /\ index_from_end l k = Raise IndexError)
  \/ ((k <= List.length l)%nat /\ exists a, index_from_end l k = Ok a).
Proof.
  intros Hk. unfold index_from_end.
  destruct (Nat.ltb_spec (List.length l) k) as [Hlt|Hge]; [now left|].
  right. split; [exact Hge|].
  destruct (nth_error l (List.length l - k)) as [a|] eqn:E; [now exists a|].
  apply nth_error_None in E. lia.
Qed.

Lemma chars_nil (s : string) : Py.chars s = [] -> s = EmptyString.
Proof. destruct s; [reflexivity | discriminate]. Qed.

Lemma append_assoc (a b c : string) :
  (a ++ b ++ c)%string = ((a ++ b) ++ c)%string.
Proof. induction a as [|x a IH]; [reflexivity|]. cbn. now rewrite IH. Qed.

(** The path that [posixpath.join] builds from a directory, a name without
    slash and two further components. *)
Lemma posix_join_shape (dir_ article name : string) :
  article <> EmptyString ->
  free_of "/" article = true ->
  starts_with_slash name = false ->
  exists pre : list ascii,
    (pre = [] \/ exists pre', pre = pre' ++ ["/"%char])
    /\ Py.chars (posix_join dir_ [article; "tables"; name])
       = pre ++ Py.chars article ++ "/"%char :: Py.chars "tables"
             ++ "/"%char :: Py.chars name.
Proof.
  unfold free_of. intros Hne Hns Hname.
  assert (Hstart : starts_with_slash article = false).
  { destruct article as [|c a]; [reflexivity|]. cbn in Hns |- *.
    apply andb_true_iff in Hns. now apply negb_true_iff. }
  assert (Hend : forall p, ends_with_slash (p ++ article) = false).
  { intros p. unfold ends_with_slash. rewrite chars_append, rev_app_distr.
    destruct (rev (Py.chars article)) as [|c t] eqn:E.
    - apply (f_equal (@rev ascii)) in E. rewrite rev_involutive in E.
      cbn in E. exfalso. apply Hne. now apply chars_nil.
    - cbn [app]. rewrite <- forallb_rev, E in Hns. cbn in Hns.
      apply andb_true_iff in Hns. now apply negb_true_iff. }
  assert (Hne' : forall p, String.eqb (p ++ article) EmptyString = false).
  { intros p. apply String.eqb_neq. intros H.
    apply (f_equal Py.chars) in H. rewrite chars_append in H.
    apply app_eq_nil in H. apply Hne. now apply chars_nil. }
  unfold posix_join. cbn [fold_left].
  unfold posix_join_one at 3. rewrite Hstart.
  set (path1 := if String.eqb dir_ EmptyString || ends_with_slash dir_
                then (dir_ ++ article)%string
                else (dir_ ++ "/" ++ article)%string).
  assert (H1 : exists pre,
             (pre = [] \/ exists pre', pre = pre' ++ ["/"%char])
             /\ Py.chars path1 = pre ++ Py.chars article
             /\ ends_with_slash path1 = false
             /\ String.eqb path1 EmptyString = false).
  { unfold path1. destruct (String.eqb_spec dir_ EmptyString) as [->|Hd].
    - cbn [orb]. exists []. split; [now left|]. split; [reflexivity|].
      split; [apply (Hend EmptyString) | apply (Hne' EmptyString)].
    - cbn [orb]. destruct (ends_with_slash dir_) eqn:Es.
      + exists (Py.chars dir_). split.
        * right. unfold ends_with_slash in Es.
          destruct (rev (Py.chars dir_)) as [|c t] eqn:E; [discriminate Es|].
          apply Ascii.eqb_eq in Es. subst c. exists (rev t).
          rewrite <- (rev_involutive (Py.chars dir_)), E. reflexivity.
        * split; [apply chars_append|]. split; [apply Hend | apply Hne'].
      + exists (Py.chars dir_ ++ ["/"%char]). split.
        * right. now exists (Py.chars dir_).
        * rewrite append_assoc. split; [|split; [apply Hend | apply Hne']].
          now rewrite !chars_append. }
  destruct H1 as (pre & Hpre & Hc1 & He1 & Hn1).
  exists pre. split; [exact Hpre|].
  unfold posix_join_one at 2. cbn [starts_with_slash Ascii.eqb Bool.eqb].
  rewrite Hn1, He1. cbn [orb].
  unfold posix_join_one. rewrite Hname.
  set (path2 := (path1 ++ "/" ++ "tables")%string).
  assert (Hn2 : String.eqb path2 EmptyString = false).
  { apply String.eqb_neq. intros H. apply (f_equal Py.chars) in H.
    unfold path2 in H. rewrite !chars_append in H.
    apply app_eq_nil in H. destruct H as [_ H]. discriminate H. }
  assert (He2 : ends_with_slash path2 = false).
  { unfold ends_with_slash, path2. rewrite !chars_append, !rev_app_distr.
    reflexivity. }
  rewrite Hn2, He2. cbn [orb]. unfold path2.
  rewrite !chars_append, Hc1. cbn [Py.chars list_ascii_of_string app].
  rewrite <- !app_assoc. reflexivity.
Qed.

Lemma split_name (P T : list ascii) :
  forallb (fun c => negb (Ascii.eqb c "."%char)) P = true ->
  forallb (fun c => negb (Ascii.eqb c "."%char)) T = true ->
  split_on_from "." []
    (Py.chars "page." ++ P ++ Py.chars ".table." ++ T ++ Py.chars ".csv")
  = ["page"; string_of_list_ascii P; "table"; string_of_list_ascii T; "csv"].
Proof.
  intros HP HT.
  change (Py.chars "page." ++ P ++ Py.chars ".table." ++ T ++ Py.chars ".csv")
    with (Py.chars "page" ++ "."%char
            :: (P ++ "."%char
                  :: (Py.chars "table" ++ "."%char
                        :: (T ++ "."%char :: Py.chars "csv")))).
  rewrite !split_on_from_app.
  rewrite (split_on_from_plain "." [] P HP), (split_on_from_plain "." [] T HT).
  reflexivity.
Qed.

Lemma free_of_append (c : ascii) (a b : string) :
  free_of c (a ++ b) = free_of c a && free_of c b.
Proof. unfold free_of. now rewrite chars_append, forallb_app. Qed.

(** X8: on a POSIX system [get_table_parts] reads back what
    [get_table_file] was given: for an article name that is not empty and
    holds no slash, and a page and a table number of at most 19 digits, the
    parts of the path built from them are the article, the page and the
    table number, whatever the directory. *)
Theorem table_file_round_trip (dir_ article : string) (page table : Z) :
  article <> EmptyString ->
  free_of "/" article = true ->
  - 10 ^ 19 < page < 10 ^ 19 ->
  - 10 ^ 19 < table < 10 ^ 19 ->
  get_table_parts "/" (get_table_file posix_join dir_ article page table)
  = Ok (article, page, table).
Proof.
  intros Hne Hfree Hpage Htable.
  destruct (str_of_int_pad_plain 3 page ltac:(lia) Hpage) as [Hpd Hps].
  destruct (str_of_int_pad_plain 2 table ltac:(lia) Htable) as [Htd Hts].
  unfold get_table_file.
  set (name := ("page." ++ str_of_int_pad 3 page
                  ++ ".table." ++ str_of_int_pad 2 table ++ ".csv")%string).
  assert (Hslash : free_of "/" name = true).
  { unfold name. rewrite !free_of_append, Hps, Hts. reflexivity. }
  destruct (posix_join_shape dir_ article name Hne Hfree eq_refl)
    as (pre & Hpre & Hchars).
  assert (Hitems : exists l0,
             split_on "/" (posix_join dir_ [article; "tables"; name])
             = l0 ++ [article; "tables"; name]).
  { unfold split_on. rewrite Hchars.
    assert (Htail : split_on_from "/" []
                      (Py.chars article ++ "/"%char :: Py.chars "tables"
                         ++ "/"%char :: Py.chars name)
                    = [article; "tables"; name]).
    { rewrite split_on_from_app.
      rewrite split_on_from_app.
      rewrite (split_on_from_plain "/" [] (Py.chars article) Hfree),
        (split_on_from_plain "/" [] (Py.chars name) Hslash),
        (split_on_from_plain "/" [] (Py.chars "tables") eq_refl).
      cbn [rev app]. now rewrite !string_of_chars. }
    destruct Hpre as [->|[pre' ->]].
    - exists []. exact Htail.
    - exists (split_on_from "/" [] pre').
      rewrite <- app_assoc. cbn [app].
      now rewrite split_on_from_app, Htail. }
  destruct Hitems as [l0 Hitems].
  unfold get_table_parts. cbv zeta. rewrite Hitems.
  rewrite (index_from_end_app l0 [article; "tables"; name] 3 article eq_refl)
    by (cbn; lia).
  rewrite (index_from_end_app l0 [article; "tables"; name] 1 name eq_refl)
    by (cbn; lia).
  cbn [bind]. unfold split_on, name. rewrite !chars_append.
  rewrite split_name by assumption.
  rewrite !string_of_chars.
  rewrite (int_of_str_pad 3 page ltac:(lia) Hpage),
    (int_of_str_pad 2 table ltac:(lia) Htable).
  reflexivity.
Qed.

Lemma table_file_round_trip_witness :
  "smith2001" <> EmptyString
  /\ free_of "/" "smith2001" = true
  /\ - 10 ^ 19 < 7 < 10 ^ 19
  /\ - 10 ^ 19 < -2 < 10 ^ 19
  /\ get_table_parts "/"
       (get_table_file posix_join "/data/pdf" "smith2001" 7 (-2))
     = Ok ("smith2001", 7, -2).
Proof.
  split; [discriminate|]. split; [reflexivity|].
  split; [lia|]. split; [lia|].
  apply table_file_round_trip.
  - discriminate.
  - reflexivity.
  - lia.
  - lia.
Defined.

Lemma int_of_str_cases (s : string) :
  int_of_str s = Unmodelled
  \/ int_of_str s = Raise ValueError
  \/ exists z, int_of_str s = Ok z.
Proof.
  unfold int_of_str. cbv zeta.
  generalize (rev (int_skip (rev (int_skip (Py.chars s))))). intros t.
  destruct (4300 <? List.length t)%nat; [now left|].
  right.
  destruct (match t with
            | [] => None
            | c :: t' =>
                if Ascii.eqb c "-"%char
                then option_map Z.opp (int_digits 0 false t')
                else if Ascii.eqb c "+"%char then int_digits 0 false t'
                     else int_digits 0 false t
            end) as [z|]; [right; now exists z | now left].
Qed.

(** X9: the errors of [get_table_parts].  It raises [IndexError] exactly
    when the path holds fewer than two separators; and when the path holds
    two or more, but the name after the last one does not hold exactly
    four dots, it raises [ValueError]. *)
Theorem get_table_parts_errors (sep : ascii) :
  (forall file : string,
      get_table_parts sep file = Raise IndexError
      <-> (count_char sep file < 2)%nat)
  /\ (forall dir_ name : string,
         (1 <= count_char sep dir_)%nat ->
         free_of sep name = true ->
         count_char "." name <> 4%nat ->
         get_table_parts sep (dir_ ++ String sep name) = Raise ValueError).
Proof.
  split.
  - intros file. unfold get_table_parts. cbv zeta.
    pose proof (split_on_length sep file) as Hlen.
    destruct (index_from_end_cases (split_on sep file) 3 ltac:(lia))
      as [[Hlt ->]|[Hge [a ->]]].
    + cbn [bind]. split; [lia | reflexivity].
    + destruct (index_from_end_cases (split_on sep file) 1 ltac:(lia))
        as [[Hlt _]|[_ [name ->]]]; [lia|].
      cbn [bind]. split; [|lia]. intros H. exfalso.
      destruct (split_on "." name) as [|x0 [|p [|x1 [|t [|x2 [|x3 l]]]]]];
        try discriminate H.
      destruct (int_of_str_cases p) as [Hp|[Hp|[z Hp]]]; rewrite Hp in H;
        try discriminate H.
      cbn [bind] in H.
      destruct (int_of_str_cases t) as [Ht|[Ht|[z' Ht]]]; rewrite Ht in H;
        discriminate H.
  - intros dir_ name Hdir Hname Hdots.
    unfold get_table_parts. cbv zeta.
    assert (Hitems : split_on sep (dir_ ++ String sep name)
                     = split_on sep dir_ ++ [name]).
    { unfold split_on. rewrite chars_append.
      cbn [Py.chars list_ascii_of_string]. fold (Py.chars name).
      rewrite split_on_from_app, (split_on_from_plain sep [] _ Hname).
      cbn [rev app]. now rewrite string_of_chars. }
    pose proof (split_on_length sep dir_) as Hlen.
    rewrite Hitems.
    destruct (index_from_end_cases (split_on sep dir_ ++ [name]) 3 ltac:(lia))
      as [[Hlt _]|[_ [a ->]]]; [rewrite length_app in Hlt; cbn in Hlt; lia|].
    rewrite (index_from_end_app (split_on sep dir_) [name] 1 name eq_refl)
      by (cbn; lia).
    cbn [bind].
    pose proof (split_on_length "." name) as Hn.
    destruct (split_on "." name) as [|x0 [|p [|x1 [|t [|x2 [|x3 l]]]]]];
      try reflexivity.
    cbn in Hn. lia.
Qed.

Lemma get_table_parts_errors_witness :
  (get_table_parts "/" "page.001.table.01.csv" = Raise IndexError
   <-> (count_char "/" "page.001.table.01.csv" < 2)%nat)
  /\ (1 <= count_char "/" "in/smith2001/tables")%nat
  /\ free_of "/" "notes.table.1.csv" = true
  /\ count_char "." "notes.table.1.csv" <> 4%nat
  /\ get_table_parts "/"
       ("in/smith2001/tables" ++ String "/" "notes.table.1.csv")
     = Raise ValueError.
Proof.
  split; [apply (proj1 (get_table_parts_errors "/"))|].
  split; [cbn; lia|]. split; [reflexivity|]. split; [cbn; lia|].
  apply (proj2 (get_table_parts_errors "/")).
  - cbn. lia.
  - reflexivity.
  - cbn. lia.
Defined.

(** *** The rows of the dataset *)

Lemma concat_columns_fst {A B : Type} (l : list A) (r : list B) :
  (List.length r <= List.length l)%nat ->
  map fst (concat_columns l r) = map Some l.
Proof.
  revert r. induction l as [|a l IH]; intros [|b r] H; cbn in H |- *;
    try reflexivity; try lia.
  - f_equal. rewrite map_map. cbn. reflexivity.
  - f_equal. apply IH. lia.
Qed.

Lemma concat_columns_snd {A B : Type} (l : list A) (r : list B) :
  (List.length r <= List.length l)%nat ->
  map snd (concat_columns l r)
  = map Some r ++ repeat None (List.length l - List.length r).
Proof.
  revert r. induction l as [|a l IH]; intros [|b r] H; cbn in H |- *;
    try reflexivity; try lia.
  - f_equal. rewrite map_map. cbn.
    clear. induction l as [|x l IH]; [reflexivity|]. cbn. now rewrite IH.
  - f_equal. apply IH. lia.
Qed.

Lemma nth_error_concat_columns {A B : Type} (l : list A) (r : list B)
      (i : nat) (a : A) (b : B) :
  nth_error l i = Some a -> nth_error r i = Some b ->
  nth_error (concat_columns l r) i = Some (Some a, Some b).
Proof.
  revert r i. induction l as [|x l IH]; intros r [|i] Ha Hb;
    destruct r as [|y r]; cbn in Ha, Hb |- *; try discriminate.
  - congruence.
  - now apply IH.
Qed.

Section DatasetProperties.

Variable os_path_join : string -> list string -> string.
Variable read_csv : string -> exn + DataFrame.

Lemma records_length (tables : list fragment) :
  List.length
    (flat_map (fun t => record_of (extract_one os_path_join read_csv t))
       tables)
  = List.length (filter (succeeds os_path_join read_csv) tables).
Proof.
  induction tables as [|t ts IH]; [reflexivity|].
  cbn [flat_map filter]. rewrite length_app, IH. unfold succeeds at 2.
  destruct (extract_one os_path_join read_csv t); reflexivity.
Qed.

Lemma records_all (tables : list fragment) :
  Forall (fun t => succeeds os_path_join read_csv t = true) tables ->
  List.length
    (flat_map (fun t => record_of (extract_one os_path_join read_csv t))
       tables)
  = List.length tables.
Proof.
  intros H. rewrite records_length. f_equal.
  induction H as [|t ts Ht _ IH]; [reflexivity|].
  cbn [filter]. now rewrite Ht, IH.
Qed.

Lemma dataset_spec (tables : list fragment) :
  dataset os_path_join read_csv tables
  = Ok (concat_columns tables
          (flat_map (fun t => record_of (extract_one os_path_join read_csv t))
             tables)).
Proof.
  unfold dataset, run. rewrite extract_all_spec. reflexivity.
Qed.

(** X10: the dataset that is written keeps one row per fragment, in the
    order of the input; its feature columns hold the records of the
    fragments whose extraction succeeded, in that order and from the first
    row on, followed by one empty row per failure. *)
Theorem dataset_rows (tables : list fragment) :
  exists rows : list (option fragment * option OrderedDict.t),
    dataset os_path_join read_csv tables = Ok rows
    /\ map fst rows = map Some tables
    /\ map snd rows
       = map Some
           (flat_map (fun t => record_of (extract_one os_path_join read_csv t))
              (filter (succeeds os_path_join read_csv) tables))
         ++ repeat None
              (List.length
                 (filter (fun t => negb (succeeds os_path_join read_csv t))
                    tables)).
Proof.
  rewrite dataset_spec. eexists. split; [reflexivity|].
  assert (Hlen : (List.length
                    (flat_map
                       (fun t => record_of
                                   (extract_one os_path_join read_csv t))
                       tables)
                  <= List.length tables)%nat).
  { rewrite records_length. apply filter_length_le. }
  split; [now apply concat_columns_fst|].
  rewrite (concat_columns_snd _ _ Hlen), records_length. f_equal.
  - f_equal. clear Hlen. induction tables as [|t ts IH]; [reflexivity|].
    cbn [flat_map filter]. unfold succeeds at 1.
    destruct (extract_one os_path_join read_csv t) eqn:E;
      cbn [record_of app flat_map]; rewrite ?E; cbn [record_of app];
      now rewrite IH.
  - f_equal. clear Hlen. induction tables as [|t ts IH]; [reflexivity|].
    cbn [filter List.length].
    destruct (succeeds os_path_join read_csv t); cbn [negb List.length].
    + pose proof (filter_length_le (succeeds os_path_join read_csv) ts). lia.
    + pose proof (filter_length_le (succeeds os_path_join read_csv) ts). lia.
Qed.

(** X11: a failure shifts the features of all later fragments: when the
    fragments before [t] succeed, [t] fails and the next fragment [t']
    succeeds with the record [r'], the row of [t] in the dataset carries
    [r'], the features of [t']. *)
Theorem failure_shifts_features
        (pre post : list fragment) (t t' : fragment) (r' : OrderedDict.t) :
  Forall (fun u => succeeds os_path_join read_csv u = true) pre ->
  succeeds os_path_join read_csv t = false ->
  extract_one os_path_join read_csv t' = Ok r' ->
  exists rows : list (option fragment * option OrderedDict.t),
    dataset os_path_join read_csv (pre ++ t :: t' :: post) = Ok rows
    /\ nth_error rows (List.length pre) = Some (Some t, Some r').
Proof.
  intros Hpre Ht Ht'. rewrite dataset_spec. eexists. split; [reflexivity|].
  apply nth_error_concat_columns.
  - rewrite nth_error_app2 by lia. now rewrite Nat.sub_diag.
  - rewrite flat_map_app. cbn [flat_map].
    rewrite nth_error_app2 by (rewrite (records_all pre Hpre); lia).
    rewrite (records_all pre Hpre), Nat.sub_diag.
    unfold succeeds in Ht.
    destruct (extract_one os_path_join read_csv t); [discriminate Ht| |];
      cbn [record_of app]; now rewrite Ht'.
Qed.

End DatasetProperties.

Lemma failure_shifts_features_witness :
  Forall (fun u => succeeds posix_join (one_missing "a") u = true) []
  /\ succeeds posix_join (one_missing "a")
       {| article := "a"; page := 1; table := 1 |} = false
  /\ exists r' : OrderedDict.t,
      extract_one posix_join (one_missing "a")
        {| article := "b"; page := 1; table := 1 |} = Ok r'
      /\ exists rows : list (option fragment * option OrderedDict.t),
          dataset posix_join (one_missing "a")
            ([] ++ [{| article := "a"; page := 1; table := 1 |};
                    {| article := "b"; page := 1; table := 1 |}])
          = Ok rows
          /\ nth_error rows 0
             = Some (Some {| article := "a"; page := 1; table := 1 |},
                     Some r').
Proof.
  split; [constructor|]. split; [vm_compute; reflexivity|].
  eexists. split; [vm_compute; reflexivity|].
  apply (failure_shifts_features posix_join (one_missing "a") [] []
           {| article := "a"; page := 1; table := 1 |}
           {| article := "b"; page := 1; table := 1 |}).
  - constructor.
  - vm_compute; reflexivity.
  - vm_compute; reflexivity.
Defined.

(** C9 fails on the code: a fragment that fails is not left out of the
    output.  With two fragments, the first of which has a grid of empty
    cells, extraction fails on the first with [ZeroDivisionError] and is
    logged, the second gives a record, and the dataset built from the
    fragments and [feature_list] keeps the row of the first fragment, now
    with the record of the second, and leaves the row of the second
    without features. *)
Theorem failed_fragment_row_kept :
  exists rb : OrderedDict.t,
    get_table_features {| width := 2; rows := [[EmptyString; EmptyString]] |}
    = Raise ZeroDivisionError
    /\ get_table_features {| width := 1; rows := [["12"]] |} = Ok rb
    /\ run posix_join (one_blank "a")
         [ {| article := "a"; page := 1; table := 1 |};
           {| article := "b"; page := 1; table := 1 |} ]
       = Ok {| feature_list := [rb];
               log := ["Failed to extract features for table a p.1 t.1"] |}
    /\ dataset posix_join (one_blank "a")
         [ {| article := "a"; page := 1; table := 1 |};
           {| article := "b"; page := 1; table := 1 |} ]
       = Ok [ (Some {| article := "a"; page := 1; table := 1 |}, Some rb);
              (Some {| article := "b"; page := 1; table := 1 |}, None) ].
Proof.
  eexists. split; [vm_compute; reflexivity|].
  split; [vm_compute; reflexivity|].
  split; vm_compute; reflexivity.
Qed.

(** *** Words without special characters *)

Lemma parse_plain_char (c : ascii) (rest : list ascii) (cur : Re.frame)
      (stack : list Re.frame) :
  is_special c = false ->
  Re.parse (c :: rest) cur stack
  = Re.parse rest (Re.push (Re.Literal c) cur) stack.
Proof.
  destruct c as [[] [] [] [] [] [] [] []]; intros H;
    first [discriminate H | reflexivity].
Qed.

Lemma parse_plain (w rest : list ascii) (cur : Re.frame)
      (stack : list Re.frame) :
  forallb (fun c => negb (is_special c)) w = true ->
  Re.parse (w ++ rest) cur stack
  = Re.parse rest
      {| Re.branches := Re.branches cur;
         Re.items := rev (map Re.Literal w) ++ Re.items cur |}
      stack.
Proof.
  revert cur. induction w as [|c w IH]; intros cur H.
  - now destruct cur.
  - cbn [forallb] in H. apply andb_true_iff in H. destruct H as [Hc Hw].
    apply negb_true_iff in Hc.
    cbn [app]. rewrite (parse_plain_char c _ _ _ Hc), (IH _ Hw).
    cbn [Re.push Re.branches Re.items map rev].
    now rewrite <- app_assoc.
Qed.

(** The pattern of a plain word compiles. *)
Lemma compile_plain (word : string) (me ic : bool) :
  plain_word word = true ->
  Re.compile (word_pattern word me) ic = Ok (plain_pattern word me ic).
Proof.
  intros H. unfold Re.compile, word_pattern, plain_pattern.
  rewrite !chars_append.
  change (Py.chars "\b" ++ Py.chars word
            ++ Py.chars (if me then "\b" else EmptyString))
    with ("\"%char :: "b"%char
            :: (Py.chars word
                  ++ Py.chars (if me then "\b" else EmptyString))).
  cbn [Re.parse Re.escape]. rewrite (parse_plain _ _ _ _ H).
  cbn [Re.push Re.branches Re.items Re.empty_frame].
  destruct me; reflexivity.
Qed.

Lemma char_eq_spec (ic : bool) (c t : ascii) :
  Re.char_eq ic c t = true <-> same_char ic c t.
Proof. unfold Re.char_eq, same_char. destruct ic; apply Ascii.eqb_eq. Qed.

Lemma word_at_spec (s : list ascii) (i : nat) :
  Re.word_at s i = true <-> word_char s i.
Proof.
  unfold Re.word_at, word_char. split.
  - destruct (nth_error s i) as [t|]; [|discriminate]. intros H. now exists t.
  - intros (t & -> & H). exact H.
Qed.

Lemma word_before_spec (s : list ascii) (i : nat) :
  Re.word_before s i = true <-> exists j, i = S j /\ word_char s j.
Proof.
  destruct i as [|j]; cbn [Re.word_before].
  - split; [discriminate | intros (j & H & _); discriminate H].
  - rewrite word_at_spec. split.
    + intros H. now exists j.
    + intros (j' & E & H). now injection E as ->.
Qed.

Lemma boundary_spec (s : list ascii) (i : nat) :
  Re.at_holds s Re.AtBoundary i = true <-> word_boundary s i.
Proof.
  cbn [Re.at_holds]. unfold word_boundary.
  pose proof (word_at_spec s i) as Ha.
  pose proof (word_before_spec s i) as Hb.
  assert (HnB : (forall j, i = S j -> ~ word_char s j)
                <-> ~ (exists j, i = S j /\ word_char s j)).
  { split.
    - intros H (j & E & Hj). exact (H j E Hj).
    - intros H j E Hj. apply H. now exists j. }
  rewrite HnB.
  destruct (Re.word_before s i), (Re.word_at s i); cbn [xorb];
    intuition (try discriminate; auto).
Qed.

Section PlainWords.

Variable ic : bool.
Variable s : list ascii.

Lemma matches_fold (its : list Re.re) (acc : Re.re) (i j : nat) :
  Matches ic s
    (fold_left (fun acc it => match acc with
                              | Re.Empty => it
                              | _ => Re.Seq it acc
                              end) its acc) i j
  <-> matches_list ic s (rev its ++ [acc]) i j.
Proof.
  revert acc i j. induction its as [|it its IH]; intros acc i j.
  - cbn. split.
    + intros H. exists j. now split.
    + intros (k & H & ->). exact H.
  - cbn [fold_left rev]. rewrite IH, <- app_assoc. cbn [app].
    generalize (rev its). intros l. revert i.
    induction l as [|r l IHl]; intros i; cbn [app matches_list].
    + split.
      * intros (k & H & ->).
        destruct acc; cbn [Matches] in H;
          try (destruct H as (m & H1 & H2); exists m; split; [exact H1|];
               exists k; now split).
        exists k. split; [exact H|]. exists k. split; reflexivity.
      * intros (m & H1 & k & H2 & ->). exists k. split; [|reflexivity].
        destruct acc; cbn [Matches];
          try (exists m; now split).
        cbn [Matches] in H2. now subst.
    + split; intros (k & H1 & H2); exists k; (split; [exact H1|]);
        now apply IHl.
Qed.

Lemma matches_literals (w : list ascii) (tl : list Re.re) (i j : nat) :
  matches_list ic s (map Re.Literal w ++ tl) i j
  <-> occurs_at ic s w i /\ matches_list ic s tl (i + List.length w) j.
Proof.
  revert i. induction w as [|c w IH]; intros i.
  - cbn [map app List.length]. rewrite Nat.add_0_r. split.
    + intros H. split; [|exact H]. intros [|k] c H'; discriminate H'.
    + now intros [_ H].
  - cbn [map app matches_list List.length Matches]. split.
    + intros (k & (-> & t & Ht & Hc) & H). apply IH in H.
      destruct H as [Hocc H]. split.
      * intros [|n] x Hx; cbn in Hx.
        -- injection Hx as <-. exists t. rewrite Nat.add_0_r.
           split; [exact Ht | now apply char_eq_spec].
        -- rewrite Nat.add_succ_r. now apply Hocc.
      * now rewrite Nat.add_succ_r.
    + intros [Hocc H]. exists (S i). split.
      * split; [reflexivity|].
        destruct (Hocc 0%nat c eq_refl) as (t & Ht & Hc).
        rewrite Nat.add_0_r in Ht. exists t.
        split; [exact Ht | now apply char_eq_spec].
      * apply IH. split.
        -- intros k x Hx. specialize (Hocc (S k) x Hx).
           now rewrite Nat.add_succ_r in Hocc.
        -- now rewrite Nat.add_succ_r in H.
Qed.

Lemma boundary_in_range (i : nat) :
  Re.at_holds s Re.AtBoundary i = true -> (i <= List.length s)%nat.
Proof.
  cbn [Re.at_holds]. intros H.
  destruct (Nat.le_gt_cases i (List.length s)) as [Hle|Hgt]; [exact Hle|].
  exfalso. destruct i as [|i]; [lia|].
  cbn [Re.word_before] in H. unfold Re.word_at in H.
  rewrite (proj2 (nth_error_None s (S i))) in H by lia.
  rewrite (proj2 (nth_error_None s i)) in H by lia.
  discriminate H.
Qed.

Lemma plain_expr_matches (me : bool) (w : list ascii) :
  (exists i j : nat,
      (i <= List.length s)%nat
      /\ Matches ic s
           (Re.seq_of
              ((if me then [Re.At Re.AtBoundary] else [])
                 ++ rev (map Re.Literal w) ++ [Re.At Re.AtBoundary]))
           i j)
  <-> word_found ic s me w.
Proof.
  unfold Re.seq_of, word_found.
  assert (Hrev : rev ((if me then [Re.At Re.AtBoundary] else [])
                        ++ rev (map Re.Literal w) ++ [Re.At Re.AtBoundary])
                 = Re.At Re.AtBoundary
                     :: map Re.Literal w
                     ++ (if me then [Re.At Re.AtBoundary] else [])).
  { rewrite !rev_app_distr, rev_involutive. cbn [rev app].
    now destruct me. }
  split.
  - intros (i & j & Hi & H). apply matches_fold in H. rewrite Hrev in H.
    cbn [app matches_list Matches] in H.
    destruct H as (k & (-> & Hb) & H).
    rewrite <- app_assoc in H. apply matches_literals in H.
    destruct H as [Hocc H]. exists i.
    split; [now apply boundary_spec|].
    split; [exact Hocc|]. intros ->.
    cbn [app matches_list Matches] in H.
    destruct H as (k & (-> & Hb') & _). now apply boundary_spec.
  - intros (i & Hb & Hocc & Hend). apply boundary_spec in Hb.
    exists i, (i + List.length w)%nat.
    split; [now apply boundary_in_range|].
    apply matches_fold. rewrite Hrev. cbn [app matches_list Matches].
    exists i. split; [now split|].
    rewrite <- app_assoc. apply matches_literals. split; [exact Hocc|].
    destruct me; cbn [app matches_list Matches].
    + exists (i + List.length w)%nat. split.
      * split; [reflexivity|]. apply boundary_spec. now apply Hend.
      * exists (i + List.length w)%nat. now split.
    + exists (i + List.length w)%nat. now split.
Qed.

End PlainWords.

Lemma plain_has_match (word : string) (me ic : bool) (c : string) :
  Re.has_match (plain_pattern word me ic) c = true
  <-> word_found ic (Py.chars c) me (Py.chars word).
Proof.
  rewrite has_match_spec. unfold contains_match, plain_pattern.
  cbn [Re.expr Re.ignorecase]. apply plain_expr_matches.
Qed.

Lemma is_word_in_plain_value (word : string) (cs me : bool)
      (cells : list string) :
  plain_word word = true ->
  is_word_in word cells cs me
  = Ok (existsb (Re.has_match (plain_pattern word me (negb cs))) cells).
Proof.
  intros H. apply is_word_in_compiled. now apply compile_plain.
Qed.

(** X13: for a word without special characters [is_word_in] never raises,
    and it is true exactly when, in some cell, the characters of the word
    (compared up to case unless [case_sensitive]) stand from a word
    boundary on, and up to a word boundary when [match_end] is set. *)
Theorem is_word_in_plain (word : string) (cs me : bool)
        (cells : list string) :
  plain_word word = true ->
  exists b : bool,
    is_word_in word cells cs me = Ok b
    /\ (b = true
        <-> exists c, In c cells
                      /\ word_found (negb cs) (Py.chars c) me (Py.chars word)).
Proof.
  intros H. rewrite (is_word_in_plain_value word cs me cells H).
  eexists. split; [reflexivity|].
  rewrite existsb_exists. split.
  - intros (c & Hin & Hm). exists c. split; [exact Hin|].
    now apply plain_has_match.
  - intros (c & Hin & Hf). exists c. split; [exact Hin|].
    now apply plain_has_match.
Qed.

Lemma is_word_in_plain_witness :
  plain_word "RC14" = true
  /\ exists b : bool,
      is_word_in "RC14" ["sample rc14 dated"] false true = Ok b
      /\ (b = true
          <-> exists c, In c ["sample rc14 dated"]
                        /\ word_found (negb false) (Py.chars c) true
                             (Py.chars "RC14")).
Proof.
  split; [reflexivity|].
  apply (is_word_in_plain "RC14" false true ["sample rc14 dated"]).
  reflexivity.
Defined.

Lemma same_char_ignorecase (c t : ascii) :
  same_char false c t -> same_char true c t.
Proof. cbn. now intros ->. Qed.

Lemma existsb_impl {A : Type} (f g : A -> bool) (l : list A) :
  (forall a, f a = true -> g a = true) ->
  existsb f l = true -> existsb g l = true.
Proof.
  intros H. rewrite !existsb_exists. intros (a & Hin & Ha).
  exists a. split; [exact Hin | now apply H].
Qed.

(** X14: the flags only widen what a plain word finds: a word found with
    [match_end] is found without it, and a word found with
    [case_sensitive] is found without it. *)
Theorem is_word_in_flags (word : string) (cs me : bool)
        (cells : list string) :
  plain_word word = true ->
  (is_word_in word cells cs true = Ok true ->
   is_word_in word cells cs false = Ok true)
  /\ (is_word_in word cells true me = Ok true ->
      is_word_in word cells false me = Ok true).
Proof.
  intros H. rewrite !(is_word_in_plain_value word _ _ cells H).
  split; intros Ht; injection Ht as Ht; f_equal; revert Ht;
    apply existsb_impl; intros c Hc; apply plain_has_match;
    apply plain_has_match in Hc; destruct Hc as (i & Hbd & Hocc & Hend);
    exists i; (split; [exact Hbd|]).
  - split; [exact Hocc | discriminate].
  - split; [|exact Hend].
    intros k x Hx. destruct (Hocc k x Hx) as (t & Ht' & Hs).
    exists t. split; [exact Ht'|]. now apply same_char_ignorecase.
Qed.

Lemma is_word_in_flags_witness :
  plain_word "BP" = true
  /\ is_word_in "BP" ["12000 BP"] true true = Ok true
  /\ is_word_in "BP" ["12000 BP"] true false = Ok true
  /\ is_word_in "BP" ["12000 BP"] false true = Ok true.
Proof.
  assert (H : is_word_in "BP" ["12000 BP"] true true = Ok true)
    by (vm_compute; reflexivity).
  split; [reflexivity|]. split; [exact H|].
  split.
  - exact (proj1 (is_word_in_flags "BP" true true ["12000 BP"] eq_refl) H).
  - exact (proj2 (is_word_in_flags "BP" true true ["12000 BP"] eq_refl) H).
Defined.

(** *** The rule, in whole numbers *)

Lemma Zdigits2_pos_bounds (p : positive) :
  2 ^ (Zdigits2 (Zpos p) - 1) <= Zpos p < 2 ^ Zdigits2 (Zpos p).
Proof.
  cbn [Zdigits2]. pose proof (digits2_pos_bounds p) as [Hlo Hhi].
  assert (E : 2 ^ Zpos (digits2_pos p) = 2 * 2 ^ (Zpos (digits2_pos p) - 1)).
  { rewrite <- Z.pow_succ_r by lia. f_equal. lia. }
  lia.
Qed.

Lemma Zdigits2_gt (m k : Z) : 0 <= k -> 2 ^ k <= m -> k < Zdigits2 m.
Proof.
  intros Hk Hm. assert (0 < 2 ^ k) by (apply Z.pow_pos_nonneg; lia).
  destruct m as [|p|p]; try lia.
  pose proof (Zdigits2_pos_bounds p) as [_ Hhi].
  destruct (Z_lt_ge_dec k (Zdigits2 (Zpos p))) as [|Hge]; [assumption|].
  exfalso.
  assert (2 ^ Zdigits2 (Zpos p) <= 2 ^ k) by (apply Z.pow_le_mono_r; lia).
  lia.
Qed.

(** The quotient that the division computes before rounding has at least
    as many digits as the precision asks for. *)
Lemma div_core_digits (a b : positive) :
  let '(q, e', l) :=
    SFdiv_core_binary F64.prec F64.emax (Zpos a) 0 (Zpos b) 0 in
  -1074 <= e' /\ e' <= fexp F64.prec F64.emax (Zdigits2 q + e').
Proof.
  unfold SFdiv_core_binary.
  set (d1 := Zdigits2 (Zpos a)). set (d2 := Zdigits2 (Zpos b)).
  set (e' := Z.min _ _).
  assert (He' : e' = Z.min (Z.max (d1 - d2 - 53) (-1074)) 0)
    by (unfold e'; rewrite fexp_unfold; lia).
  set (m' := match 0 - 0 - e' with
             | Z0 => Zpos a
             | Zpos _ => Z.shiftl (Zpos a) (0 - 0 - e')
             | Zneg _ => 0
             end).
  assert (Hm' : m' = Zpos a * 2 ^ (- e')).
  { unfold m'. replace (0 - 0 - e') with (- e') by lia.
    destruct (- e') as [|p|p] eqn:E; [|now rewrite Z.shiftl_mul_pow2 by lia|lia].
    now rewrite Z.mul_1_r. }
  pose proof (Z_div_mod m' (Zpos b) eq_refl) as H.
  destruct (Z.div_eucl m' (Zpos b)) as [q r]. destruct H as [Hq Hr].
  split; [lia|]. rewrite fexp_unfold.
  destruct (Z_le_gt_dec e' (-1074)) as [|Hgt]; [lia|].
  pose proof (Zdigits2_pos_bounds a) as [Ha _]. fold d1 in Ha.
  pose proof (Zdigits2_pos_bounds b) as [Hb1 Hb]. fold d2 in Hb, Hb1.
  assert (Hd1 : 1 <= d1) by (unfold d1; cbn; lia).
  assert (Hd2 : 1 <= d2) by (unfold d2; cbn; lia).
  set (k := d1 - 1 - e' - d2).
  assert (Hk : 52 <= k) by (unfold k; lia).
  assert (Hpow : 2 ^ (d1 - 1) * 2 ^ (- e') = 2 ^ k * 2 ^ d2).
  { rewrite <- !Z.pow_add_r by lia. f_equal. unfold k. lia. }
  assert (Hp1 : 0 < 2 ^ (- e')) by (apply Z.pow_pos_nonneg; lia).
  assert (Hp2 : 0 < 2 ^ k) by (apply Z.pow_pos_nonneg; lia).
  assert (Hp3 : 0 < 2 ^ d2) by (apply Z.pow_pos_nonneg; lia).
  assert (Hq2 : 2 ^ k <= q).
  { assert (2 ^ k * 2 ^ d2 <= m') by nia.
    destruct (Z_le_gt_dec (2 ^ k) q) as [|Hlt]; [assumption|]. exfalso.
    assert (Zpos b * (q + 1) <= Zpos b * 2 ^ k) by nia. nia. }
  pose proof (Zdigits2_gt q k ltac:(lia) Hq2). unfold k in *. lia.
Qed.

(** What a shift to the format leaves: the exponent of the format, and a
    mantissa with all its digits unless the exponent is the least one. *)
Lemma shr_fexp_canon (m e : Z) (l : location) :
  0 <= m ->
  e <= fexp F64.prec F64.emax (Zdigits2 m + e) ->
  let mrs := fst (shr_fexp F64.prec F64.emax m e l) in
  let e' := snd (shr_fexp F64.prec F64.emax m e l) in
  Zdigits2 (shr_m mrs) <= 53
  /\ (Zdigits2 (shr_m mrs) = 53 \/ e' = -1074).
Proof.
  intros Hm He. unfold shr_fexp. rewrite shr_nat. cbn [fst snd].
  rewrite fexp_unfold in *.
  rewrite Zdigits2_shr_iter by (rewrite shr_record_of_loc_m; exact Hm).
  rewrite shr_record_of_loc_m.
  pose proof (Zdigits2_nonneg m). lia.
Qed.

Lemma Zdigits2_mono (m n : Z) : 0 <= m <= n -> Zdigits2 m <= Zdigits2 n.
Proof.
  intros [Hm Hn]. destruct m as [|p|p]; [apply Zdigits2_nonneg| |lia].
  pose proof (Zdigits2_pos_bounds p) as [Hlo _].
  assert (Hd : 1 <= Zdigits2 (Zpos p)) by (cbn; lia).
  pose proof (Zdigits2_gt n (Zdigits2 (Zpos p) - 1) ltac:(lia) ltac:(lia)).
  lia.
Qed.

(** Two sides of an inequality can be scaled by the same power of two. *)
Lemma pow_scale_up (X Y p q d : Z) :
  0 <= p -> 0 <= q -> 0 <= d ->
  X * 2 ^ (p + d) <= Y * 2 ^ (q + d) <-> X * 2 ^ p <= Y * 2 ^ q.
Proof.
  intros Hp Hq Hd. rewrite !Z.pow_add_r, !Z.mul_assoc by lia.
  assert (0 < 2 ^ d) by (apply Z.pow_pos_nonneg; lia).
  symmetry. now apply Z.mul_le_mono_pos_r.
Qed.

Lemma pow_scale (X Y p q d : Z) (p' q' : Z) :
  0 <= p -> 0 <= q -> 0 <= p' -> 0 <= q' -> p' = p + d -> q' = q + d ->
  (X * 2 ^ p' <= Y * 2 ^ q' <-> X * 2 ^ p <= Y * 2 ^ q)
  /\ (Y * 2 ^ q' <= X * 2 ^ p' <-> Y * 2 ^ q <= X * 2 ^ p).
Proof.
  intros Hp Hq Hp' Hq' E1 E2.
  destruct (Z_le_gt_dec 0 d) as [Hd|Hd].
  - subst p' q'. split; now apply pow_scale_up.
  - assert (E1' : p = p' + - d) by lia. assert (E2' : q = q' + - d) by lia.
    rewrite E1', E2'.
    split; symmetry; apply pow_scale_up; lia.
Qed.

(** The quotient of two positive integers, as a float: its mantissa and
    its exponent are those of the format, and every whole multiple of the
    unit in the last place that is below (above) the exact quotient is
    below (above) the result. *)
Lemma div_canonical (a b : positive) :
  Zpos a < 2 ^ 53 * Zpos b ->
  exists m e : Z,
    F64.div (F64.exact (Zpos a)) (F64.exact (Zpos b))
    = match m with
      | Z0 => S754_zero false
      | Zpos p => S754_finite false p e
      | Zneg _ => S754_nan
      end
    /\ 0 <= m < 2 ^ 53 /\ -1074 <= e <= 1
    /\ (2 ^ 52 <= m \/ e = -1074)
    /\ forall K n : Z,
        0 <= n -> 0 <= e + n ->
        (K * Zpos b * 2 ^ (e + n) <= Zpos a * 2 ^ n -> K <= m)
        /\ (Zpos a * 2 ^ n <= K * Zpos b * 2 ^ (e + n) -> m <= K).
Proof.
  intros Hlt. unfold F64.div, F64.exact, SFdiv. cbn [xorb].
  pose proof (div_core_bracket a b) as H.
  pose proof (div_core_digits a b) as Hdig.
  destruct (SFdiv_core_binary F64.prec F64.emax (Zpos a) 0 (Zpos b) 0)
    as [[mz ez] lz].
  destruct H as [Hez Hbr]. destruct Hdig as [Hez' Hfz].
  assert (Hp : 0 < 2 ^ (- ez)) by (apply Z.pow_pos_nonneg; lia).
  set (A := Zpos a * 2 ^ (- ez)) in *. set (B := Zpos b) in *.
  assert (HB : 0 < B) by (unfold B; lia).
  assert (HA : A < 2 ^ (53 - ez) * B).
  { replace (53 - ez) with (53 + - ez) by lia.
    rewrite Z.pow_add_r by lia. unfold A. nia. }
  pose proof Hbr as (Hmz & _).  rewrite shr_record_of_loc_m in Hmz.
  pose proof (shr_fexp_first A B mz ez lz HB Hez Hbr HA) as H1.
  pose proof (shr_fexp_canon mz ez lz Hmz Hfz) as C1.
  cbv zeta in H1, C1. unfold binary_round_aux.
  destruct (shr_fexp F64.prec F64.emax mz ez lz) as [mrs1 e1].
  cbn [fst snd] in H1, C1. destruct H1 as (He1 & He1' & Hbr1 & Hf1).
  destruct C1 as [Hd1 Hc1].
  destruct Hbr1 as (Hm1 & Hb1 & Hx1).
  pose proof (round_nearest_even_cases (shr_m mrs1) (loc_of_shr_record mrs1))
    as [Hex Hcases].
  set (m2 := round_nearest_even (shr_m mrs1) (loc_of_shr_record mrs1)) in *.
  assert (Hm2 : 0 <= shr_m mrs1 <= m2) by lia.
  assert (Hf2 : e1 <= fexp F64.prec F64.emax (Zdigits2 m2 + e1)).
  { rewrite fexp_unfold. pose proof (Zdigits2_mono _ _ Hm2). lia. }
  pose proof (shr_fexp_second (shr_m mrs1) m2 e1 Hm1 He1' Hf1 Hcases) as H2.
  pose proof (shr_fexp_canon m2 e1 loc_Exact ltac:(lia) Hf2) as C2.
  cbv zeta in H2, C2.
  destruct (shr_fexp F64.prec F64.emax m2 e1 loc_Exact) as [mrs2 e2].
  cbn [fst snd] in H2, C2. destruct H2 as (Hm3 & He2 & Em2).
  destruct C2 as [Hd2 Hc2].
  exists (shr_m mrs2), e2. split.
  { destruct (shr_m mrs2); try reflexivity.
    replace (e2 <=? F64.emax - F64.prec) with true; [reflexivity|].
    symmetry. apply Z.leb_le. unfold F64.emax, F64.prec. lia. }
  assert (Hlt3 : shr_m mrs2 < 2 ^ 53).
  { destruct (shr_m mrs2) as [|p|p] eqn:E; try lia.
    pose proof (Zdigits2_pos_bounds p) as [_ Hhi].
    assert (2 ^ Zdigits2 (Z.pos p) <= 2 ^ 53)
      by (apply Z.pow_le_mono_r; lia).
    lia. }
  split; [lia|]. split; [lia|]. split.
  { destruct Hc2 as [Hc2|Hc2]; [left|now right].
    destruct (shr_m mrs2) as [|p|p] eqn:E; try (cbn in Hc2; lia).
    pose proof (Zdigits2_pos_bounds p) as [Hlo _].
    rewrite Hc2 in Hlo. exact Hlo. }
  intros K n Hn Hen.
  set (B1 := B * 2 ^ (e1 - ez)) in *.
  assert (HB1 : 0 < B1).
  { apply Z.mul_pos_pos; [exact HB | apply Z.pow_pos_nonneg; lia]. }
  set (T := 2 ^ (e2 - e1)) in *.
  assert (HT : 0 < T) by (apply Z.pow_pos_nonneg; lia).
  assert (Hscale : (K * B * 2 ^ (e2 + n) <= Zpos a * 2 ^ n
                    <-> K * T * B1 <= A)
                   /\ (Zpos a * 2 ^ n <= K * B * 2 ^ (e2 + n)
                       <-> A <= K * T * B1)).
  { assert (E3 : K * T * B1 = K * B * 2 ^ (e2 - ez)).
    { unfold T, B1. replace (e2 - ez) with ((e2 - e1) + (e1 - ez)) by lia.
      rewrite Z.pow_add_r by lia. ring. }
    rewrite E3. unfold A.
    apply (pow_scale (K * B) (Zpos a) (e2 - ez) (- ez) (n + ez)); lia. }
  destruct Hscale as [S1 S2]. fold B. rewrite S1, S2. split.
  - intros H.
    assert (H' : K * T * B1 < (shr_m mrs1 + 1) * B1) by lia.
    apply (Z.mul_lt_mono_pos_r B1 _ _ HB1) in H'.
    assert (H3 : K * T <= shr_m mrs2 * T) by lia.
    now apply (Z.mul_le_mono_pos_r _ _ T HT) in H3.
  - intros H.
    assert (H' : shr_m mrs1 * B1 <= K * T * B1) by lia.
    apply (Z.mul_le_mono_pos_r _ _ B1 HB1) in H'.
    assert (H3 : shr_m mrs2 * T <= K * T).
    { rewrite <- Em2.
      destruct (Z.eq_dec (shr_m mrs1) (K * T)) as [E|NE]; [|lia].
      assert (HAeq : A = shr_m mrs1 * B1) by (rewrite E; lia).
      apply Hx1 in HAeq. apply loc_of_shr_record_exact in HAeq.
      rewrite (Hex HAeq). lia. }
    now apply (Z.mul_le_mono_pos_r _ _ T HT) in H3.
Qed.

Lemma lit_5_float : F64.lit_5 = S754_finite false 5629499534213120 (-50).
Proof. reflexivity. Qed.

Lemma compare_cont_lt (x y : positive) :
  match PosDef.Pos.compare_cont Eq x y with
  | Lt => true
  | _ => false
  end = true ->
  Zpos x < Zpos y.
Proof.
  intros H. change (Zpos x < Zpos y) with ((x ?= y)%positive = Lt).
  change ((x ?= y)%positive) with (PosDef.Pos.compare_cont Eq x y).
  destruct (PosDef.Pos.compare_cont Eq x y);
    first [reflexivity | discriminate H].
Qed.

(** A quotient above the float [0.1] is above one tenth. *)
Lemma ltb_tenth_div (a b : positive) :
  Zpos a <= Zpos b ->
  F64.ltb F64.lit_0_1 (F64.div (F64.exact (Zpos a)) (F64.exact (Zpos b)))
  = true ->
  Zpos b < 10 * Zpos a.
Proof.
  intros Hab Hlt.
  destruct (Z_lt_ge_dec (Zpos b) (10 * Zpos a)) as [|Hge]; [assumption|].
  exfalso.
  destruct (div_canonical a b ltac:(lia)) as (m & e & Hx & Hm & He & Hc & Hk).
  rewrite Hx in Hlt.
  destruct m as [|p|p]; [discriminate Hlt| |discriminate Hlt].
  unfold F64.ltb, SFltb, F64.lit_0_1, SFcompare in Hlt.
  destruct (Z.compare_spec (-56) e) as [E0|Hlt'|Hgt]; [| |discriminate Hlt].
  - subst e. apply compare_cont_lt in Hlt.
    destruct (Hk 7205759403792794 56 ltac:(lia) ltac:(lia)) as [_ Hhi].
    change (2 ^ (-56 + 56)) with 1 in Hhi. lia.
  - assert (Hm52 : 2 ^ 52 <= Zpos p) by lia.
    destruct (Hk (2 ^ 52 - 1) 55 ltac:(lia) ltac:(lia)) as [_ Hhi].
    assert (HQ : 1 <= 2 ^ (e + 55)).
    { change 1 with (2 ^ 0). apply Z.pow_le_mono_r; lia. }
    revert Hhi HQ. generalize (2 ^ (e + 55)). intros Q Hhi HQ.
    assert ((2 ^ 52 - 1) * Zpos b * 1 <= (2 ^ 52 - 1) * Zpos b * Q)
      by (apply Z.mul_le_mono_nonneg_l; lia).
    lia.
Qed.

(** A quotient below the float [5.0] is below five. *)
Lemma ltb_div_five (a b : positive) :
  Zpos a < 2 ^ 53 * Zpos b ->
  F64.ltb (F64.div (F64.exact (Zpos a)) (F64.exact (Zpos b))) F64.lit_5
  = true ->
  Zpos a < 5 * Zpos b.
Proof.
  intros Hab Hlt.
  destruct (Z_lt_ge_dec (Zpos a) (5 * Zpos b)) as [|Hge]; [assumption|].
  exfalso.
  destruct (div_canonical a b Hab) as (m & e & Hx & Hm & He & Hc & Hk).
  rewrite Hx, lit_5_float in Hlt.
  destruct m as [|p|p]; [| |discriminate Hlt].
  - destruct (Z_le_gt_dec e 0) as [Hle|Hgt].
    + destruct (Hk 1 (- e) ltac:(lia) ltac:(lia)) as [Hlo _].
      replace (e + - e) with 0 in Hlo by lia.
      assert (HQ : 1 <= 2 ^ (- e)).
      { change 1 with (2 ^ 0). apply Z.pow_le_mono_r; lia. }
      revert Hlo HQ. generalize (2 ^ (- e)). intros Q Hlo HQ.
      assert (Zpos a * 1 <= Zpos a * Q)
        by (apply Z.mul_le_mono_nonneg_l; lia).
      change (2 ^ 0) with 1 in Hlo. lia.
    + assert (e = 1) by lia. subst e.
      destruct (Hk 1 0 ltac:(lia) ltac:(lia)) as [Hlo _].
      change (2 ^ (1 + 0)) with 2 in Hlo. change (2 ^ 0) with 1 in Hlo. lia.
  - unfold F64.ltb, SFltb, SFcompare in Hlt.
    destruct (Z.compare_spec e (-50)) as [E0|Hlt'|Hgt]; [| |discriminate Hlt].
    + subst e. apply compare_cont_lt in Hlt.
      destruct (Hk 5629499534213120 50 ltac:(lia) ltac:(lia)) as [Hlo _].
      change (2 ^ (-50 + 50)) with 1 in Hlo. lia.
    + destruct (Hk (2 ^ 53) (- e) ltac:(lia) ltac:(lia)) as [Hlo _].
      replace (e + - e) with 0 in Hlo by lia.
      assert (HQ : 2 ^ 51 <= 2 ^ (- e)) by (apply Z.pow_le_mono_r; lia).
      revert Hlo HQ. generalize (2 ^ (- e)). intros Q Hlo HQ.
      assert (Zpos a * 2 ^ 51 <= Zpos a * Q)
        by (apply Z.mul_le_mono_nonneg_l; lia).
      change (2 ^ 0) with 1 in Hlo. lia.
Qed.

Lemma cells_of_chars (cells : list string) :
  0 < total_chars cells -> cells <> [].
Proof. intros H ->. cbn in H. lia. Qed.

Lemma Series_mean_cons (w : Z) (wc : list Z) :
  Pandas.Series_mean (w :: wc)
  = VFloat (F64.div (F64.exact (Pandas.sum (w :: wc)))
                    (F64.exact (Py.len (w :: wc)))).
Proof. reflexivity. Qed.

(** X15: what the label means in whole numbers.  When the record of a
    grid says [is_table], more than one character in ten is a digit and
    there are fewer than five words per cell: [total_chars < 10 *
    total_digits] and [total_words < 5 * cells]. *)
Theorem table_label_in_counts (df : DataFrame) (r : OrderedDict.t) :
  Py.len (cells_of df) < 2 ^ 53 ->
  total_words (cells_of df) < 2 ^ 53 ->
  get_table_features df = Ok r ->
  OrderedDict.getitem r "is_table" = Ok (VBool true) ->
  total_chars (cells_of df) < 10 * total_digits (cells_of df)
  /\ total_words (cells_of df) < 5 * Py.len (cells_of df).
Proof.
  intros Hlen Hwords Hr Ht.
  destruct (totals_bounds (cells_of df)) as (Hw & Hc & Hd).
  assert (Hpos : 0 < total_chars (cells_of df)).
  { destruct (Z.eq_dec (total_chars (cells_of df)) 0) as [E|NE]; [|lia].
    rewrite (get_table_features_zero df E) in Hr. discriminate Hr. }
  destruct (int_truediv_unit _ _ Hd Hpos) as (x & q & Hx & _).
  destruct (get_table_features_ok df x Hx) as (r' & m & Hr' & Hm & _ & Hl & _).
  rewrite Hr in Hr'. injection Hr' as <-.
  rewrite Ht in Hl. injection Hl as Hl. symmetry in Hl.
  apply andb_true_iff in Hl. destruct Hl as [Hl1 Hl2].
  split.
  - unfold F64.int_truediv in Hx.
    destruct (Z.eqb_spec (total_chars (cells_of df)) 0) as [|_]; [lia|].
    destruct (total_chars (cells_of df)) as [|b|b]; try lia.
    destruct (total_digits (cells_of df)) as [|a|a]; try lia.
    + cbn in Hx. injection Hx as <-. discriminate Hl1.
    + apply ltb_tenth_div; [lia|].
      destruct (F64.div (F64.exact (Z.pos a)) (F64.exact (Z.pos b)));
        first [discriminate Hx | injection Hx as <-; exact Hl1].
  - pose proof (cells_of_chars _ Hpos) as Hne.
    assert (Hsum : total_words (cells_of df)
                   = Pandas.sum (words_count_by_cell (cells_of df)))
      by apply total_words_sum.
    assert (Hn : Py.len (words_count_by_cell (cells_of df))
                 = Py.len (cells_of df))
      by (unfold Py.len, words_count_by_cell; now rewrite length_map).
    assert (Hn0 : 0 < Py.len (cells_of df)).
    { destruct (cells_of df); [contradiction|].
      unfold Py.len. cbn [List.length]. lia. }
    rewrite Hsum in *. rewrite <- Hn in *.
    revert Hm Hw Hwords Hn0.
    generalize (words_count_by_cell (cells_of df)). intros wc Hm Hw Hwords Hn0.
    destruct wc as [|w wc]; [cbn in Hn0; lia|].
    rewrite Series_mean_cons in Hm.
    apply (f_equal (fun v => match v with VFloat y => y | _ => m end)) in Hm.
    cbv beta iota in Hm. subst m.
    revert Hl2 Hw Hwords Hn0.
    generalize (Pandas.sum (w :: wc)), (Py.len (w :: wc)).
    intros S N Hl2 Hw Hwords Hn0.
    destruct N as [|b|b]; try lia.
    destruct S as [|a|a]; try lia.
    apply ltb_div_five; [lia | exact Hl2].
Qed.

Lemma table_label_in_counts_witness :
  Py.len (cells_of {| width := 2; rows := [["1250"; "BP"]] |}) < 2 ^ 53
  /\ total_words (cells_of {| width := 2; rows := [["1250"; "BP"]] |}) < 2 ^ 53
  /\ exists r : OrderedDict.t,
      get_table_features {| width := 2; rows := [["1250"; "BP"]] |} = Ok r
      /\ OrderedDict.getitem r "is_table" = Ok (VBool true)
      /\ total_chars (cells_of {| width := 2; rows := [["1250"; "BP"]] |})
         < 10 * total_digits (cells_of {| width := 2; rows := [["1250"; "BP"]] |})
      /\ total_words (cells_of {| width := 2; rows := [["1250"; "BP"]] |})
         < 5 * Py.len (cells_of {| width := 2; rows := [["1250"; "BP"]] |}).
Proof.
  split; [reflexivity|]. split; [reflexivity|].
  eexists. split; [vm_compute; reflexivity|].
  split; [vm_compute; reflexivity|].
  eapply (table_label_in_counts {| width := 2; rows := [["1250"; "BP"]] |}).
  - reflexivity.
  - reflexivity.
  - vm_compute; reflexivity.
  - vm_compute; reflexivity.
Defined.
